(** * Candidature lifecycle, score classifications and translation fallback

    A shallow embedding of the business services of the recruitment backend
    (CandidaturesService, TestsService, TranslationsService) over an explicit
    model of the relational store they talk to through the Prisma client.

    Conventions.
    - Identifiers are UUID strings; [gen_random_uuid()] is a key that is
      fresh for the table.
    - Instants ([Date]) are kept as the ISO-8601 strings they are parsed
      from; [new Date()] reads the clock of the world.
    - An optional DTO field [x?: string] is an [option string]; JavaScript
      truthiness of such a field is [truthy].
    - Row bookkeeping columns maintained by the storage layer
      ([created_at], [updated_at]) and the relation payloads that [include]
      joins onto a returned row are not part of the model. *)

From stdpp Require Import gmap strings list fin_maps sorting pretty.

Local Open Scope string_scope.
Local Open Scope list_scope.

(** ** The persistence collaborator *)

Module Prisma.

(** The exceptions the services throw, and the client error raised by a
    failing storage call. *)
Inductive Exception : Type :=
| NotFoundException (message : string)
| BadRequestException (message : string)
| ConflictException (message : string)
| PrismaClientKnownRequestError (code : string).

Inductive Outcome (A : Type) : Type :=
| Returned (a : A)
| Thrown (e : Exception).
Global Arguments Returned {A} a.
Global Arguments Thrown {A} e.

(** One call on a model delegate, as a mock of the client would record it. *)
Record Call : Type := mkCall {
  model : string;
  operation : string;
  args : list string;
}.

(** The world a service method runs in: the persisted [store]; the
    schedule of storage failures ([true] makes the next write, or the next
    commit, fail); the calls made so far; the clock. *)
Record World (S : Type) : Type := mkWorld {
  store : S;
  faults : list bool;
  calls : list Call;
  clock : string;
}.
Global Arguments mkWorld {S} _ _ _ _.
Global Arguments store {S} _.
Global Arguments faults {S} _.
Global Arguments calls {S} _.
Global Arguments clock {S} _.

Definition M (S A : Type) : Type := World S → World S * Outcome A.

Section Monad.
Context {S : Type}.

Definition ret {A} (a : A) : M S A := λ w, (w, Returned a).

Definition throw {A} (e : Exception) : M S A := λ w, (w, Thrown e).

Definition bind {A B} (m : M S A) (k : A → M S B) : M S B :=
  λ w, match m w with
       | (w', Returned a) => k a w'
       | (w', Thrown e) => (w', Thrown e)
       end.

Definition record (c : Call) (w : World S) : World S :=
  mkWorld (store w) (faults w) (calls w ++ [c]) (clock w).

(** A read: never fails, leaves the store as it is. *)
Definition query {A} (c : Call) (f : S → A) : M S A :=
  λ w, (record c w, Returned (f (store w))).

(** A write: consumes one entry of the failure schedule; when it fails
    nothing is written.  [f] itself may refuse (a missing row, a
    duplicate key). *)
Definition mutate {A} (c : Call) (f : S → Outcome (A * S)) : M S A :=
  λ w, let w1 := record c w in
       match faults w1 with
       | true :: fs =>
           (mkWorld (store w1) fs (calls w1) (clock w1),
            Thrown (PrismaClientKnownRequestError "P1001"))
       | fs =>
           let w2 := mkWorld (store w1) (tail fs) (calls w1) (clock w1) in
           match f (store w2) with
           | Returned (a, s') =>
               (mkWorld s' (faults w2) (calls w2) (clock w2), Returned a)
           | Thrown e => (w2, Thrown e)
           end
       end.

(** [$transaction(async (tx) => body)]: the writes of [body] are kept
    only if [body] returns and the commit goes through; otherwise the
    store is the one the transaction started from. *)
Definition transaction {A} (body : M S A) : M S A :=
  λ w, match body w with
       | (w', Returned a) =>
           match faults w' with
           | true :: fs =>
               (mkWorld (store w) fs (calls w') (clock w'),
                Thrown (PrismaClientKnownRequestError "P2034"))
           | fs =>
               (mkWorld (store w') (tail fs) (calls w') (clock w'),
                Returned a)
           end
       | (w', Thrown e) =>
           (mkWorld (store w) (faults w') (calls w') (clock w'), Thrown e)
       end.

(** [new Date()] *)
Definition now : M S string := λ w, (w, Returned (clock w)).

(** [for (const x of xs) await body(x)] *)
Fixpoint forEach {A} (body : A → M S unit) (xs : list A) : M S unit :=
  match xs with
  | [] => ret ()
  | x :: xs' => bind (body x) (λ _, forEach body xs')
  end.

End Monad.

(** A world in which no storage call fails. *)
Definition reliable {S} (s : S) (t : string) : World S :=
  mkWorld s [] [] t.

End Prisma.

Import Prisma.

Notation "'let*' x ':=' m 'in' k" := (bind m (λ x, k))
  (at level 10, x name, m at level 100, k at level 200).
Notation "'do*' m 'in' k" := (bind m (λ _, k))
  (at level 10, m at level 100, k at level 200).

(** The character U+0022, for messages that quote a value. *)
Definition dquote : string := String (Ascii.ascii_of_nat 34) EmptyString.

(** JavaScript truthiness of an optional string. *)
Definition truthy (x : option string) : bool :=
  match x with
  | Some s => negb (String.eqb s "")
  | None => false
  end.

(** [if (x) { th(x) } else { el }] on an optional string. *)
Definition ifTruthy {A} (x : option string) (th : string → A) (el : A) : A :=
  match x with
  | Some s => if String.eqb s "" then el else th s
  | None => el
  end.

(** ** Schema *)

Module UserRole.
Inductive t := admin | psychologue | candidate.
Global Instance eq_dec : EqDecision t.
Proof. solve_decision. Defined.
End UserRole.

Module ApplicationStatus.
Inductive t := pending | approved | rejected | withdrawn.
Global Instance eq_dec : EqDecision t.
Proof. solve_decision. Defined.
End ApplicationStatus.

Module CandidatureStatus.
Inductive t :=
  pending | assigned | in_progress | completed | in_review | evaluated | archived.
Global Instance eq_dec : EqDecision t.
Proof. solve_decision. Defined.
End CandidatureStatus.

Module DecisionType.
Inductive t := favorable | defavorable.
Global Instance eq_dec : EqDecision t.
Proof. solve_decision. Defined.
End DecisionType.

Module Language.
Record t := mk {
  code : string;
  name : string;
  isActive : bool;
  isDefault : bool;
}.
End Language.

Module LogicalTest.
Record t := mk {
  code : string;
  isTutorial : bool;
  isActive : bool;
}.
End LogicalTest.

Module LogicalTestTranslation.
Record t := mk {
  testId : string;
  languageCode : string;
  name : string;
  description : option string;
  instructions : string;
}.
End LogicalTestTranslation.

Module LogicalQuestionTranslation.
Record t := mk {
  questionId : string;
  languageCode : string;
  title : option string;
  instruction : string;
  hints : list string;
}.
End LogicalQuestionTranslation.

Module McqPropositionTranslation.
Record t := mk {
  propositionId : string;
  languageCode : string;
  text : string;
}.
End McqPropositionTranslation.

Module ScoreClassificationTranslation.
Record t := mk {
  classificationId : string;
  languageCode : string;
  label : string;
  description : option string;
}.
End ScoreClassificationTranslation.

Module ScoreClassification.
Record t := mk {
  id : string;
  testId : string;
  displayOrder : Z;
  minScore : Z;
  maxScore : Z;
  colorCode : option string;
}.
End ScoreClassification.

Module PersonalityTest.
Record t := mk {
  id : string;
  isActive : bool;
}.
End PersonalityTest.

Module User.
Record t := mk {
  email : string;
  firstName : string;
  lastName : string;
  role : UserRole.t;
}.
End User.

Module JobApplication.
Record t := mk {
  candidateId : string;
  siteId : string;
  departmentId : string;
  targetPosition : string;
  status : ApplicationStatus.t;
  reviewedBy : option string;
  reviewedAt : option string;
}.
End JobApplication.

Module Candidature.
Record t := mk {
  jobApplicationId : string;
  assignedPsychologueId : option string;
  assignedBy : option string;
  dpNumber : option string;
  status : CandidatureStatus.t;
  assignedLogicalTestId : option string;
  assignedPersonalityTestId : option string;
  assignedOptionalLogicalTestId : option string;
  assignmentDate : option string;
  examDate : option string;
  decision : option DecisionType.t;
  decisionDate : option string;
  decisionBy : option string;
  decisionComments : option string;
  previousCandidatureId : option string;
  isReevaluation : bool;
}.
End Candidature.

Module CandidatureStateTransition.
Record t := mk {
  candidatureId : string;
  fromStatus : option CandidatureStatus.t;
  toStatus : CandidatureStatus.t;
  transitionedBy : string;
  transitionedAt : string;
  reason : option string;
}.
End CandidatureStateTransition.

(** The tables behind the one [PrismaService].  Tables with a primary key
    are maps from the key; translation tables are keyed by the compound
    unique key (parent id, language code).  Tables read in storage order
    ([findFirst], [findMany]) or only appended to are lists of rows. *)
Record Db : Type := mkDb {
  language : list Language.t;
  logicalTest : gmap string LogicalTest.t;
  logicalTestTranslation : gmap (string * string) LogicalTestTranslation.t;
  logicalQuestionTranslation : gmap (string * string) LogicalQuestionTranslation.t;
  mcqPropositionTranslation : gmap (string * string) McqPropositionTranslation.t;
  scoreClassification : list ScoreClassification.t;
  scoreClassificationTranslation : gmap (string * string) ScoreClassificationTranslation.t;
  personalityTest : list PersonalityTest.t;
  user : gmap string User.t;
  site : gmap string string;
  department : gmap string string;
  jobApplication : gmap string JobApplication.t;
  candidature : gmap string Candidature.t;
  candidatureStateTransition : list CandidatureStateTransition.t;
}.

(** Functional updates of single tables. *)
Definition with_logicalTestTranslation m (db : Db) : Db :=
  mkDb (language db) (logicalTest db) m (logicalQuestionTranslation db)
    (mcqPropositionTranslation db) (scoreClassification db)
    (scoreClassificationTranslation db) (personalityTest db) (user db)
    (site db) (department db) (jobApplication db) (candidature db)
    (candidatureStateTransition db).

Definition with_logicalQuestionTranslation m (db : Db) : Db :=
  mkDb (language db) (logicalTest db) (logicalTestTranslation db) m
    (mcqPropositionTranslation db) (scoreClassification db)
    (scoreClassificationTranslation db) (personalityTest db) (user db)
    (site db) (department db) (jobApplication db) (candidature db)
    (candidatureStateTransition db).

Definition with_mcqPropositionTranslation m (db : Db) : Db :=
  mkDb (language db) (logicalTest db) (logicalTestTranslation db)
    (logicalQuestionTranslation db) m (scoreClassification db)
    (scoreClassificationTranslation db) (personalityTest db) (user db)
    (site db) (department db) (jobApplication db) (candidature db)
    (candidatureStateTransition db).

Definition with_scoreClassification rows translations (db : Db) : Db :=
  mkDb (language db) (logicalTest db) (logicalTestTranslation db)
    (logicalQuestionTranslation db) (mcqPropositionTranslation db) rows
    translations (personalityTest db) (user db)
    (site db) (department db) (jobApplication db) (candidature db)
    (candidatureStateTransition db).

Definition with_jobApplication m (db : Db) : Db :=
  mkDb (language db) (logicalTest db) (logicalTestTranslation db)
    (logicalQuestionTranslation db) (mcqPropositionTranslation db)
    (scoreClassification db) (scoreClassificationTranslation db)
    (personalityTest db) (user db) (site db) (department db) m
    (candidature db) (candidatureStateTransition db).

Definition with_candidature m (db : Db) : Db :=
  mkDb (language db) (logicalTest db) (logicalTestTranslation db)
    (logicalQuestionTranslation db) (mcqPropositionTranslation db)
    (scoreClassification db) (scoreClassificationTranslation db)
    (personalityTest db) (user db) (site db) (department db)
    (jobApplication db) m (candidatureStateTransition db).

Definition with_candidatureStateTransition rows (db : Db) : Db :=
  mkDb (language db) (logicalTest db) (logicalTestTranslation db)
    (logicalQuestionTranslation db) (mcqPropositionTranslation db)
    (scoreClassification db) (scoreClassificationTranslation db)
    (personalityTest db) (user db) (site db) (department db)
    (jobApplication db) (candidature db) rows.

Definition with_language rows (db : Db) : Db :=
  mkDb rows (logicalTest db) (logicalTestTranslation db)
    (logicalQuestionTranslation db) (mcqPropositionTranslation db)
    (scoreClassification db) (scoreClassificationTranslation db)
    (personalityTest db) (user db) (site db) (department db)
    (jobApplication db) (candidature db) (candidatureStateTransition db).

(** ** TranslationsService *)

(** [shared/constants.ts] *)
Definition DEFAULT_LANGUAGE_CODE : string := "fr".

(** The model names [ensureNotDeletingDefaultTranslation] is called with. *)
Inductive TranslationModel :=
| logicalTestTranslationModel
| logicalQuestionTranslationModel
| mcqPropositionTranslationModel.

(** [[...new Set(codes)]]: duplicates dropped, first occurrences kept in
    order. *)
Fixpoint newSet (seen codes : list string) : list string :=
  match codes with
  | [] => []
  | c :: codes' =>
      if bool_decide (c ∈ seen) then newSet seen codes'
      else c :: newSet (c :: seen) codes'
  end.

(** [xs.join(', ')] *)
Fixpoint join (sep : string) (xs : list string) : string :=
  match xs with
  | [] => ""
  | [x] => x
  | x :: xs' => x +:+ sep +:+ join sep xs'
  end.

(** [count({ where: { parentId } })] on a translation table. *)
Definition countByParent {T} (parentId : string)
    (table : gmap (string * string) T) : nat :=
  size (filter (λ kv : (string * string) * T, kv.1.1 = parentId) table).

(** [delete({ where: { parent_languageCode } })]: the row must exist. *)
Definition deleteRow {T} (key : string * string)
    (table : gmap (string * string) T) : Outcome (T * gmap (string * string) T) :=
  match table !! key with
  | Some row => Returned (row, delete key table)
  | None => Thrown (PrismaClientKnownRequestError "P2025")
  end.

(** [language.update({ where: { code }, data })]: the row with this code
    is rewritten, the others are left alone. *)
Definition updateLanguage (code : string) (data : Language.t → Language.t)
    (rows : list Language.t) : list Language.t :=
  (λ l, if bool_decide (Language.code l = code) then data l else l) <$> rows.

Module UpsertLanguageDto.
Record t := mk {
  code : string;
  name : string;
}.
End UpsertLanguageDto.

Module LogicalTestTranslationDto.
Record t := mk {
  languageCode : string;
  name : string;
  description : option string;
  instructions : string;
}.
End LogicalTestTranslationDto.

(** [logicalTestTranslation.upsert({ where, create, update })]: a new row
    takes every field from the input; an existing row keeps its key and,
    when the input has no description, its description.  A test id that
    names no test is refused by the storage layer, which is one of the
    failures of the schedule. *)
Definition upsertTestTranslation (testId : string)
    (t : LogicalTestTranslationDto.t) (db : Db)
    : Outcome (LogicalTestTranslation.t * Db) :=
  let key := (testId, LogicalTestTranslationDto.languageCode t) in
  let row :=
    match logicalTestTranslation db !! key with
    | Some old =>
        LogicalTestTranslation.mk
          (LogicalTestTranslation.testId old)
          (LogicalTestTranslation.languageCode old)
          (LogicalTestTranslationDto.name t)
          (match LogicalTestTranslationDto.description t with
           | Some d => Some d
           | None => LogicalTestTranslation.description old
           end)
          (LogicalTestTranslationDto.instructions t)
    | None =>
        LogicalTestTranslation.mk testId
          (LogicalTestTranslationDto.languageCode t)
          (LogicalTestTranslationDto.name t)
          (LogicalTestTranslationDto.description t)
          (LogicalTestTranslationDto.instructions t)
    end in
  Returned (row, with_logicalTestTranslation
                   (<[key := row]> (logicalTestTranslation db)) db).

(** [$transaction(xs.map(f))] runs the operations in order and answers with
    their results. *)
Fixpoint mapM {S A B} (f : A → M S B) (xs : list A) : M S (list B) :=
  match xs with
  | [] => ret []
  | x :: xs' =>
      let* y := f x in
      let* ys := mapM f xs' in
      ret (y :: ys)
  end.

(** [findMany({ where: { parentId: { in: ids }, languageCode } })] on a
    translation table. *)
Definition findManyByParents {T} (ids : list string) (languageCode : string)
    (table : gmap (string * string) T) : list T :=
  snd <$> filter (λ kv : (string * string) * T,
                    kv.1.1 ∈ ids ∧ kv.1.2 = languageCode)
            (map_to_list table).

(** The loop that fills the [Map] a batch getter answers with: an entry is
    written when its parent has none yet or when it is in the resolved
    language. *)
Definition toTranslationMap {T} (parentId languageCode : T → string)
    (lang : string) (translations : list T) : gmap string T :=
  foldl (λ (translationMap : gmap string T) t,
           if negb (bool_decide (is_Some (translationMap !! parentId t)))
              || bool_decide (languageCode t = lang)
           then <[parentId t := t]> translationMap
           else translationMap)
    ∅ translations.

Module TranslationsService.

Definition getDefaultLanguageCode : M Db string :=
  let* defaultLang :=
    query (mkCall "language" "findFirst" ["isDefault"])
      (λ db, find Language.isDefault (language db)) in
  ret (match defaultLang with
       | Some l => Language.code l
       | None => DEFAULT_LANGUAGE_CODE
       end).

Definition resolveLanguageCode (requestedLang : string) : M Db string :=
  let* language :=
    query (mkCall "language" "findUnique" [requestedLang])
      (λ db, find (λ l, bool_decide (Language.code l = requestedLang)
                          && Language.isActive l) (language db)) in
  match language with
  | Some _ => ret requestedLang
  | None => getDefaultLanguageCode
  end.

Definition getTestTranslation (testId requestedLang : string)
    : M Db (option LogicalTestTranslation.t) :=
  let* lang := resolveLanguageCode requestedLang in
  let* translation :=
    query (mkCall "logicalTestTranslation" "findUnique" [testId; lang])
      (λ db, logicalTestTranslation db !! (testId, lang)) in
  match translation with
  | None =>
      if bool_decide (lang ≠ DEFAULT_LANGUAGE_CODE) then
        query (mkCall "logicalTestTranslation" "findUnique"
                 [testId; DEFAULT_LANGUAGE_CODE])
          (λ db, logicalTestTranslation db !! (testId, DEFAULT_LANGUAGE_CODE))
      else ret translation
  | Some _ => ret translation
  end.

Definition getClassificationTranslation (classificationId requestedLang : string)
    : M Db (option ScoreClassificationTranslation.t) :=
  let* lang := resolveLanguageCode requestedLang in
  let* translation :=
    query (mkCall "scoreClassificationTranslation" "findUnique"
             [classificationId; lang])
      (λ db, scoreClassificationTranslation db !! (classificationId, lang)) in
  match translation with
  | None =>
      if bool_decide (lang ≠ DEFAULT_LANGUAGE_CODE) then
        query (mkCall "scoreClassificationTranslation" "findUnique"
                 [classificationId; DEFAULT_LANGUAGE_CODE])
          (λ db, scoreClassificationTranslation db
                   !! (classificationId, DEFAULT_LANGUAGE_CODE))
      else ret translation
  | Some _ => ret translation
  end.

Definition getQuestionTranslation (questionId requestedLang : string)
    : M Db (option LogicalQuestionTranslation.t) :=
  let* lang := resolveLanguageCode requestedLang in
  let* translation :=
    query (mkCall "logicalQuestionTranslation" "findUnique" [questionId; lang])
      (λ db, logicalQuestionTranslation db !! (questionId, lang)) in
  match translation with
  | None =>
      if bool_decide (lang ≠ DEFAULT_LANGUAGE_CODE) then
        query (mkCall "logicalQuestionTranslation" "findUnique"
                 [questionId; DEFAULT_LANGUAGE_CODE])
          (λ db, logicalQuestionTranslation db
                   !! (questionId, DEFAULT_LANGUAGE_CODE))
      else ret translation
  | Some _ => ret translation
  end.

Definition getPropositionTranslation (propositionId requestedLang : string)
    : M Db (option McqPropositionTranslation.t) :=
  let* lang := resolveLanguageCode requestedLang in
  let* translation :=
    query (mkCall "mcqPropositionTranslation" "findUnique"
             [propositionId; lang])
      (λ db, mcqPropositionTranslation db !! (propositionId, lang)) in
  match translation with
  | None =>
      if bool_decide (lang ≠ DEFAULT_LANGUAGE_CODE) then
        query (mkCall "mcqPropositionTranslation" "findUnique"
                 [propositionId; DEFAULT_LANGUAGE_CODE])
          (λ db, mcqPropositionTranslation db
                   !! (propositionId, DEFAULT_LANGUAGE_CODE))
      else ret translation
  | Some _ => ret translation
  end.

Definition validateLanguageCodes (codes : list string) : M Db unit :=
  let uniqueCodes := newSet [] codes in
  let* languages :=
    query (mkCall "language" "findMany" uniqueCodes)
      (λ db, Language.code <$>
               filter (λ l, Language.code l ∈ uniqueCodes
                            ∧ Language.isActive l = true) (language db)) in
  let invalidCodes := filter (λ c, c ∉ languages) uniqueCodes in
  if bool_decide (0 < length invalidCodes)%nat then
    throw (BadRequestException
             ("Invalid or inactive language codes: " +:+ join ", " invalidCodes))
  else ret ().

Definition ensureNotDeletingDefaultTranslation (model : TranslationModel)
    (parentId languageCode : string) : M Db unit :=
  let* defaultLang := getDefaultLanguageCode in
  if bool_decide (languageCode = defaultLang) then
    let* count :=
      match model with
      | logicalTestTranslationModel =>
          query (mkCall "logicalTestTranslation" "count" [parentId])
            (λ db, countByParent parentId (logicalTestTranslation db))
      | logicalQuestionTranslationModel =>
          query (mkCall "logicalQuestionTranslation" "count" [parentId])
            (λ db, countByParent parentId (logicalQuestionTranslation db))
      | mcqPropositionTranslationModel =>
          query (mkCall "mcqPropositionTranslation" "count" [parentId])
            (λ db, countByParent parentId (mcqPropositionTranslation db))
      end in
    if bool_decide (count ≤ 1)%nat then
      throw (BadRequestException
               "Cannot delete the last remaining translation. At least one translation must exist.")
    else ret ()
  else ret ().

Definition deleteTestTranslation (testId languageCode : string)
    : M Db LogicalTestTranslation.t :=
  do* ensureNotDeletingDefaultTranslation logicalTestTranslationModel
        testId languageCode in
  mutate (mkCall "logicalTestTranslation" "delete" [testId; languageCode])
    (λ db, match deleteRow (testId, languageCode) (logicalTestTranslation db) with
           | Returned (row, table) =>
               Returned (row, with_logicalTestTranslation table db)
           | Thrown e => Thrown e
           end).

Definition deleteQuestionTranslation (questionId languageCode : string)
    : M Db LogicalQuestionTranslation.t :=
  do* ensureNotDeletingDefaultTranslation logicalQuestionTranslationModel
        questionId languageCode in
  mutate (mkCall "logicalQuestionTranslation" "delete" [questionId; languageCode])
    (λ db, match deleteRow (questionId, languageCode)
                   (logicalQuestionTranslation db) with
           | Returned (row, table) =>
               Returned (row, with_logicalQuestionTranslation table db)
           | Thrown e => Thrown e
           end).

Definition upsertLanguage (dto : UpsertLanguageDto.t) : M Db Language.t :=
  mutate (mkCall "language" "upsert" [UpsertLanguageDto.code dto])
    (λ db,
       let rename l :=
         Language.mk (Language.code l) (UpsertLanguageDto.name dto)
           (Language.isActive l) (Language.isDefault l) in
       match find (λ l, bool_decide (Language.code l = UpsertLanguageDto.code dto))
               (language db) with
       | Some l =>
           Returned (rename l,
                     with_language
                       (updateLanguage (UpsertLanguageDto.code dto) rename
                          (language db)) db)
       | None =>
           let l := Language.mk (UpsertLanguageDto.code dto)
                      (UpsertLanguageDto.name dto) true false in
           Returned (l, with_language (language db ++ [l]) db)
       end).

Definition toggleLanguageActive (code : string) : M Db Language.t :=
  let* language_ :=
    query (mkCall "language" "findUnique" [code])
      (λ db, find (λ l, bool_decide (Language.code l = code)) (language db)) in
  match language_ with
  | None => throw (NotFoundException
                     ("Language " +:+ dquote +:+ code +:+ dquote +:+ " not found"))
  | Some language_ =>
      if Language.isDefault language_ then
        throw (BadRequestException "Cannot deactivate the default language")
      else
        mutate (mkCall "language" "update" [code])
          (λ db,
             let flip l :=
               Language.mk (Language.code l) (Language.name l)
                 (negb (Language.isActive language_)) (Language.isDefault l) in
             match find (λ l, bool_decide (Language.code l = code))
                     (language db) with
             | Some l =>
                 Returned (flip l,
                           with_language (updateLanguage code flip (language db)) db)
             | None => Thrown (PrismaClientKnownRequestError "P2025")
             end)
  end.

Definition upsertTestTranslations (testId : string)
    (translations : list LogicalTestTranslationDto.t)
    : M Db (list LogicalTestTranslation.t) :=
  do* validateLanguageCodes
        (LogicalTestTranslationDto.languageCode <$> translations) in
  transaction
    (mapM (λ t, mutate (mkCall "logicalTestTranslation" "upsert"
                          [testId; LogicalTestTranslationDto.languageCode t])
                  (upsertTestTranslation testId t))
       translations).

Definition getQuestionTranslationsBatch (questionIds : list string)
    (requestedLang : string) : M Db (gmap string LogicalQuestionTranslation.t) :=
  let* lang := resolveLanguageCode requestedLang in
  let* translations :=
    query (mkCall "logicalQuestionTranslation" "findMany" (lang :: questionIds))
      (λ db, findManyByParents questionIds lang (logicalQuestionTranslation db)) in
  let foundIds := LogicalQuestionTranslation.questionId <$> translations in
  let missingIds := filter (λ id, id ∉ foundIds) questionIds in
  let* translations :=
    if bool_decide (0 < length missingIds)%nat
       && bool_decide (lang ≠ DEFAULT_LANGUAGE_CODE) then
      let* fallbackTranslations :=
        query (mkCall "logicalQuestionTranslation" "findMany"
                 (DEFAULT_LANGUAGE_CODE :: missingIds))
          (λ db, findManyByParents missingIds DEFAULT_LANGUAGE_CODE
                   (logicalQuestionTranslation db)) in
      ret (translations ++ fallbackTranslations)
    else ret translations in
  ret (toTranslationMap LogicalQuestionTranslation.questionId
         LogicalQuestionTranslation.languageCode lang translations).

Definition getPropositionTranslationsBatch (propositionIds : list string)
    (requestedLang : string) : M Db (gmap string McqPropositionTranslation.t) :=
  let* lang := resolveLanguageCode requestedLang in
  let* translations :=
    query (mkCall "mcqPropositionTranslation" "findMany" (lang :: propositionIds))
      (λ db, findManyByParents propositionIds lang (mcqPropositionTranslation db)) in
  let foundIds := McqPropositionTranslation.propositionId <$> translations in
  let missingIds := filter (λ id, id ∉ foundIds) propositionIds in
  let* translations :=
    if bool_decide (0 < length missingIds)%nat
       && bool_decide (lang ≠ DEFAULT_LANGUAGE_CODE) then
      let* fallbackTranslations :=
        query (mkCall "mcqPropositionTranslation" "findMany"
                 (DEFAULT_LANGUAGE_CODE :: missingIds))
          (λ db, findManyByParents missingIds DEFAULT_LANGUAGE_CODE
                   (mcqPropositionTranslation db)) in
      ret (translations ++ fallbackTranslations)
    else ret translations in
  ret (toTranslationMap McqPropositionTranslation.propositionId
         McqPropositionTranslation.languageCode lang translations).

End TranslationsService.

(** ** TestsService: score classifications *)

Module ScoreClassificationTranslationDto.
Record t := mk {
  languageCode : string;
  label : string;
  description : option string;
}.
End ScoreClassificationTranslationDto.

Module ScoreClassificationItemDto.
Record t := mk {
  id : option string;
  displayOrder : Z;
  minScore : Z;
  maxScore : Z;
  colorCode : option string;
  translations : list ScoreClassificationTranslationDto.t;
}.
End ScoreClassificationItemDto.

Module UpsertClassificationsDto.
Record t := mk {
  classifications : list ScoreClassificationItemDto.t;
}.
End UpsertClassificationsDto.

(** One entry of the payload [getClassifications] answers with. *)
Module ClassificationView.
Record t := mk {
  id : string;
  displayOrder : Z;
  minScore : Z;
  maxScore : Z;
  colorCode : option string;
  label : option string;
  description : option string;
}.
End ClassificationView.

(** [Array.prototype.sort] with the comparator
    [(a, b) => a.displayOrder - b.displayOrder]: a stable sort, written as
    insertion from the right. *)
Fixpoint insertByOrder {A} (key : A → Z) (x : A) (l : list A) : list A :=
  match l with
  | [] => [x]
  | y :: l' =>
      if bool_decide (key x ≤ key y)%Z then x :: y :: l'
      else y :: insertByOrder key x l'
  end.

Fixpoint sortBy {A} (key : A → Z) (l : list A) : list A :=
  match l with
  | [] => []
  | x :: l' => insertByOrder key x (sortBy key l')
  end.

Module TestsService.
Import ScoreClassificationItemDto.

(** First loop of [validateClassificationRanges]. *)
Fixpoint checkBounds (sorted : list ScoreClassificationItemDto.t) : Outcome unit :=
  match sorted with
  | [] => Returned ()
  | c :: rest =>
      if bool_decide (minScore c > maxScore c)%Z then
        Thrown (BadRequestException
          ("Classification at displayOrder " +:+ pretty (displayOrder c)
           +:+ ": minScore (" +:+ pretty (minScore c)
           +:+ ") cannot be greater than maxScore ("
           +:+ pretty (maxScore c) +:+ ")"))
      else checkBounds rest
  end.

(** Second loop: [prev = sorted[i - 1]], [curr = sorted[i]]. *)
Fixpoint checkOverlap (sorted : list ScoreClassificationItemDto.t) : Outcome unit :=
  match sorted with
  | prev :: rest =>
      match rest with
      | curr :: _ =>
          if bool_decide (minScore curr ≤ maxScore prev)%Z then
            Thrown (BadRequestException
              ("Score range overlap between displayOrder "
               +:+ pretty (displayOrder prev) +:+ " ("
               +:+ pretty (minScore prev) +:+ "-" +:+ pretty (maxScore prev)
               +:+ ") and " +:+ pretty (displayOrder curr) +:+ " ("
               +:+ pretty (minScore curr) +:+ "-" +:+ pretty (maxScore curr)
               +:+ ")"))
          else checkOverlap rest
      | [] => Returned ()
      end
  | [] => Returned ()
  end.

Definition validateClassificationRanges
    (classifications : list ScoreClassificationItemDto.t) : Outcome unit :=
  let sorted := sortBy displayOrder classifications in
  match checkBounds sorted with
  | Returned _ => checkOverlap sorted
  | Thrown e => Thrown e
  end.

(** A synchronous call that may throw, inside an [async] method. *)
Definition lift {A} (o : Outcome A) : M Db A :=
  match o with
  | Returned a => ret a
  | Thrown e => throw e
  end.

(** [tx.scoreClassification.deleteMany({ where: { testId } })]; the
    translations of the deleted rows go with them (ON DELETE CASCADE). *)
Definition deleteManyByTest (testId : string) (db : Db) : Db :=
  let kept :=
    filter (λ r, ScoreClassification.testId r ≠ testId) (scoreClassification db) in
  let keptIds := ScoreClassification.id <$> kept in
  with_scoreClassification kept
    (filter (λ kv : (string * string) * ScoreClassificationTranslation.t,
               kv.1.1 ∈ keptIds) (scoreClassificationTranslation db))
    db.

(** The nested [translations: { create: [...] }] of one classification;
    a second row for the same language violates the compound key. *)
Fixpoint createTranslations (classificationId : string)
    (ts : list ScoreClassificationTranslationDto.t)
    (table : gmap (string * string) ScoreClassificationTranslation.t)
    : Outcome (gmap (string * string) ScoreClassificationTranslation.t) :=
  match ts with
  | [] => Returned table
  | t :: ts' =>
      let key := (classificationId, ScoreClassificationTranslationDto.languageCode t) in
      match table !! key with
      | Some _ => Thrown (PrismaClientKnownRequestError "P2002")
      | None =>
          createTranslations classificationId ts'
            (<[key := ScoreClassificationTranslation.mk classificationId
                        (ScoreClassificationTranslationDto.languageCode t)
                        (ScoreClassificationTranslationDto.label t)
                        (ScoreClassificationTranslationDto.description t)]> table)
      end
  end.

(** [tx.scoreClassification.create({ data: { testId, ..., translations } })] *)
Definition createClassification (testId : string)
    (item : ScoreClassificationItemDto.t) (db : Db) : Outcome (unit * Db) :=
  let newId : string :=
    fresh (list_to_set (ScoreClassification.id <$> scoreClassification db)
             : gset string) in
  let row := ScoreClassification.mk newId testId (displayOrder item)
               (minScore item) (maxScore item) (colorCode item) in
  match createTranslations newId (translations item)
          (scoreClassificationTranslation db) with
  | Returned table =>
      Returned ((), with_scoreClassification
                      (scoreClassification db ++ [row]) table db)
  | Thrown e => Thrown e
  end.

(** The rows [findMany({ where: { testId } })] ranges over. *)
Definition classificationsOf (testId : string) (db : Db)
    : list ScoreClassification.t :=
  filter (λ r, ScoreClassification.testId r = testId) (scoreClassification db).

(** [include: { translations: true }] for one classification. *)
Definition translationsOf (classificationId : string) (db : Db)
    : list ScoreClassificationTranslation.t :=
  snd <$> filter (λ kv : (string * string) * ScoreClassificationTranslation.t,
                    kv.1.1 = classificationId)
            (map_to_list (scoreClassificationTranslation db)).

Definition pickTranslation (resolvedLang : string)
    (ts : list ScoreClassificationTranslation.t)
    : option ScoreClassificationTranslation.t :=
  let byLang l :=
    find (λ t, bool_decide (ScoreClassificationTranslation.languageCode t = l)) ts in
  match byLang resolvedLang with
  | Some t => Some t
  | None => match byLang "fr" with
            | Some t => Some t
            | None => head ts
            end
  end.

(** [getClassifications] with the cache collaborator out of reach: every
    cache read misses and cache writes are dropped, which the method
    tolerates by construction (both are wrapped in [try]/[catch]). *)
Definition getClassifications (testId lang : string)
    : M Db (list ClassificationView.t) :=
  let* test := query (mkCall "logicalTest" "findUnique" [testId])
                 (λ db, logicalTest db !! testId) in
  match test with
  | None => throw (NotFoundException
                     ("Test with ID " +:+ dquote +:+ testId +:+ dquote
                      +:+ " not found"))
  | Some _ =>
      let* classifications :=
        query (mkCall "scoreClassification" "findMany" [testId])
          (λ db, (λ c, (c, translationsOf (ScoreClassification.id c) db))
                   <$> sortBy ScoreClassification.displayOrder
                         (classificationsOf testId db)) in
      let* resolvedLang := TranslationsService.resolveLanguageCode lang in
      ret ((λ ct : ScoreClassification.t * list ScoreClassificationTranslation.t,
              let translation := pickTranslation resolvedLang ct.2 in
              ClassificationView.mk
                (ScoreClassification.id ct.1)
                (ScoreClassification.displayOrder ct.1)
                (ScoreClassification.minScore ct.1)
                (ScoreClassification.maxScore ct.1)
                (ScoreClassification.colorCode ct.1)
                (ScoreClassificationTranslation.label <$> translation)
                (translation ≫= ScoreClassificationTranslation.description))
           <$> classifications)
  end.

(** [invalidateTestCache] only lists the languages and deletes cache keys;
    whatever fails in it is caught. *)
Definition invalidateTestCache (testId : string) : M Db unit :=
  let* _languages := query (mkCall "language" "findMany" [])
                       (λ db, language db) in
  ret ().

Definition upsertClassifications (testId : string)
    (dto : UpsertClassificationsDto.t) : M Db (list ClassificationView.t) :=
  let classifications := UpsertClassificationsDto.classifications dto in
  let* test := query (mkCall "logicalTest" "findUnique" [testId])
                 (λ db, logicalTest db !! testId) in
  match test with
  | None => throw (NotFoundException
                     ("Test with ID " +:+ dquote +:+ testId +:+ dquote
                      +:+ " not found"))
  | Some _ =>
      do* lift (validateClassificationRanges classifications) in
      let allLangCodes :=
        flat_map (λ c, ScoreClassificationTranslationDto.languageCode
                         <$> translations c) classifications in
      do* TranslationsService.validateLanguageCodes allLangCodes in
      do* transaction
            (do* mutate (mkCall "scoreClassification" "deleteMany" [testId])
                   (λ db, Returned ((), deleteManyByTest testId db)) in
             forEach (λ item,
                        mutate (mkCall "scoreClassification" "create" [testId])
                          (createClassification testId item))
               classifications) in
      do* invalidateTestCache testId in
      getClassifications testId "fr"
  end.

End TestsService.

(** ** CandidaturesService *)

Module CreateCandidatureDto.
Record t := mk {
  jobApplicationId : string;
  dpNumber : option string;
  assignedPsychologueId : option string;
  examDate : option string;
}.
End CreateCandidatureDto.

Module CreateManualCandidatureDto.
Record t := mk {
  candidateId : string;
  siteId : string;
  departmentId : string;
  positionApplied : option string;
  dpNumber : option string;
  assignedPsychologueId : option string;
  previousCandidatureId : option string;
}.
End CreateManualCandidatureDto.

Module UpdateCandidatureDto.
Record t := mk {
  dpNumber : option string;
  examDate : option string;
  assignedPsychologueId : option string;
}.
End UpdateCandidatureDto.

Module AssignPsychologueDto.
Record t := mk {
  psychologueId : string;
}.
End AssignPsychologueDto.

Module AssignTestsDto.
Record t := mk {
  logicalTestId : string;
  optionalLogicalTestId : option string;
  includePersonalityTest : option bool;
  examDate : option string;
  notifyCandidate : option bool;
}.
End AssignTestsDto.

Module MakeDecisionDto.
Record t := mk {
  decision : DecisionType.t;
  comments : option string;
  reportId : option string;
}.
End MakeDecisionDto.

(** The string value of the [DecisionType] enum. *)
Definition decisionName (d : DecisionType.t) : string :=
  match d with
  | DecisionType.favorable => "favorable"
  | DecisionType.defavorable => "defavorable"
  end.

(** [include: { candidature: true }] on a job application: the candidature
    that points at it, if any. *)
Definition candidatureOf (jobApplicationId : string)
    (table : gmap string Candidature.t) : option (string * Candidature.t) :=
  head (filter (λ kv : string * Candidature.t,
                  Candidature.jobApplicationId kv.2 = jobApplicationId)
          (map_to_list table)).

(** [candidature.create({ data })] *)
Definition createCandidature (row : Candidature.t) (db : Db)
    : Outcome ((string * Candidature.t) * Db) :=
  let newId : string := fresh (dom (candidature db)) in
  Returned ((newId, row), with_candidature (<[newId := row]> (candidature db)) db).

(** [candidature.update({ where: { id }, data })]: the row must exist. *)
Definition updateCandidature (id : string) (data : Candidature.t → Candidature.t)
    (db : Db) : Outcome ((string * Candidature.t) * Db) :=
  match candidature db !! id with
  | Some c =>
      Returned ((id, data c),
                with_candidature (<[id := data c]> (candidature db)) db)
  | None => Thrown (PrismaClientKnownRequestError "P2025")
  end.

(** [jobApplication.create({ data })] *)
Definition createJobApplication (row : JobApplication.t) (db : Db)
    : Outcome ((string * JobApplication.t) * Db) :=
  let newId : string := fresh (dom (jobApplication db)) in
  Returned ((newId, row),
            with_jobApplication (<[newId := row]> (jobApplication db)) db).

(** [candidatureStateTransition.create({ data })] *)
Definition createTransition (row : CandidatureStateTransition.t) (db : Db)
    : Outcome (unit * Db) :=
  Returned ((), with_candidatureStateTransition
                  (candidatureStateTransition db ++ [row]) db).

(** The counts object [getDashboard] builds for one [groupBy] result. *)
Module DashboardCounts.
Record t := mk {
  pending : nat;
  assigned : nat;
  inProgress : nat;
  completed : nat;
  inReview : nat;
  evaluated : nat;
  archived : nat;
  total : nat;
}.
End DashboardCounts.

Module CandidaturesService.

(** The check each assigning method makes on a psychologue id. *)
Definition findPsychologue (id : string) : M Db User.t :=
  let* psychologue := query (mkCall "user" "findUnique" [id])
                        (λ db, user db !! id) in
  match psychologue with
  | Some u =>
      if bool_decide (User.role u ≠ UserRole.psychologue)
      then throw (BadRequestException "Invalid psychologue ID")
      else ret u
  | None => throw (BadRequestException "Invalid psychologue ID")
  end.

Definition logTransition (candidatureId : string)
    (fromStatus : option CandidatureStatus.t) (toStatus : CandidatureStatus.t)
    (transitionedBy : string) (reason : string) : M Db unit :=
  let* at_ := now in
  mutate (mkCall "candidatureStateTransition" "create" [candidatureId])
    (createTransition
       (CandidatureStateTransition.mk candidatureId fromStatus toStatus
          transitionedBy at_ (Some reason))).

Definition create (dto : CreateCandidatureDto.t) (assignedBy : string)
    : M Db (string * Candidature.t) :=
  let jaId := CreateCandidatureDto.jobApplicationId dto in
  let psy := CreateCandidatureDto.assignedPsychologueId dto in
  let* jobApplication :=
    query (mkCall "jobApplication" "findUnique" [jaId])
      (λ db, (λ ja, (ja, candidatureOf jaId (candidature db)))
               <$> jobApplication db !! jaId) in
  match jobApplication with
  | None => throw (NotFoundException "Job application not found")
  | Some (ja, existing) =>
      if bool_decide (JobApplication.status ja ≠ ApplicationStatus.approved) then
        throw (BadRequestException
                 "Job application must be approved before creating candidature")
      else match existing with
      | Some _ =>
          throw (ConflictException "Job application already has a candidature")
      | None =>
          do* ifTruthy psy (λ id, do* findPsychologue id in ret ()) (ret ()) in
          let* candidature :=
            mutate (mkCall "candidature" "create" [jaId])
              (createCandidature
                 (Candidature.mk jaId psy
                    (if truthy psy then Some assignedBy else None)
                    (CreateCandidatureDto.dpNumber dto)
                    (if truthy psy then CandidatureStatus.assigned
                     else CandidatureStatus.pending)
                    None None None None
                    (if truthy (CreateCandidatureDto.examDate dto)
                     then CreateCandidatureDto.examDate dto else None)
                    None None None None None false)) in
          do* (if truthy psy then
                 logTransition candidature.1 (Some CandidatureStatus.pending)
                   CandidatureStatus.assigned
                   assignedBy "Initial assignment"
               else ret ()) in
          ret candidature
      end
  end.

Definition createManual (dto : CreateManualCandidatureDto.t) (createdBy : string)
    : M Db (string * Candidature.t) :=
  let psy := CreateManualCandidatureDto.assignedPsychologueId dto in
  let prev := CreateManualCandidatureDto.previousCandidatureId dto in
  let* candidate :=
    query (mkCall "user" "findUnique" [CreateManualCandidatureDto.candidateId dto])
      (λ db, user db !! CreateManualCandidatureDto.candidateId dto) in
  if bool_decide (User.role <$> candidate ≠ Some UserRole.candidate) then
    throw (NotFoundException "Candidate not found")
  else
    let* site_ :=
      query (mkCall "site" "findUnique" [CreateManualCandidatureDto.siteId dto])
        (λ db, site db !! CreateManualCandidatureDto.siteId dto) in
    let* department_ :=
      query (mkCall "department" "findUnique"
               [CreateManualCandidatureDto.departmentId dto])
        (λ db, department db !! CreateManualCandidatureDto.departmentId dto) in
    match site_, department_ with
    | None, _ => throw (NotFoundException "Site not found")
    | Some _, None => throw (NotFoundException "Department not found")
    | Some _, Some _ =>
        do* ifTruthy prev
              (λ id,
                 let* previousCandidature :=
                   query (mkCall "candidature" "findUnique" [id])
                     (λ db, candidature db !! id) in
                 match previousCandidature with
                 | None => throw (NotFoundException "Previous candidature not found")
                 | Some _ => ret ()
                 end)
              (ret ()) in
        do* ifTruthy psy (λ id, do* findPsychologue id in ret ()) (ret ()) in
        let* reviewedAt := now in
        transaction
          (let* jobApplication :=
             mutate (mkCall "jobApplication" "create"
                       [CreateManualCandidatureDto.candidateId dto])
               (createJobApplication
                  (JobApplication.mk
                     (CreateManualCandidatureDto.candidateId dto)
                     (CreateManualCandidatureDto.siteId dto)
                     (CreateManualCandidatureDto.departmentId dto)
                     (ifTruthy (CreateManualCandidatureDto.positionApplied dto)
                        (λ s, s) "Not specified")
                     ApplicationStatus.approved (Some createdBy)
                     (Some reviewedAt))) in
           mutate (mkCall "candidature" "create" [jobApplication.1])
             (createCandidature
                (Candidature.mk jobApplication.1 psy
                   (if truthy psy then Some createdBy else None)
                   (CreateManualCandidatureDto.dpNumber dto)
                   (if truthy psy then CandidatureStatus.assigned
                     else CandidatureStatus.pending)
                   None None None None None None None None None
                   prev (truthy prev))))
    end.

Definition update (id : string) (dto : UpdateCandidatureDto.t) (userId : string)
    : M Db (string * Candidature.t) :=
  let* candidature := query (mkCall "candidature" "findUnique" [id])
                        (λ db, candidature db !! id) in
  match candidature with
  | None => throw (NotFoundException "Candidature not found")
  | Some _ =>
      do* ifTruthy (UpdateCandidatureDto.assignedPsychologueId dto)
            (λ pid, do* findPsychologue pid in ret ()) (ret ()) in
      mutate (mkCall "candidature" "update" [id])
        (updateCandidature id
           (λ c, Candidature.mk
              (Candidature.jobApplicationId c)
              (match UpdateCandidatureDto.assignedPsychologueId dto with
               | Some pid => if truthy (Some pid) then Some pid else None
               | None => Candidature.assignedPsychologueId c
               end)
              (match UpdateCandidatureDto.assignedPsychologueId dto with
               | Some _ => Some userId
               | None => Candidature.assignedBy c
               end)
              (match UpdateCandidatureDto.dpNumber dto with
               | Some n => Some n
               | None => Candidature.dpNumber c
               end)
              (Candidature.status c)
              (Candidature.assignedLogicalTestId c)
              (Candidature.assignedPersonalityTestId c)
              (Candidature.assignedOptionalLogicalTestId c)
              (Candidature.assignmentDate c)
              (match UpdateCandidatureDto.examDate dto with
               | Some d => if truthy (Some d) then Some d else None
               | None => Candidature.examDate c
               end)
              (Candidature.decision c)
              (Candidature.decisionDate c)
              (Candidature.decisionBy c)
              (Candidature.decisionComments c)
              (Candidature.previousCandidatureId c)
              (Candidature.isReevaluation c)))
  end.

Definition assignPsychologue (id : string) (dto : AssignPsychologueDto.t)
    (assignedBy : string) : M Db (string * Candidature.t) :=
  if negb (truthy (Some assignedBy)) then
    throw (BadRequestException "Current user ID is required")
  else
    let* candidature := query (mkCall "candidature" "findUnique" [id])
                          (λ db, candidature db !! id) in
    match candidature with
    | None => throw (NotFoundException "Candidature not found")
    | Some candidature =>
        let* psychologue :=
          findPsychologue (AssignPsychologueDto.psychologueId dto) in
        let* assignmentDate := now in
        transaction
          (do* (if bool_decide (Candidature.status candidature
                                = CandidatureStatus.pending) then
                  logTransition id (Some (Candidature.status candidature))
                    CandidatureStatus.assigned assignedBy
                    ("Assigned to " +:+ User.firstName psychologue +:+ " "
                     +:+ User.lastName psychologue)
                else ret ()) in
           mutate (mkCall "candidature" "update" [id])
             (updateCandidature id
                (λ c, Candidature.mk
                   (Candidature.jobApplicationId c)
                   (Some (AssignPsychologueDto.psychologueId dto))
                   (Some assignedBy)
                   (Candidature.dpNumber c)
                   (if bool_decide (Candidature.status candidature
                                    = CandidatureStatus.pending)
                    then CandidatureStatus.assigned
                    else Candidature.status candidature)
                   (Candidature.assignedLogicalTestId c)
                   (Candidature.assignedPersonalityTestId c)
                   (Candidature.assignedOptionalLogicalTestId c)
                   (Some assignmentDate)
                   (Candidature.examDate c)
                   (Candidature.decision c)
                   (Candidature.decisionDate c)
                   (Candidature.decisionBy c)
                   (Candidature.decisionComments c)
                   (Candidature.previousCandidatureId c)
                   (Candidature.isReevaluation c))))
    end.

Definition assignTests (id : string) (dto : AssignTestsDto.t) (assignedBy : string)
    : M Db (string * Candidature.t) :=
  let* candidature := query (mkCall "candidature" "findUnique" [id])
                        (λ db, candidature db !! id) in
  match candidature with
  | None => throw (NotFoundException "Candidature not found")
  | Some candidature =>
      if negb (bool_decide (Candidature.status candidature
                              ∈ [CandidatureStatus.pending;
                                 CandidatureStatus.assigned])) then
        throw (BadRequestException
                 "Tests can only be assigned to pending or assigned candidatures")
      else
        let* logicalTest_ :=
          query (mkCall "logicalTest" "findUnique" [AssignTestsDto.logicalTestId dto])
            (λ db, logicalTest db !! AssignTestsDto.logicalTestId dto) in
        match logicalTest_ with
        | None => throw (NotFoundException "Logical test not found")
        | Some _ =>
            do* ifTruthy (AssignTestsDto.optionalLogicalTestId dto)
                  (λ oid,
                     let* optionalTest :=
                       query (mkCall "logicalTest" "findUnique" [oid])
                         (λ db, logicalTest db !! oid) in
                     match optionalTest with
                     | None => throw (NotFoundException
                                        "Optional logical test not found")
                     | Some _ => ret ()
                     end)
                  (ret ()) in
            let* personalityTestId :=
              if bool_decide (AssignTestsDto.includePersonalityTest dto ≠ Some false)
              then
                let* personalityTest_ :=
                  query (mkCall "personalityTest" "findFirst" ["isActive"])
                    (λ db, find PersonalityTest.isActive (personalityTest db)) in
                ret (PersonalityTest.id <$> personalityTest_)
              else ret None in
            let newStatus :=
              if truthy (Candidature.assignedPsychologueId candidature)
              then CandidatureStatus.assigned
              else CandidatureStatus.assigned in
            transaction
              (do* (if bool_decide (Candidature.status candidature ≠ newStatus)
                    then
                      logTransition id (Some (Candidature.status candidature))
                        newStatus assignedBy "Tests assigned"
                    else ret ()) in
               mutate (mkCall "candidature" "update" [id])
                 (updateCandidature id
                    (λ c, Candidature.mk
                       (Candidature.jobApplicationId c)
                       (Candidature.assignedPsychologueId c)
                       (Candidature.assignedBy c)
                       (Candidature.dpNumber c)
                       newStatus
                       (Some (AssignTestsDto.logicalTestId dto))
                       (match personalityTestId with
                        | Some pid => Some pid
                        | None => Candidature.assignedPersonalityTestId c
                        end)
                       (match AssignTestsDto.optionalLogicalTestId dto with
                        | Some oid => Some oid
                        | None => Candidature.assignedOptionalLogicalTestId c
                        end)
                       (Candidature.assignmentDate c)
                       (if truthy (AssignTestsDto.examDate dto)
                        then AssignTestsDto.examDate dto
                        else Candidature.examDate candidature)
                       (Candidature.decision c)
                       (Candidature.decisionDate c)
                       (Candidature.decisionBy c)
                       (Candidature.decisionComments c)
                       (Candidature.previousCandidatureId c)
                       (Candidature.isReevaluation c))))
        end
  end.

Definition makeDecision (id : string) (dto : MakeDecisionDto.t) (decidedBy : string)
    : M Db (string * Candidature.t) :=
  let* candidature := query (mkCall "candidature" "findUnique" [id])
                        (λ db, candidature db !! id) in
  match candidature with
  | None => throw (NotFoundException "Candidature not found")
  | Some candidature =>
      if negb (bool_decide (Candidature.status candidature
                              ∈ [CandidatureStatus.completed;
                                 CandidatureStatus.in_review])) then
        throw (BadRequestException
                 "Decision can only be made on completed or in-review candidatures")
      else
        let* decisionDate := now in
        transaction
          (do* logTransition id (Some (Candidature.status candidature))
                 CandidatureStatus.evaluated decidedBy
                 ("Decision: " +:+ decisionName (MakeDecisionDto.decision dto)
                  +:+ ifTruthy (MakeDecisionDto.comments dto)
                        (λ s, " - " +:+ s) "") in
           mutate (mkCall "candidature" "update" [id])
             (updateCandidature id
                (λ c, Candidature.mk
                   (Candidature.jobApplicationId c)
                   (Candidature.assignedPsychologueId c)
                   (Candidature.assignedBy c)
                   (Candidature.dpNumber c)
                   CandidatureStatus.evaluated
                   (Candidature.assignedLogicalTestId c)
                   (Candidature.assignedPersonalityTestId c)
                   (Candidature.assignedOptionalLogicalTestId c)
                   (Candidature.assignmentDate c)
                   (Candidature.examDate c)
                   (Some (MakeDecisionDto.decision dto))
                   (Some decisionDate)
                   (Some decidedBy)
                   (match MakeDecisionDto.comments dto with
                    | Some s => Some s
                    | None => Candidature.decisionComments c
                    end)
                   (Candidature.previousCandidatureId c)
                   (Candidature.isReevaluation c))))
  end.

Definition archive (id : string) (archivedBy : string)
    : M Db (string * Candidature.t) :=
  let* candidature := query (mkCall "candidature" "findUnique" [id])
                        (λ db, candidature db !! id) in
  match candidature with
  | None => throw (NotFoundException "Candidature not found")
  | Some candidature =>
      if bool_decide (Candidature.status candidature
                      ≠ CandidatureStatus.evaluated) then
        throw (BadRequestException "Only evaluated candidatures can be archived")
      else
        transaction
          (do* logTransition id (Some (Candidature.status candidature))
                 CandidatureStatus.archived archivedBy "Archived" in
           mutate (mkCall "candidature" "update" [id])
             (updateCandidature id
                (λ c, Candidature.mk
                   (Candidature.jobApplicationId c)
                   (Candidature.assignedPsychologueId c)
                   (Candidature.assignedBy c)
                   (Candidature.dpNumber c)
                   CandidatureStatus.archived
                   (Candidature.assignedLogicalTestId c)
                   (Candidature.assignedPersonalityTestId c)
                   (Candidature.assignedOptionalLogicalTestId c)
                   (Candidature.assignmentDate c)
                   (Candidature.examDate c)
                   (Candidature.decision c)
                   (Candidature.decisionDate c)
                   (Candidature.decisionBy c)
                   (Candidature.decisionComments c)
                   (Candidature.previousCandidatureId c)
                   (Candidature.isReevaluation c))))
  end.

(** The closure of [getDashboard] that turns the rows of a
    [groupBy({ by: ['status'], _count: true })] into the counts object:
    [counts[key] = r._count; counts.total += r._count] for every row. *)
Definition transformCounts (raw : list (CandidatureStatus.t * nat))
    : DashboardCounts.t :=
  foldl (λ counts r,
           let n := r.2 in
           let total := (DashboardCounts.total counts + n)%nat in
           match r.1 with
           | CandidatureStatus.pending =>
               DashboardCounts.mk n (DashboardCounts.assigned counts)
                 (DashboardCounts.inProgress counts)
                 (DashboardCounts.completed counts)
                 (DashboardCounts.inReview counts)
                 (DashboardCounts.evaluated counts)
                 (DashboardCounts.archived counts) total
           | CandidatureStatus.assigned =>
               DashboardCounts.mk (DashboardCounts.pending counts) n
                 (DashboardCounts.inProgress counts)
                 (DashboardCounts.completed counts)
                 (DashboardCounts.inReview counts)
                 (DashboardCounts.evaluated counts)
                 (DashboardCounts.archived counts) total
           | CandidatureStatus.in_progress =>
               DashboardCounts.mk (DashboardCounts.pending counts)
                 (DashboardCounts.assigned counts) n
                 (DashboardCounts.completed counts)
                 (DashboardCounts.inReview counts)
                 (DashboardCounts.evaluated counts)
                 (DashboardCounts.archived counts) total
           | CandidatureStatus.completed =>
               DashboardCounts.mk (DashboardCounts.pending counts)
                 (DashboardCounts.assigned counts)
                 (DashboardCounts.inProgress counts) n
                 (DashboardCounts.inReview counts)
                 (DashboardCounts.evaluated counts)
                 (DashboardCounts.archived counts) total
           | CandidatureStatus.in_review =>
               DashboardCounts.mk (DashboardCounts.pending counts)
                 (DashboardCounts.assigned counts)
                 (DashboardCounts.inProgress counts)
                 (DashboardCounts.completed counts) n
                 (DashboardCounts.evaluated counts)
                 (DashboardCounts.archived counts) total
           | CandidatureStatus.evaluated =>
               DashboardCounts.mk (DashboardCounts.pending counts)
                 (DashboardCounts.assigned counts)
                 (DashboardCounts.inProgress counts)
                 (DashboardCounts.completed counts)
                 (DashboardCounts.inReview counts) n
                 (DashboardCounts.archived counts) total
           | CandidatureStatus.archived =>
               DashboardCounts.mk (DashboardCounts.pending counts)
                 (DashboardCounts.assigned counts)
                 (DashboardCounts.inProgress counts)
                 (DashboardCounts.completed counts)
                 (DashboardCounts.inReview counts)
                 (DashboardCounts.evaluated counts) n total
           end)
    (DashboardCounts.mk 0 0 0 0 0 0 0 0) raw.

Definition updateStatus (id : string) (newStatus : CandidatureStatus.t)
    (userId : string) (reason : option string) : M Db (string * Candidature.t) :=
  let* candidature := query (mkCall "candidature" "findUnique" [id])
                        (λ db, candidature db !! id) in
  match candidature with
  | None => throw (NotFoundException "Candidature not found")
  | Some candidature =>
      transaction
        (let* at_ := now in
         do* mutate (mkCall "candidatureStateTransition" "create" [id])
               (createTransition
                  (CandidatureStateTransition.mk id
                     (Some (Candidature.status candidature)) newStatus
                     userId at_ reason)) in
         mutate (mkCall "candidature" "update" [id])
           (updateCandidature id
              (λ c, Candidature.mk
                 (Candidature.jobApplicationId c)
                 (Candidature.assignedPsychologueId c)
                 (Candidature.assignedBy c)
                 (Candidature.dpNumber c)
                 newStatus
                 (Candidature.assignedLogicalTestId c)
                 (Candidature.assignedPersonalityTestId c)
                 (Candidature.assignedOptionalLogicalTestId c)
                 (Candidature.assignmentDate c)
                 (Candidature.examDate c)
                 (Candidature.decision c)
                 (Candidature.decisionDate c)
                 (Candidature.decisionBy c)
                 (Candidature.decisionComments c)
                 (Candidature.previousCandidatureId c)
                 (Candidature.isReevaluation c))))
  end.

End CandidaturesService.

(** * Specification vocabulary

    The predicates and expected results the properties below are stated
    with, and the concrete stores they are tried on. *)

(** ** Languages and translations *)

(** [requested] names an active language of the registry. *)
Definition activeLanguage (requested : string) (db : Db) : Prop :=
  ∃ l, l ∈ language db ∧ Language.code l = requested
       ∧ Language.isActive l = true.

(** Some language of the registry is flagged default. *)
Definition hasDefaultLanguage (db : Db) : Prop :=
  ∃ d, d ∈ language db ∧ Language.isDefault d = true.

(** The calls made on one model delegate, in order. *)
Definition callsOn (m : string) (cs : list Call) : list Call :=
  filter (λ c, model c = m) cs.

(** C7 as it is worded, with "the default language" being the one the
    registry designates: the result is null exactly when the parent has a
    translation neither in the resolved language nor in the registry's
    default language. *)
Definition null_iff_neither_resolved_nor_registry_default : Prop :=
  ∀ (testId requestedLang : string) (w : World Db) lang registryDefault translation,
    (TranslationsService.resolveLanguageCode requestedLang w).2 = Returned lang →
    (TranslationsService.getDefaultLanguageCode w).2 = Returned registryDefault →
    (TranslationsService.getTestTranslation testId requestedLang w).2
      = Returned translation →
    (translation = None ↔
       logicalTestTranslation (store w) !! (testId, lang) = None
       ∧ logicalTestTranslation (store w) !! (testId, registryDefault) = None).

(** A registry whose default language is English, with German active too,
    and a test that has an English text only. *)
Definition db_english_default : Db :=
  mkDb [Language.mk "en" "English" true true;
        Language.mk "de" "Deutsch" true false]
       ∅
       {[ ("test-1", "en") :=
            LogicalTestTranslation.mk "test-1" "en" "D-70 Test" None
              "Complete the dominos" ]}
       ∅ ∅ [] ∅ [] ∅ ∅ ∅ ∅ ∅ [].

(** A registry with the default "fr", and a test whose only text is in
    English. *)
Definition db_english_only : Db :=
  mkDb [Language.mk "fr" "Francais" true true;
        Language.mk "en" "English" true false]
       ∅
       {[ ("test-1", "en") :=
            LogicalTestTranslation.mk "test-1" "en" "D-70 Test" None
              "Complete the dominos" ]}
       ∅ ∅ [] ∅ [] ∅ ∅ ∅ ∅ ∅ [].

(** The same test with a French and an English text. *)
Definition db_french_and_english : Db :=
  mkDb [Language.mk "fr" "Francais" true true;
        Language.mk "en" "English" true false]
       ∅
       {[ ("test-1", "fr") :=
            LogicalTestTranslation.mk "test-1" "fr" "Test D-70" None
              "Completez les dominos";
          ("test-1", "en") :=
            LogicalTestTranslation.mk "test-1" "en" "D-70 Test" None
              "Complete the dominos" ]}
       ∅ ∅ [] ∅ [] ∅ ∅ ∅ ∅ ∅ [].

(** Two deletions in a row, the second on the world the first one left. *)
Definition deleteBoth (testId lang1 lang2 : string)
    : M Db LogicalTestTranslation.t :=
  do* TranslationsService.deleteTestTranslation testId lang1 in
  TranslationsService.deleteTestTranslation testId lang2.

(** ** Score classification ranges *)

(** What validation looks at: display order, lower and upper score. *)
Definition Range : Type := Z * Z * Z.
Definition displayOrderOf (r : Range) : Z := r.1.1.
Definition minScoreOf (r : Range) : Z := r.1.2.
Definition maxScoreOf (r : Range) : Z := r.2.

Definition itemRange (c : ScoreClassificationItemDto.t) : Range :=
  (ScoreClassificationItemDto.displayOrder c,
   ScoreClassificationItemDto.minScore c,
   ScoreClassificationItemDto.maxScore c).

Definition rowRange (r : ScoreClassification.t) : Range :=
  (ScoreClassification.displayOrder r,
   ScoreClassification.minScore r,
   ScoreClassification.maxScore r).

(** A list of ranges as the validation wants it: read in this order, the
    display orders do not decrease, every range has [min ≤ max], and each
    range starts strictly above the end of the one before it. *)
Definition validRanges (l : list Range) : Prop :=
  Sorted (λ p n, displayOrderOf p ≤ displayOrderOf n)%Z l
  ∧ Forall (λ r, minScoreOf r ≤ maxScoreOf r)%Z l
  ∧ Sorted (λ p n, maxScoreOf p < minScoreOf n)%Z l.

(** The stored row [r] holds what the input item [c] asked for, and every
    translation of [c] is stored under the row's id. *)
Definition storesItem (testId : string) (db : Db)
    (r : ScoreClassification.t) (c : ScoreClassificationItemDto.t) : Prop :=
  ScoreClassification.testId r = testId
  ∧ rowRange r = itemRange c
  ∧ ScoreClassification.colorCode r = ScoreClassificationItemDto.colorCode c
  ∧ ∀ t, t ∈ ScoreClassificationItemDto.translations c →
      scoreClassificationTranslation db
        !! (ScoreClassification.id r, ScoreClassificationTranslationDto.languageCode t)
      = Some (ScoreClassificationTranslation.mk (ScoreClassification.id r)
                (ScoreClassificationTranslationDto.languageCode t)
                (ScoreClassificationTranslationDto.label t)
                (ScoreClassificationTranslationDto.description t)).

(** The two ways the claim says a set can be wrong, on the sorted items. *)
Definition someRangeInverted (sorted : list ScoreClassificationItemDto.t) : Prop :=
  ∃ c, c ∈ sorted
       ∧ (ScoreClassificationItemDto.minScore c
          > ScoreClassificationItemDto.maxScore c)%Z.

Definition someAdjacentOverlap (sorted : list ScoreClassificationItemDto.t) : Prop :=
  ∃ i prev next,
    sorted !! i = Some prev ∧ sorted !! Datatypes.S i = Some next
    ∧ (ScoreClassificationItemDto.minScore next
       ≤ ScoreClassificationItemDto.maxScore prev)%Z.

(** ** Candidatures *)

(** The row [archive] leaves behind. *)
Definition archivedRow (c : Candidature.t) : Candidature.t :=
  Candidature.mk
    (Candidature.jobApplicationId c) (Candidature.assignedPsychologueId c)
    (Candidature.assignedBy c) (Candidature.dpNumber c)
    CandidatureStatus.archived
    (Candidature.assignedLogicalTestId c) (Candidature.assignedPersonalityTestId c)
    (Candidature.assignedOptionalLogicalTestId c) (Candidature.assignmentDate c)
    (Candidature.examDate c) (Candidature.decision c) (Candidature.decisionDate c)
    (Candidature.decisionBy c) (Candidature.decisionComments c)
    (Candidature.previousCandidatureId c) (Candidature.isReevaluation c).

(** The row [create] inserts when no psychologue is assigned on the spot. *)
Definition pendingRow (dto : CreateCandidatureDto.t) : Candidature.t :=
  Candidature.mk (CreateCandidatureDto.jobApplicationId dto)
    (CreateCandidatureDto.assignedPsychologueId dto) None
    (CreateCandidatureDto.dpNumber dto) CandidatureStatus.pending
    None None None None
    (if truthy (CreateCandidatureDto.examDate dto)
     then CreateCandidatureDto.examDate dto else None)
    None None None None None false.

(** The companion personality test [assignTests] picks. *)
Definition pickPersonalityTest (dto : AssignTestsDto.t) (s : Db) : option string :=
  if bool_decide (AssignTestsDto.includePersonalityTest dto ≠ Some false)
  then PersonalityTest.id <$> find PersonalityTest.isActive (personalityTest s)
  else None.

(** The row [assignTests] writes over [c]. *)
Definition testsAssignedRow (dto : AssignTestsDto.t) (personalityTestId : option string)
    (c : Candidature.t) : Candidature.t :=
  Candidature.mk
    (Candidature.jobApplicationId c) (Candidature.assignedPsychologueId c)
    (Candidature.assignedBy c) (Candidature.dpNumber c)
    CandidatureStatus.assigned
    (Some (AssignTestsDto.logicalTestId dto))
    (match personalityTestId with
     | Some pid => Some pid
     | None => Candidature.assignedPersonalityTestId c
     end)
    (match AssignTestsDto.optionalLogicalTestId dto with
     | Some oid => Some oid
     | None => Candidature.assignedOptionalLogicalTestId c
     end)
    (Candidature.assignmentDate c)
    (if truthy (AssignTestsDto.examDate dto)
     then AssignTestsDto.examDate dto else Candidature.examDate c)
    (Candidature.decision c) (Candidature.decisionDate c)
    (Candidature.decisionBy c) (Candidature.decisionComments c)
    (Candidature.previousCandidatureId c) (Candidature.isReevaluation c).

(** The entries [assignTests] appends to the log when it starts from [c]. *)
Definition testsAssignedLog (id assignedBy at_ : string) (c : Candidature.t)
    : list CandidatureStateTransition.t :=
  if bool_decide (Candidature.status c ≠ CandidatureStatus.assigned)
  then [CandidatureStateTransition.mk id (Some (Candidature.status c))
          CandidatureStatus.assigned assignedBy at_ (Some "Tests assigned")]
  else [].

(** The store [assignTests] commits. *)
Definition testsAssignedStore (id : string) (dto : AssignTestsDto.t)
    (assignedBy at_ : string) (c : Candidature.t) (s : Db) : Db :=
  with_candidature
    (<[id := testsAssignedRow dto (pickPersonalityTest dto s) c]> (candidature s))
    (with_candidatureStateTransition
       (candidatureStateTransition s ++ testsAssignedLog id assignedBy at_ c) s).

(** The checks [assignTests] makes before it writes. *)
Definition assignTestsAccepts (id : string) (dto : AssignTestsDto.t) (s : Db)
    (c : Candidature.t) : Prop :=
  candidature s !! id = Some c
  ∧ Candidature.status c ∈ [CandidatureStatus.pending; CandidatureStatus.assigned]
  ∧ is_Some (logicalTest s !! AssignTestsDto.logicalTestId dto)
  ∧ ifTruthy (AssignTestsDto.optionalLogicalTestId dto)
      (λ oid, is_Some (logicalTest s !! oid)) True.

(** The row [update] writes over [c]. *)
Definition updatedRow (dto : UpdateCandidatureDto.t) (userId : string)
    (c : Candidature.t) : Candidature.t :=
  Candidature.mk
    (Candidature.jobApplicationId c)
    (match UpdateCandidatureDto.assignedPsychologueId dto with
     | Some pid => if truthy (Some pid) then Some pid else None
     | None => Candidature.assignedPsychologueId c
     end)
    (match UpdateCandidatureDto.assignedPsychologueId dto with
     | Some _ => Some userId
     | None => Candidature.assignedBy c
     end)
    (match UpdateCandidatureDto.dpNumber dto with
     | Some n => Some n
     | None => Candidature.dpNumber c
     end)
    (Candidature.status c)
    (Candidature.assignedLogicalTestId c) (Candidature.assignedPersonalityTestId c)
    (Candidature.assignedOptionalLogicalTestId c) (Candidature.assignmentDate c)
    (match UpdateCandidatureDto.examDate dto with
     | Some d => if truthy (Some d) then Some d else None
     | None => Candidature.examDate c
     end)
    (Candidature.decision c) (Candidature.decisionDate c)
    (Candidature.decisionBy c) (Candidature.decisionComments c)
    (Candidature.previousCandidatureId c) (Candidature.isReevaluation c).

(** [c'] is [c] up to dpNumber, examDate, the assigned psychologue and the
    assigner. *)
Definition sameOutsideAssignment (c c' : Candidature.t) : Prop :=
  Candidature.jobApplicationId c' = Candidature.jobApplicationId c
  ∧ Candidature.status c' = Candidature.status c
  ∧ Candidature.assignedLogicalTestId c' = Candidature.assignedLogicalTestId c
  ∧ Candidature.assignedPersonalityTestId c' = Candidature.assignedPersonalityTestId c
  ∧ Candidature.assignedOptionalLogicalTestId c'
      = Candidature.assignedOptionalLogicalTestId c
  ∧ Candidature.assignmentDate c' = Candidature.assignmentDate c
  ∧ Candidature.decision c' = Candidature.decision c
  ∧ Candidature.decisionDate c' = Candidature.decisionDate c
  ∧ Candidature.decisionBy c' = Candidature.decisionBy c
  ∧ Candidature.decisionComments c' = Candidature.decisionComments c
  ∧ Candidature.previousCandidatureId c' = Candidature.previousCandidatureId c
  ∧ Candidature.isReevaluation c' = Candidature.isReevaluation c.

(** The log entries that belong to a candidature. *)
Definition transitionsOf (candidatureId : string) (s : Db)
    : list CandidatureStateTransition.t :=
  filter (λ tr, CandidatureStateTransition.candidatureId tr = candidatureId)
    (candidatureStateTransition s).

(** Every log entry belongs to a stored candidature (the foreign key of
    the log table). *)
Definition logRefersToCandidatures (s : Db) : Prop :=
  ∀ tr, tr ∈ candidatureStateTransition s →
        is_Some (candidature s !! CandidatureStateTransition.candidatureId tr).

(** The row [createManual] inserts for job application [jaId] when a
    psychologue is assigned on the spot. *)
Definition manualAssignedRow (dto : CreateManualCandidatureDto.t)
    (createdBy jaId : string) : Candidature.t :=
  Candidature.mk jaId (CreateManualCandidatureDto.assignedPsychologueId dto)
    (Some createdBy) (CreateManualCandidatureDto.dpNumber dto)
    CandidatureStatus.assigned
    None None None None None None None None None
    (CreateManualCandidatureDto.previousCandidatureId dto)
    (truthy (CreateManualCandidatureDto.previousCandidatureId dto)).

(** The reference checks of [createManual]. *)
Definition createManualAccepts (dto : CreateManualCandidatureDto.t) (s : Db) : Prop :=
  (∃ u, user s !! CreateManualCandidatureDto.candidateId dto = Some u
        ∧ User.role u = UserRole.candidate)
  ∧ is_Some (site s !! CreateManualCandidatureDto.siteId dto)
  ∧ is_Some (department s !! CreateManualCandidatureDto.departmentId dto)
  ∧ ifTruthy (CreateManualCandidatureDto.previousCandidatureId dto)
      (λ id, is_Some (candidature s !! id)) True
  ∧ ifTruthy (CreateManualCandidatureDto.assignedPsychologueId dto)
      (λ id, ∃ u, user s !! id = Some u ∧ User.role u = UserRole.psychologue)
      True.

(** The row [create] inserts when a psychologue is assigned on the spot. *)
Definition assignedRow (dto : CreateCandidatureDto.t) (assignedBy : string)
    : Candidature.t :=
  Candidature.mk (CreateCandidatureDto.jobApplicationId dto)
    (CreateCandidatureDto.assignedPsychologueId dto) (Some assignedBy)
    (CreateCandidatureDto.dpNumber dto) CandidatureStatus.assigned
    None None None None
    (if truthy (CreateCandidatureDto.examDate dto)
     then CreateCandidatureDto.examDate dto else None)
    None None None None None false.

(** The checks of [create] when a psychologue is assigned on the spot. *)
Definition createAssignedAccepts (dto : CreateCandidatureDto.t) (s : Db) : Prop :=
  (∃ ja, jobApplication s !! CreateCandidatureDto.jobApplicationId dto = Some ja
         ∧ JobApplication.status ja = ApplicationStatus.approved)
  ∧ candidatureOf (CreateCandidatureDto.jobApplicationId dto) (candidature s) = None
  ∧ truthy (CreateCandidatureDto.assignedPsychologueId dto) = true
  ∧ ifTruthy (CreateCandidatureDto.assignedPsychologueId dto)
      (λ id, ∃ u, user s !! id = Some u ∧ User.role u = UserRole.psychologue)
      True.

(** Between [s] and [s'] nothing was persisted, or the row of candidature
    [id] was rewritten together with the log entry its status change calls
    for: no entry if the status is the same, exactly the entry from the old
    status to the new one if it differs. *)
Definition statusAndLogPaired (id : string) (s s' : Db) : Prop :=
  s' = s
  ∨ ∃ c c',
      candidature s !! id = Some c
      ∧ candidature s' = <[id := c']> (candidature s)
      ∧ ((Candidature.status c' = Candidature.status c
          ∧ candidatureStateTransition s' = candidatureStateTransition s)
         ∨ (Candidature.status c' ≠ Candidature.status c
            ∧ ∃ transitionedBy transitionedAt reason,
                candidatureStateTransition s'
                = candidatureStateTransition s
                  ++ [CandidatureStateTransition.mk id
                        (Some (Candidature.status c)) (Candidature.status c')
                        transitionedBy transitionedAt reason])).

(** ** A worked store *)

Definition noon : string := "2026-02-10T12:00:00Z".

Definition row_pending : Candidature.t :=
  Candidature.mk "ja-8" None None (Some "DP-2026-008") CandidatureStatus.pending
    None None None None None None None None None None false.

Definition row_evaluated : Candidature.t :=
  Candidature.mk "ja-9" (Some "psy-1") (Some "admin-1") (Some "DP-2026-009")
    CandidatureStatus.evaluated (Some "test-1") (Some "pt-1") None
    (Some "2026-01-05T08:00:00Z") (Some "2026-01-20T09:00:00Z")
    (Some DecisionType.favorable) (Some "2026-02-01T10:00:00Z") (Some "psy-1")
    None None false.

(** A small recruitment store: an administrator, a psychologue and a
    candidate; one approved and one pending job application without a
    candidature; a pending and an evaluated candidature. *)
Definition db_recruitment : Db :=
  mkDb [Language.mk "fr" "Francais" true true;
        Language.mk "en" "English" true false]
       {[ "test-1" := LogicalTest.mk "D_70" false true ]}
       ∅ ∅ ∅
       [ScoreClassification.mk "cls-1" "test-1" 1 0 20 None;
        ScoreClassification.mk "cls-2" "test-1" 2 21 44 None]
       {[ ("cls-1", "fr") := ScoreClassificationTranslation.mk "cls-1" "fr" "Faible" None;
          ("cls-2", "fr") := ScoreClassificationTranslation.mk "cls-2" "fr" "Bien" None ]}
       [PersonalityTest.mk "pt-0" false; PersonalityTest.mk "pt-1" true]
       {[ "admin-1" := User.mk "admin@example.org" "Amel" "Trabelsi" UserRole.admin;
          "psy-1" := User.mk "psy@example.org" "Sami" "Gharbi" UserRole.psychologue;
          "user-1" := User.mk "cand@example.org" "Nour" "Ayari" UserRole.candidate ]}
       {[ "site-1" := "Tunis" ]}
       {[ "dep-1" := "Production" ]}
       {[ "ja-1" := JobApplication.mk "user-1" "site-1" "dep-1" "Operator"
                      ApplicationStatus.approved (Some "admin-1")
                      (Some "2026-01-02T08:00:00Z");
          "ja-2" := JobApplication.mk "user-1" "site-1" "dep-1" "Technician"
                      ApplicationStatus.pending None None ]}
       {[ "cand-8" := row_pending; "cand-9" := row_evaluated ]}
       [].

Definition item (displayOrder minScore maxScore : Z) (label : string)
    : ScoreClassificationItemDto.t :=
  ScoreClassificationItemDto.mk None displayOrder minScore maxScore None
    [ScoreClassificationTranslationDto.mk "fr" label None].

Definition application_approved : JobApplication.t :=
  JobApplication.mk "user-1" "site-1" "dep-1" "Operator"
    ApplicationStatus.approved (Some "admin-1") (Some "2026-01-02T08:00:00Z").

Definition application_pending : JobApplication.t :=
  JobApplication.mk "user-1" "site-1" "dep-1" "Technician"
    ApplicationStatus.pending None None.

(** ** The language registry *)

(** The registry holds one row per code (its primary key). *)
Definition uniqueLanguageCodes (db : Db) : Prop :=
  NoDup (Language.code <$> language db).

(** The row the registry holds for a code. *)
Definition languageRow (code : string) (db : Db) : option Language.t :=
  find (λ l, bool_decide (Language.code l = code)) (language db).

(** Every language flagged default is active. *)
Definition defaultLanguagesActive (db : Db) : Prop :=
  ∀ d, d ∈ language db → Language.isDefault d = true → Language.isActive d = true.

(** A registry with an inactive language. *)
Definition db_three_languages : Db :=
  mkDb [Language.mk "fr" "Francais" true true;
        Language.mk "en" "English" true false;
        Language.mk "de" "Deutsch" false false]
       ∅ ∅ ∅ ∅ [] ∅ [] ∅ ∅ ∅ ∅ ∅ [].

(** ** Translations of a test and batches *)

(** The row [upsertTestTranslations] stores for the input [t] when the
    table held [table] before: the texts of [t], with the description of the
    row it replaces when [t] has none. *)
Definition upsertedTestTranslation (testId : string)
    (table : gmap (string * string) LogicalTestTranslation.t)
    (t : LogicalTestTranslationDto.t) : LogicalTestTranslation.t :=
  LogicalTestTranslation.mk testId
    (LogicalTestTranslationDto.languageCode t)
    (LogicalTestTranslationDto.name t)
    (match LogicalTestTranslationDto.description t with
     | Some d => Some d
     | None =>
         table !! (testId, LogicalTestTranslationDto.languageCode t)
           ≫= LogicalTestTranslation.description
     end)
    (LogicalTestTranslationDto.instructions t).

(** Every row of a translation table sits under the key made of its own
    parent id and language code. *)
Definition keyedByColumns {T} (parentId languageCode : T → string)
    (table : gmap (string * string) T) : Prop :=
  ∀ key row, table !! key = Some row → key = (parentId row, languageCode row).

(** The table after the upserts of a batch, in order. *)
Definition upsertAll (testId : string) (ts : list LogicalTestTranslationDto.t)
    (table : gmap (string * string) LogicalTestTranslation.t)
    : gmap (string * string) LogicalTestTranslation.t :=
  foldl (λ table t,
           <[(testId, LogicalTestTranslationDto.languageCode t)
             := upsertedTestTranslation testId table t]> table)
    table ts.

(** The rows the upserts of a batch answer with, in order. *)
Fixpoint upsertRows (testId : string) (ts : list LogicalTestTranslationDto.t)
    (table : gmap (string * string) LogicalTestTranslation.t)
    : list LogicalTestTranslation.t :=
  match ts with
  | [] => []
  | t :: ts' =>
      upsertedTestTranslation testId table t
      :: upsertRows testId ts'
           (<[(testId, LogicalTestTranslationDto.languageCode t)
              := upsertedTestTranslation testId table t]> table)
  end.

(** A store with the texts of three questions: "q-1" in French and
    English, "q-2" in French only, "q-3" in English only. *)
Definition db_questions : Db :=
  mkDb [Language.mk "fr" "Francais" true true;
        Language.mk "en" "English" true false]
       ∅ ∅
       {[ ("q-1", "fr") := LogicalQuestionTranslation.mk "q-1" "fr" None
                             "Completez le domino" [];
          ("q-1", "en") := LogicalQuestionTranslation.mk "q-1" "en" None
                             "Complete the domino" [];
          ("q-2", "fr") := LogicalQuestionTranslation.mk "q-2" "fr" None
                             "Choisissez la figure" [];
          ("q-3", "en") := LogicalQuestionTranslation.mk "q-3" "en" None
                             "Pick the odd one out" [] ]}
       ∅ [] ∅ [] ∅ ∅ ∅ ∅ ∅ [].

(** The texts of two propositions: "p-1" in French and English, "p-2" in
    French only. *)
Definition db_propositions : Db :=
  mkDb [Language.mk "fr" "Francais" true true;
        Language.mk "en" "English" true false]
       ∅ ∅ ∅
       {[ ("p-1", "fr") := McqPropositionTranslation.mk "p-1" "fr" "Vrai";
          ("p-1", "en") := McqPropositionTranslation.mk "p-1" "en" "True";
          ("p-2", "fr") := McqPropositionTranslation.mk "p-2" "fr" "Faux" ]}
       [] ∅ [] ∅ ∅ ∅ ∅ ∅ [].

(** The loop of [toTranslationMap], continued from a map that is already
    partly filled. *)
Definition fillTranslationMap {T} (parentId languageCode : T → string)
    (lang : string) (translations : list T) (start : gmap string T)
    : gmap string T :=
  foldl (λ (translationMap : gmap string T) t,
           if negb (bool_decide (is_Some (translationMap !! parentId t)))
              || bool_decide (languageCode t = lang)
           then <[parentId t := t]> translationMap
           else translationMap)
    start translations.

(** ** Decisions, assignments and the lifecycle *)

(** The row [makeDecision] writes over [c]. *)
Definition decidedRow (dto : MakeDecisionDto.t) (decidedBy decisionDate : string)
    (c : Candidature.t) : Candidature.t :=
  Candidature.mk
    (Candidature.jobApplicationId c) (Candidature.assignedPsychologueId c)
    (Candidature.assignedBy c) (Candidature.dpNumber c)
    CandidatureStatus.evaluated
    (Candidature.assignedLogicalTestId c) (Candidature.assignedPersonalityTestId c)
    (Candidature.assignedOptionalLogicalTestId c) (Candidature.assignmentDate c)
    (Candidature.examDate c)
    (Some (MakeDecisionDto.decision dto)) (Some decisionDate) (Some decidedBy)
    (match MakeDecisionDto.comments dto with
     | Some s => Some s
     | None => Candidature.decisionComments c
     end)
    (Candidature.previousCandidatureId c) (Candidature.isReevaluation c).

(** The reason [makeDecision] logs. *)
Definition decisionReason (dto : MakeDecisionDto.t) : string :=
  "Decision: " +:+ decisionName (MakeDecisionDto.decision dto)
  +:+ ifTruthy (MakeDecisionDto.comments dto) (λ s, " - " +:+ s) "".

(** The row [assignPsychologue] writes over [c]. *)
Definition psychologueAssignedRow (dto : AssignPsychologueDto.t)
    (assignedBy assignmentDate : string) (c : Candidature.t) : Candidature.t :=
  Candidature.mk
    (Candidature.jobApplicationId c)
    (Some (AssignPsychologueDto.psychologueId dto)) (Some assignedBy)
    (Candidature.dpNumber c)
    (if bool_decide (Candidature.status c = CandidatureStatus.pending)
     then CandidatureStatus.assigned else Candidature.status c)
    (Candidature.assignedLogicalTestId c) (Candidature.assignedPersonalityTestId c)
    (Candidature.assignedOptionalLogicalTestId c) (Some assignmentDate)
    (Candidature.examDate c) (Candidature.decision c) (Candidature.decisionDate c)
    (Candidature.decisionBy c) (Candidature.decisionComments c)
    (Candidature.previousCandidatureId c) (Candidature.isReevaluation c).

(** The entries [assignPsychologue] appends to the log when it starts from
    [c] and assigns the psychologue [u]. *)
Definition psychologueAssignedLog (id assignedBy at_ : string) (u : User.t)
    (c : Candidature.t) : list CandidatureStateTransition.t :=
  if bool_decide (Candidature.status c = CandidatureStatus.pending)
  then [CandidatureStateTransition.mk id (Some CandidatureStatus.pending)
          CandidatureStatus.assigned assignedBy at_
          (Some ("Assigned to " +:+ User.firstName u +:+ " " +:+ User.lastName u))]
  else [].

(** [c] with another status. *)
Definition withStatus (newStatus : CandidatureStatus.t) (c : Candidature.t)
    : Candidature.t :=
  Candidature.mk
    (Candidature.jobApplicationId c) (Candidature.assignedPsychologueId c)
    (Candidature.assignedBy c) (Candidature.dpNumber c)
    newStatus
    (Candidature.assignedLogicalTestId c) (Candidature.assignedPersonalityTestId c)
    (Candidature.assignedOptionalLogicalTestId c) (Candidature.assignmentDate c)
    (Candidature.examDate c) (Candidature.decision c) (Candidature.decisionDate c)
    (Candidature.decisionBy c) (Candidature.decisionComments c)
    (Candidature.previousCandidatureId c) (Candidature.isReevaluation c).

(** The store after candidature [id] got the row [c'] and the log grew by
    [entries]. *)
Definition rewritten (id : string) (c' : Candidature.t)
    (entries : list CandidatureStateTransition.t) (s : Db) : Db :=
  with_candidature (<[id := c']> (candidature s))
    (with_candidatureStateTransition (candidatureStateTransition s ++ entries) s).

(** The requests that go through the guarded methods of the service;
    [updateStatus] is not one of them. *)
Inductive Request : Type :=
| CreateRequest (dto : CreateCandidatureDto.t) (assignedBy : string)
| CreateManualRequest (dto : CreateManualCandidatureDto.t) (createdBy : string)
| UpdateRequest (id : string) (dto : UpdateCandidatureDto.t) (userId : string)
| AssignPsychologueRequest (id : string) (dto : AssignPsychologueDto.t)
    (assignedBy : string)
| AssignTestsRequest (id : string) (dto : AssignTestsDto.t) (assignedBy : string)
| MakeDecisionRequest (id : string) (dto : MakeDecisionDto.t) (decidedBy : string)
| ArchiveRequest (id : string) (archivedBy : string).

Definition serve (r : Request) : M Db (string * Candidature.t) :=
  match r with
  | CreateRequest dto assignedBy => CandidaturesService.create dto assignedBy
  | CreateManualRequest dto createdBy =>
      CandidaturesService.createManual dto createdBy
  | UpdateRequest id dto userId => CandidaturesService.update id dto userId
  | AssignPsychologueRequest id dto assignedBy =>
      CandidaturesService.assignPsychologue id dto assignedBy
  | AssignTestsRequest id dto assignedBy =>
      CandidaturesService.assignTests id dto assignedBy
  | MakeDecisionRequest id dto decidedBy =>
      CandidaturesService.makeDecision id dto decidedBy
  | ArchiveRequest id archivedBy => CandidaturesService.archive id archivedBy
  end.

(** Requests served one after the other, each on the world the one before
    left, whether it returned or threw. *)
Definition serveAll (rs : list Request) (w : World Db) : World Db :=
  foldl (λ w r, (serve r w).1) w rs.

(** The place of a status in the lifecycle. *)
Definition rank (st : CandidatureStatus.t) : nat :=
  match st with
  | CandidatureStatus.pending => 0
  | CandidatureStatus.assigned => 1
  | CandidatureStatus.in_progress => 2
  | CandidatureStatus.completed => 3
  | CandidatureStatus.in_review => 4
  | CandidatureStatus.evaluated => 5
  | CandidatureStatus.archived => 6
  end.

(** A log entry that records a move to a later status. *)
Definition forwardEntry (tr : CandidatureStateTransition.t) : Prop :=
  ∃ from, CandidatureStateTransition.fromStatus tr = Some from
          ∧ (rank from < rank (CandidatureStateTransition.toStatus tr))%nat.

(** From the tables [cands], [log] to [cands'], [log']: every candidature
    is still there, for the same job application and in the same or a
    later status, and the log has only grown, by forward entries. *)
Definition forwardOnlyTables (cands : gmap string Candidature.t)
    (log : list CandidatureStateTransition.t)
    (cands' : gmap string Candidature.t)
    (log' : list CandidatureStateTransition.t) : Prop :=
  (∀ id c, cands !! id = Some c →
     ∃ c', cands' !! id = Some c'
           ∧ Candidature.jobApplicationId c' = Candidature.jobApplicationId c
           ∧ (rank (Candidature.status c) ≤ rank (Candidature.status c'))%nat)
  ∧ ∃ entries, log' = log ++ entries ∧ Forall forwardEntry entries.

Definition forwardOnly (s s' : Db) : Prop :=
  forwardOnlyTables (candidature s) (candidatureStateTransition s)
    (candidature s') (candidatureStateTransition s').

(** The entry of a counts object for a status. *)
Definition countFor (counts : DashboardCounts.t) (st : CandidatureStatus.t) : nat :=
  match st with
  | CandidatureStatus.pending => DashboardCounts.pending counts
  | CandidatureStatus.assigned => DashboardCounts.assigned counts
  | CandidatureStatus.in_progress => DashboardCounts.inProgress counts
  | CandidatureStatus.completed => DashboardCounts.completed counts
  | CandidatureStatus.in_review => DashboardCounts.inReview counts
  | CandidatureStatus.evaluated => DashboardCounts.evaluated counts
  | CandidatureStatus.archived => DashboardCounts.archived counts
  end.

(** The number of rows in a status. *)
Definition countInStatus (st : CandidatureStatus.t) (rows : list Candidature.t)
    : nat :=
  length (filter (λ c, Candidature.status c = st) rows).

(** [raw] is an answer of [groupBy({ by: ['status'], _count: true })] over
    [rows]: one group per status that occurs, in any order, with the number
    of rows in it. *)
Definition groupedByStatus (rows : list Candidature.t)
    (raw : list (CandidatureStatus.t * nat)) : Prop :=
  NoDup raw.*1
  ∧ ∀ st n, (st, n) ∈ raw ↔ n = countInStatus st rows ∧ (0 < n)%nat.

(** ** Disjoint score ranges *)

(** A score lies in the range of an item. *)
Definition inRange (score : Z) (c : ScoreClassificationItemDto.t) : Prop :=
  (ScoreClassificationItemDto.minScore c ≤ score
   ≤ ScoreClassificationItemDto.maxScore c)%Z.

(** [p] is a proper range that ends before the proper range [n] starts. *)
Definition strictlyBelow (p n : Range) : Prop :=
  (minScoreOf p ≤ maxScoreOf p ∧ minScoreOf n ≤ maxScoreOf n
   ∧ maxScoreOf p < minScoreOf n)%Z.

(** * Properties *)

(** ** Language resolution *)

Section LanguageRegistry.
Import TranslationsService.

Lemma find_active_Some requested db l :
  find (λ l, bool_decide (Language.code l = requested) && Language.isActive l)
    (language db) = Some l →
  activeLanguage requested db.
Proof.
  intros Hfind. apply find_some in Hfind as [Hin Hl].
  apply andb_true_iff in Hl as [Hc Ha]. apply bool_decide_eq_true in Hc.
  exists l. by rewrite list_elem_of_In.
Qed.

Lemma find_active_None requested db :
  find (λ l, bool_decide (Language.code l = requested) && Language.isActive l)
    (language db) = None →
  ¬ activeLanguage requested db.
Proof.
  intros Hfind (l & Hin & Hc & Ha).
  apply list_elem_of_In in Hin.
  pose proof (find_none _ _ Hfind l Hin) as Hl. cbn in Hl.
  rewrite Ha, bool_decide_eq_true_2 in Hl; done.
Qed.

Lemma getDefaultLanguageCode_spec (w : World Db) :
  ∃ lang,
    getDefaultLanguageCode w
      = (record (mkCall "language" "findFirst" ["isDefault"]) w, Returned lang)
    ∧ ((∃ d, d ∈ language (store w) ∧ Language.isDefault d = true
             ∧ lang = Language.code d)
       ∨ ((∀ d, d ∈ language (store w) → Language.isDefault d = false)
          ∧ lang = DEFAULT_LANGUAGE_CODE)).
Proof.
  unfold getDefaultLanguageCode, bind, query, ret. cbn.
  destruct (find Language.isDefault (language (store w))) as [d|] eqn:Hfind.
  - exists (Language.code d). split; [done|]. left. exists d.
    apply find_some in Hfind as [Hin Hd]. by rewrite list_elem_of_In.
  - exists DEFAULT_LANGUAGE_CODE. split; [done|]. right. split; [|done].
    intros d Hin. apply list_elem_of_In in Hin.
    pose proof (find_none _ _ Hfind d Hin) as Hd. by destruct (Language.isDefault d).
Qed.

End LanguageRegistry.

(** C8.  [resolveLanguageCode] returns for every requested code and never
    throws, and it does not touch the store.  The code it returns is the
    requested one when that names an active language of the registry;
    otherwise it is the code of a language flagged default in the registry;
    and when the registry has no default language it is the hardcoded
    [DEFAULT_LANGUAGE_CODE]. *)
Theorem resolveLanguageCode_total_with_fallback (requestedLang : string) (w : World Db) :
  ∃ lang,
    (TranslationsService.resolveLanguageCode requestedLang w).2 = Returned lang
    ∧ store (TranslationsService.resolveLanguageCode requestedLang w).1 = store w
    ∧ (activeLanguage requestedLang (store w) → lang = requestedLang)
    ∧ (¬ activeLanguage requestedLang (store w) →
       (hasDefaultLanguage (store w) →
          ∃ d, d ∈ language (store w) ∧ Language.isDefault d = true
               ∧ lang = Language.code d)
       ∧ (¬ hasDefaultLanguage (store w) → lang = DEFAULT_LANGUAGE_CODE)).
Proof.
  unfold TranslationsService.resolveLanguageCode, bind, query. cbn.
  destruct (find _ (language (store w))) as [l|] eqn:Hfind.
  - exists requestedLang. cbn. split_and!; [done|done|done|].
    intros Hno. destruct Hno. by eapply find_active_Some.
  - apply find_active_None in Hfind.
    destruct (getDefaultLanguageCode_spec
                (record (mkCall "language" "findUnique" [requestedLang]) w))
      as (lang & -> & Hlang).
    exists lang. cbn. split_and!; [done|done|done|].
    intros _. cbn in Hlang. destruct Hlang as [(d' & Hin & Hd & ->)|[Hnone ->]].
    + split; [by eauto|]. intros Hno. destruct Hno. by exists d'.
    + split; [|done]. intros (d & Hin & Hd). rewrite (Hnone d Hin) in Hd. done.
Qed.

(** ** Translation lookup with fallback *)

Global Arguments callsOn : simpl never.

Lemma callsOn_cons_same m op a cs :
  callsOn m (mkCall m op a :: cs) = mkCall m op a :: callsOn m cs.
Proof. unfold callsOn. by rewrite filter_cons_True. Qed.

Lemma callsOn_nil m : callsOn m [] = [].
Proof. done. Qed.

Lemma callsOn_app m cs1 cs2 : callsOn m (cs1 ++ cs2) = callsOn m cs1 ++ callsOn m cs2.
Proof. apply filter_app. Qed.

Lemma resolveLanguageCode_run (requestedLang : string) (w : World Db) :
  ∃ lang cs,
    TranslationsService.resolveLanguageCode requestedLang w
      = (mkWorld (store w) (faults w) (calls w ++ cs) (clock w), Returned lang)
    ∧ Forall (λ c, model c = "language") cs.
Proof.
  unfold TranslationsService.resolveLanguageCode,
    TranslationsService.getDefaultLanguageCode, bind, query, ret, record. cbn.
  destruct (find _ (language (store w))).
  - eexists _, [_]. split; [done|]. by repeat constructor.
  - eexists _, [_; _]. cbn. split; [by rewrite <- (assoc_L (++))|].
    by repeat constructor.
Qed.

Lemma callsOn_other m cs :
  Forall (λ c, model c = "language") cs → m ≠ "language" → callsOn m cs = [].
Proof.
  intros Hall Hm. unfold callsOn. induction Hall as [|c cs Hc _ IH]; [done|].
  rewrite filter_cons_False; [done|]. congruence.
Qed.

(** C7, counterexample.  Requesting German in [db_english_default]:
    German is active, so it is the resolved language; the second lookup goes to "fr", not to the registry's default
    "en"; the English text is not found and the result is null although the
    test has a translation in the registry's default language. *)
Lemma getTestTranslation_ignores_registry_default :
  let w := reliable db_english_default "2026-02-10T12:00:00Z" in
  (TranslationsService.resolveLanguageCode "de" w).2 = Returned "de"
  ∧ (TranslationsService.getDefaultLanguageCode w).2 = Returned "en"
  ∧ (TranslationsService.getTestTranslation "test-1" "de" w).2 = Returned None
  ∧ is_Some (logicalTestTranslation (store w) !! ("test-1", "en"))
  ∧ ¬ null_iff_neither_resolved_nor_registry_default.
Proof.
  cbn zeta. split_and!; [by vm_compute..| |].
  - vm_compute. by eexists.
  - intros Hclaim.
    pose (w := reliable db_english_default "2026-02-10T12:00:00Z").
    assert (Hiff := Hclaim "test-1" "de" w "de" "en" None).
    destruct Hiff as [Hnull _]; [by vm_compute..|].
    destruct (Hnull eq_refl) as [_ Hen]. by vm_compute in Hen.
Qed.

(** One proof script for the four [getXTranslation] methods. *)
Ltac run_getTranslation requestedLang w :=
  destruct (resolveLanguageCode_run requestedLang w) as (lang & cs & Hrun & Hcs);
  exists lang;
  unfold TranslationsService.getTestTranslation,
    TranslationsService.getQuestionTranslation,
    TranslationsService.getPropositionTranslation,
    TranslationsService.getClassificationTranslation;
  unfold bind; cbv beta; rewrite !Hrun; cbn [fst snd];
  unfold query, ret, record; cbn;
  repeat match goal with
    | |- context [?m !! (?p, lang)] =>
        destruct (m !! (p, lang)) eqn:?
    end;
  repeat case_bool_decide; cbn;
  rewrite ?callsOn_app, ?callsOn_cons_same, ?callsOn_nil,
    ?(callsOn_other _ cs) by done;
  rewrite ?(right_id_L [] (++)), <- ?(assoc_L (++)).

(** C7 (amended).  [getTestTranslation] never throws and does not touch the
    store.  It resolves the language, looks the translation up at
    (testId, resolved language) and, if that is absent and the resolved
    language differs from the hardcoded [DEFAULT_LANGUAGE_CODE], makes
    exactly one further lookup, at (testId, [DEFAULT_LANGUAGE_CODE]).  It
    returns null if and only if the test has a translation neither in the
    resolved language nor in [DEFAULT_LANGUAGE_CODE]. *)
Theorem getTestTranslation_constant_fallback (testId requestedLang : string)
    (w : World Db) :
  let table := logicalTestTranslation (store w) in
  let w' := (TranslationsService.getTestTranslation testId requestedLang w).1 in
  ∃ lang translation,
    (TranslationsService.resolveLanguageCode requestedLang w).2 = Returned lang
    ∧ (TranslationsService.getTestTranslation testId requestedLang w).2
        = Returned translation
    ∧ store w' = store w
    ∧ callsOn "logicalTestTranslation" (calls w')
        = callsOn "logicalTestTranslation" (calls w)
          ++ mkCall "logicalTestTranslation" "findUnique" [testId; lang]
             :: (if decide (table !! (testId, lang) = None
                            ∧ lang ≠ DEFAULT_LANGUAGE_CODE)
                 then [mkCall "logicalTestTranslation" "findUnique"
                         [testId; DEFAULT_LANGUAGE_CODE]]
                 else [])
    ∧ (translation = None ↔
         table !! (testId, lang) = None
         ∧ table !! (testId, DEFAULT_LANGUAGE_CODE) = None)
    ∧ (translation = table !! (testId, lang)
       ∨ translation = table !! (testId, DEFAULT_LANGUAGE_CODE)).
Proof.
  cbn zeta. run_getTranslation requestedLang w.
  all: eexists; split_and!; try done.
  all: try (case_decide; naive_solver).
  all: try naive_solver.
Qed.

(** [getQuestionTranslation] never throws; it returns null exactly when
    the question has a translation neither in the resolved language nor in
    the hardcoded [DEFAULT_LANGUAGE_CODE], whatever the registry flags as
    default. *)
Lemma getQuestionTranslation_constant_fallback (questionId requestedLang : string)
    (w : World Db) :
  let table := logicalQuestionTranslation (store w) in
  ∃ lang translation,
    (TranslationsService.resolveLanguageCode requestedLang w).2 = Returned lang
    ∧ (TranslationsService.getQuestionTranslation questionId requestedLang w).2
        = Returned translation
    ∧ (translation = None ↔
         table !! (questionId, lang) = None
         ∧ table !! (questionId, DEFAULT_LANGUAGE_CODE) = None).
Proof.
  cbn zeta. run_getTranslation requestedLang w.
  all: eexists; split_and!; try done; naive_solver.
Qed.

(** [getPropositionTranslation] never throws; it returns null exactly when
    the proposition has a translation neither in the resolved language nor
    in the hardcoded [DEFAULT_LANGUAGE_CODE]. *)
Lemma getPropositionTranslation_constant_fallback (propositionId requestedLang : string)
    (w : World Db) :
  let table := mcqPropositionTranslation (store w) in
  ∃ lang translation,
    (TranslationsService.resolveLanguageCode requestedLang w).2 = Returned lang
    ∧ (TranslationsService.getPropositionTranslation propositionId requestedLang w).2
        = Returned translation
    ∧ (translation = None ↔
         table !! (propositionId, lang) = None
         ∧ table !! (propositionId, DEFAULT_LANGUAGE_CODE) = None).
Proof.
  cbn zeta. run_getTranslation requestedLang w.
  all: eexists; split_and!; try done; naive_solver.
Qed.

(** [getClassificationTranslation] never throws; it returns null exactly
    when the classification has a translation neither in the resolved
    language nor in the hardcoded [DEFAULT_LANGUAGE_CODE]. *)
Lemma getClassificationTranslation_constant_fallback
    (classificationId requestedLang : string) (w : World Db) :
  let table := scoreClassificationTranslation (store w) in
  ∃ lang translation,
    (TranslationsService.resolveLanguageCode requestedLang w).2 = Returned lang
    ∧ (TranslationsService.getClassificationTranslation classificationId
         requestedLang w).2 = Returned translation
    ∧ (translation = None ↔
         table !! (classificationId, lang) = None
         ∧ table !! (classificationId, DEFAULT_LANGUAGE_CODE) = None).
Proof.
  cbn zeta. run_getTranslation requestedLang w.
  all: eexists; split_and!; try done; naive_solver.
Qed.

(** ** Deleting translations *)

Section DeleteTranslation.
Import TranslationsService.

Lemma countByParent_delete {T} (parentId languageCode : string)
    (table : gmap (string * string) T) :
  is_Some (table !! (parentId, languageCode)) →
  countByParent parentId (delete (parentId, languageCode) table)
    = pred (countByParent parentId table).
Proof.
  intros [row Hrow]. unfold countByParent.
  rewrite map_filter_delete, map_size_delete.
  erewrite map_lookup_filter_Some_2; done.
Qed.

(** The guard does its job for the registry's default language: a
    default-language translation is only ever deleted from a test that has
    another one. *)
Lemma deleteTestTranslation_default_guarded (testId languageCode : string)
    (w w' : World Db) row :
  (getDefaultLanguageCode w).2 = Returned languageCode →
  deleteTestTranslation testId languageCode w = (w', Returned row) →
  (1 ≤ countByParent testId (logicalTestTranslation (store w')))%nat.
Proof.
  unfold deleteTestTranslation, ensureNotDeletingDefaultTranslation.
  unfold bind. cbv beta.
  destruct (getDefaultLanguageCode_spec w) as (dflt & -> & _).
  cbn [fst snd]. intros [= ->].
  rewrite bool_decide_eq_true_2 by done.
  unfold query, throw, ret, mutate, record, deleteRow. cbn.
  case_bool_decide as Hcount; [done|]. cbn.
  destruct (faults w) as [|[] fs]; cbn; [|done|].
  all: destruct (logicalTestTranslation (store w) !! (testId, languageCode))
         as [r|] eqn:Hrow; [|done].
  all: intros [= <- <-]; cbn.
  all: rewrite countByParent_delete by done; lia.
Qed.

(** The same holds for the translations of a question: when
    [deleteQuestionTranslation] deletes a translation in the registry's
    default language, the question still has a translation afterwards. *)
Lemma deleteQuestionTranslation_default_guarded (questionId languageCode : string)
    (w w' : World Db) row :
  (getDefaultLanguageCode w).2 = Returned languageCode →
  deleteQuestionTranslation questionId languageCode w = (w', Returned row) →
  (1 ≤ countByParent questionId (logicalQuestionTranslation (store w')))%nat.
Proof.
  unfold deleteQuestionTranslation, ensureNotDeletingDefaultTranslation.
  unfold bind. cbv beta.
  destruct (getDefaultLanguageCode_spec w) as (dflt & -> & _).
  cbn [fst snd]. intros [= ->].
  rewrite bool_decide_eq_true_2 by done.
  unfold query, throw, ret, mutate, record, deleteRow. cbn.
  case_bool_decide as Hcount; [done|]. cbn.
  destruct (faults w) as [|[] fs]; cbn; [|done|].
  all: destruct (logicalQuestionTranslation (store w) !! (questionId, languageCode))
         as [r|] eqn:Hrow; [|done].
  all: intros [= <- <-]; cbn.
  all: rewrite countByParent_delete by done; lia.
Qed.

(** The last translation of a test is kept when it is in the registry's
    default language: the deletion is refused and nothing changes. *)
Lemma deleteTestTranslation_last_default_refused (testId languageCode : string)
    (w : World Db) :
  (getDefaultLanguageCode w).2 = Returned languageCode →
  (countByParent testId (logicalTestTranslation (store w)) ≤ 1)%nat →
  ∃ w' msg,
    deleteTestTranslation testId languageCode w
      = (w', Thrown (BadRequestException msg))
    ∧ store w' = store w.
Proof.
  unfold deleteTestTranslation, ensureNotDeletingDefaultTranslation.
  unfold bind. cbv beta.
  destruct (getDefaultLanguageCode_spec w) as (dflt & -> & _).
  cbn [fst snd]. intros [= ->] Hcount.
  rewrite bool_decide_eq_true_2 by done.
  unfold query, throw, record. cbn.
  rewrite bool_decide_eq_true_2 by done. by eexists _, _.
Qed.

(** A translation in any other language is deleted without a look at the
    count, so the last one goes too. *)
Lemma deleteTestTranslation_non_default_unguarded (testId languageCode dflt : string)
    (w : World Db) row :
  faults w = [] →
  (getDefaultLanguageCode w).2 = Returned dflt →
  languageCode ≠ dflt →
  logicalTestTranslation (store w) !! (testId, languageCode) = Some row →
  ∃ w',
    deleteTestTranslation testId languageCode w = (w', Returned row)
    ∧ countByParent testId (logicalTestTranslation (store w'))
      = pred (countByParent testId (logicalTestTranslation (store w))).
Proof.
  destruct w as [s fs cs t]. cbn [faults store]. intros -> Hdflt Hne Hrow.
  unfold deleteTestTranslation, ensureNotDeletingDefaultTranslation.
  unfold bind. cbv beta.
  destruct (getDefaultLanguageCode_spec (mkWorld s [] cs t)) as (d & Hrun & _).
  rewrite Hrun in Hdflt |- *. cbn [fst snd] in Hdflt |- *.
  injection Hdflt as ->.
  rewrite bool_decide_eq_false_2 by done.
  unfold ret, mutate, record, deleteRow. cbn. rewrite Hrow. cbn.
  eexists. split; [done|]. cbn. by apply countByParent_delete.
Qed.

End DeleteTranslation.

(** C3 (the code departs from it).  The guard of
    [ensureNotDeletingDefaultTranslation] only looks at the count when the
    language being deleted is the registry's default.  Deleting the single,
    non-default translation of a test is therefore accepted and leaves the
    test without any translation; and from a test with a French and an
    English text, deleting "fr" and then "en" is accepted too and ends in the
    same empty state. *)
Theorem deleteTestTranslation_can_leave_no_translation :
  let w1 := reliable db_english_only "2026-02-10T09:00:00Z" in
  let w2 := reliable db_french_and_english "2026-02-10T09:00:00Z" in
  countByParent "test-1" (logicalTestTranslation (store w1)) = 1%nat
  ∧ (∃ row, (TranslationsService.deleteTestTranslation "test-1" "en" w1).2
            = Returned row)
  ∧ countByParent "test-1"
      (logicalTestTranslation
         (store (TranslationsService.deleteTestTranslation "test-1" "en" w1).1))
    = 0%nat
  ∧ (∃ row, (deleteBoth "test-1" "fr" "en" w2).2 = Returned row)
  ∧ countByParent "test-1"
      (logicalTestTranslation (store (deleteBoth "test-1" "fr" "en" w2).1))
    = 0%nat.
Proof.
  cbn zeta. split_and!.
  - by vm_compute.
  - eexists. by vm_compute.
  - by vm_compute.
  - eexists. by vm_compute.
  - by vm_compute.
Qed.

(** ** Reasoning about runs *)

Section Runs.
Context {S : Type}.
Implicit Types w : World S.

Lemma bind_Returned {A B} (m : M S A) (k : A → M S B) w w' b :
  bind m k w = (w', Returned b) →
  ∃ w1 a, m w = (w1, Returned a) ∧ k a w1 = (w', Returned b).
Proof.
  unfold bind. destruct (m w) as [w1 [a|e]]; [eauto|done].
Qed.

Lemma query_run {A} c (f : S → A) w w' o :
  query c f w = (w', o) → w' = record c w ∧ o = Returned (f (store w)).
Proof. by intros [= <- <-]. Qed.

Lemma mutate_Returned {A} c (f : S → Outcome (A * S)) w w' a :
  mutate c f w = (w', Returned a) →
  f (store w) = Returned (a, store w').
Proof.
  unfold mutate, record. cbn.
  destruct (faults w) as [|[] fs]; cbn; [|done|];
    destruct (f (store w)) as [[a' s']|]; try done; by intros [= <- <-].
Qed.

Lemma transaction_Returned {A} (body : M S A) w w' a :
  transaction body w = (w', Returned a) →
  ∃ w1, body w = (w1, Returned a) ∧ store w' = store w1.
Proof.
  unfold transaction. destruct (body w) as [w1 [a'|e]]; [|done].
  destruct (faults w1) as [|[] fs]; [|done|]; intros [= <- <-]; eauto.
Qed.

(** All or nothing: a transaction that throws leaves the store as it
    found it, whatever its body had written. *)
Lemma transaction_Thrown {A} (body : M S A) w w' e :
  transaction body w = (w', Thrown e) → store w' = store w.
Proof.
  unfold transaction. destruct (body w) as [w1 [a'|e']].
  - destruct (faults w1) as [|[] fs]; [done| |done]. by intros [= <- _].
  - by intros [= <- _].
Qed.

End Runs.

(** ** Score classification ranges *)

Section Sorting.
Context {A : Type} (key : A → Z).

Lemma insertByOrder_Permutation x l : insertByOrder key x l ≡ₚ x :: l.
Proof.
  induction l as [|y l IH]; cbn; [done|].
  case_bool_decide; [done|]. rewrite IH. apply Permutation_swap.
Qed.

Lemma sortBy_Permutation l : sortBy key l ≡ₚ l.
Proof.
  induction l as [|x l IH]; cbn; [done|].
  by rewrite insertByOrder_Permutation, IH.
Qed.

Lemma insertByOrder_Sorted x l :
  Sorted (λ a b, key a ≤ key b)%Z l →
  Sorted (λ a b, key a ≤ key b)%Z (insertByOrder key x l).
Proof.
  induction 1 as [|y l Hl IH Hhd]; cbn; [by repeat constructor|].
  case_bool_decide as Hxy.
  - by repeat constructor.
  - constructor; [done|].
    destruct Hhd as [|z l' Hyz]; cbn.
    + constructor. lia.
    + case_bool_decide; constructor; lia.
Qed.

Lemma sortBy_Sorted l : Sorted (λ a b, key a ≤ key b)%Z (sortBy key l).
Proof.
  induction l as [|x l IH]; cbn; [constructor|].
  by apply insertByOrder_Sorted.
Qed.

Lemma sortBy_fmap {B} (f : B → A) (l : list B) :
  sortBy key (f <$> l) = f <$> sortBy (key ∘ f) l.
Proof.
  induction l as [|x l IH]; cbn; [done|]. rewrite IH.
  generalize (sortBy (key ∘ f) l). intros l'.
  induction l' as [|y l' IH']; cbn; [done|].
  case_bool_decide; cbn; [done|]. by rewrite IH'.
Qed.

End Sorting.

Lemma Sorted_lookup {A} (R : A → A → Prop) (l : list A) i prev next :
  Sorted R l → l !! i = Some prev → l !! Datatypes.S i = Some next → R prev next.
Proof.
  intros Hsorted. revert i. induction Hsorted as [|x l Hl IH Hhd]; [done|].
  intros [|i]; cbn.
  - intros [= ->] Hnext. destruct Hhd as [|y l' Hxy]; [done|].
    cbn in Hnext. by injection Hnext as ->.
  - apply IH.
Qed.

Section Validation.
Import ScoreClassificationItemDto TestsService.

Lemma checkBounds_spec sorted :
  match checkBounds sorted with
  | Returned _ => Forall (λ r, minScoreOf r ≤ maxScoreOf r)%Z (itemRange <$> sorted)
  | Thrown e =>
      (∃ msg, e = BadRequestException msg)
      ∧ ¬ Forall (λ r, minScoreOf r ≤ maxScoreOf r)%Z (itemRange <$> sorted)
  end.
Proof.
  induction sorted as [|c rest IH]; cbn; [constructor|].
  case_bool_decide as Hc.
  - split; [by eexists|]. intros Hall. apply Forall_cons_1 in Hall as [Hc' _].
    unfold minScoreOf, maxScoreOf in Hc'. cbn in Hc'. lia.
  - destruct (checkBounds rest).
    + constructor; [|done]. unfold minScoreOf, maxScoreOf. cbn. lia.
    + destruct IH as [Hmsg Hno]. split; [done|].
      intros Hall. apply Forall_cons_1 in Hall as [_ Hall]. done.
Qed.

Lemma checkOverlap_spec sorted :
  match checkOverlap sorted with
  | Returned _ => Sorted (λ p n, maxScoreOf p < minScoreOf n)%Z (itemRange <$> sorted)
  | Thrown e =>
      (∃ msg, e = BadRequestException msg)
      ∧ ¬ Sorted (λ p n, maxScoreOf p < minScoreOf n)%Z (itemRange <$> sorted)
  end.
Proof.
  induction sorted as [|prev rest IH]; [constructor|].
  destruct rest as [|curr rest']; [by repeat constructor|].
  change (checkOverlap (prev :: curr :: rest'))
    with (if bool_decide (minScore curr ≤ maxScore prev)%Z
          then Thrown (BadRequestException
                 ("Score range overlap between displayOrder "
                  +:+ pretty (displayOrder prev) +:+ " ("
                  +:+ pretty (minScore prev) +:+ "-" +:+ pretty (maxScore prev)
                  +:+ ") and " +:+ pretty (displayOrder curr) +:+ " ("
                  +:+ pretty (minScore curr) +:+ "-" +:+ pretty (maxScore curr)
                  +:+ ")"))
          else checkOverlap (curr :: rest')).
  case_bool_decide as Hc.
  - split; [by eexists|]. intros Hs. apply Sorted_inv in Hs as [_ Hhd].
    apply HdRel_inv in Hhd. unfold minScoreOf, maxScoreOf in Hhd. cbn in Hhd. lia.
  - destruct (checkOverlap (curr :: rest')).
    + constructor; [done|]. constructor.
      unfold minScoreOf, maxScoreOf. cbn. lia.
    + destruct IH as [Hmsg Hno]. split; [done|].
      intros Hs. apply Sorted_inv in Hs as [Hs _]. done.
Qed.

(** [validateClassificationRanges] accepts exactly the sets whose sorted
    form is valid, and rejects the others with a [BadRequestException]. *)
Lemma validateClassificationRanges_spec classifications :
  match validateClassificationRanges classifications with
  | Returned _ =>
      validRanges (itemRange <$> sortBy displayOrder classifications)
  | Thrown e =>
      (∃ msg, e = BadRequestException msg)
      ∧ ¬ validRanges (itemRange <$> sortBy displayOrder classifications)
  end.
Proof.
  unfold validateClassificationRanges, validRanges.
  pose proof (checkBounds_spec (sortBy displayOrder classifications)) as Hb.
  pose proof (checkOverlap_spec (sortBy displayOrder classifications)) as Ho.
  destruct (checkBounds _) as [[]|e].
  - destruct (checkOverlap _) as [[]|e].
    + split_and!; [|done..].
      eapply Sorted_fmap; [|apply (sortBy_Sorted displayOrder)]. done.
    + destruct Ho as [Hmsg Hno]. split; [done|]. naive_solver.
  - destruct Hb as [Hmsg Hno]. split; [done|]. naive_solver.
Qed.

End Validation.

Section UpsertClassifications.
Import TestsService.

Lemma createTranslations_Returned classificationId ts table table' :
  createTranslations classificationId ts table = Returned table' →
  table ⊆ table'
  ∧ ∀ t, t ∈ ts →
      table' !! (classificationId, ScoreClassificationTranslationDto.languageCode t)
      = Some (ScoreClassificationTranslation.mk classificationId
                (ScoreClassificationTranslationDto.languageCode t)
                (ScoreClassificationTranslationDto.label t)
                (ScoreClassificationTranslationDto.description t)).
Proof.
  revert table. induction ts as [|t ts IH]; intros table; cbn.
  - intros [= ->]. split; [done|]. by intros t Ht%elem_of_nil.
  - destruct (table !! _) eqn:Hkey; [done|]. intros Hrest.
    apply IH in Hrest as [Hsub Hall]. split.
    + etrans; [|exact Hsub]. by apply insert_subseteq.
    + intros t' [->|Ht']%elem_of_cons; [|by apply Hall].
      eapply lookup_weaken; [|exact Hsub]. apply lookup_insert_eq.
Qed.

Lemma createClassification_Returned testId item db db' :
  createClassification testId item db = Returned ((), db') →
  ∃ row, scoreClassification db' = scoreClassification db ++ [row]
         ∧ storesItem testId db' row item
         ∧ scoreClassificationTranslation db ⊆ scoreClassificationTranslation db'.
Proof.
  unfold createClassification.
  destruct (createTranslations _ _ _) as [table|] eqn:Htable; [|done].
  intros [= <-]. apply createTranslations_Returned in Htable as [Hsub Hall].
  eexists. split; [done|]. split; [|done]. by split_and!.
Qed.

Lemma storesItem_weaken testId db db' row item :
  scoreClassificationTranslation db ⊆ scoreClassificationTranslation db' →
  storesItem testId db row item → storesItem testId db' row item.
Proof.
  intros Hsub (? & ? & ? & Hall). split_and!; [done..|].
  intros t Ht. eapply lookup_weaken; [by apply Hall|done].
Qed.

Lemma forEach_create_Returned testId items w w' :
  forEach (λ item, mutate (mkCall "scoreClassification" "create" [testId])
                     (createClassification testId item)) items w
    = (w', Returned ()) →
  ∃ rows, scoreClassification (store w') = scoreClassification (store w) ++ rows
          ∧ Forall2 (storesItem testId (store w')) rows items
          ∧ scoreClassificationTranslation (store w)
              ⊆ scoreClassificationTranslation (store w').
Proof.
  revert w. induction items as [|item items IH]; intros w; cbn.
  - intros [= <-]. exists []. by rewrite (right_id_L [] (++)).
  - intros (w1 & [] & Hhead & Hrest)%bind_Returned.
    apply mutate_Returned, createClassification_Returned in Hhead
      as (row & Hrows & Hrow & Hsub).
    apply IH in Hrest as (rows & Hrows' & Hall & Hsub').
    exists (row :: rows). split_and!.
    + by rewrite Hrows', Hrows, <- (assoc_L (++)).
    + constructor; [|done]. by eapply storesItem_weaken.
    + by etrans.
Qed.

Lemma classificationsOf_deleteManyByTest testId db :
  classificationsOf testId (deleteManyByTest testId db) = [].
Proof.
  unfold classificationsOf, deleteManyByTest. cbn.
  induction (scoreClassification db) as [|r l IH]; [done|].
  rewrite filter_cons. case_decide as Hr; [|done].
  rewrite filter_cons_False; done.
Qed.

Lemma validateLanguageCodes_run codes (w : World Db) :
  ∃ o, TranslationsService.validateLanguageCodes codes w
         = (record (mkCall "language" "findMany" (newSet [] codes)) w, o)
       ∧ (o = Returned () ∨ ∃ msg, o = Thrown (BadRequestException msg)).
Proof.
  unfold TranslationsService.validateLanguageCodes, bind, query, throw, ret.
  cbn. case_bool_decide; eauto.
Qed.

Local Arguments TranslationsService.resolveLanguageCode : simpl never.

Lemma getClassifications_store testId lang (w : World Db) :
  store (getClassifications testId lang w).1 = store w.
Proof.
  unfold getClassifications, bind, query, throw, ret. cbn.
  destruct (logicalTest (store w) !! testId); [|done].
  match goal with
  | |- context [TranslationsService.resolveLanguageCode lang ?w0] =>
      destruct (resolveLanguageCode_run lang w0) as (l & cs & -> & _)
  end.
  done.
Qed.

End UpsertClassifications.

(** Peel the first [let*] of a run [H : (let* x := m in k) w = (w', o)],
    leaving the run of [m] as an equation. *)
Ltac step H :=
  unfold bind in H at 1; cbv beta in H;
  lazymatch type of H with
  | match ?mw with _ => _ end = _ =>
      let w1 := fresh "w" in
      let e := fresh "e" in
      let a := fresh "a" in
      let Hm := fresh "Hstep" in
      destruct mw as [w1 [a|e]] eqn:Hm
  end.

Section UpsertClassificationsRuns.
Import TestsService.

Local Arguments TranslationsService.resolveLanguageCode : simpl never.
Local Arguments TranslationsService.validateLanguageCodes : simpl never.
Local Arguments validateClassificationRanges : simpl never.
Local Arguments getClassifications : simpl never.
Local Arguments transaction : simpl never.
Local Arguments forEach : simpl never.

Lemma getClassifications_Returned testId lang (w : World Db) :
  is_Some (logicalTest (store w) !! testId) →
  ∃ views, (getClassifications testId lang w).2 = Returned views.
Proof.
  intros [test Htest].
  unfold getClassifications, bind, query, throw, ret. cbn. rewrite Htest.
  match goal with
  | |- context [TranslationsService.resolveLanguageCode lang ?w0] =>
      destruct (resolveLanguageCode_run lang w0) as (l & cs & -> & _)
  end.
  by eexists.
Qed.

Lemma replace_body_Returned testId classifications (w w' : World Db) :
  (do* mutate (mkCall "scoreClassification" "deleteMany" [testId])
         (λ db, Returned ((), deleteManyByTest testId db)) in
   forEach (λ item, mutate (mkCall "scoreClassification" "create" [testId])
                      (createClassification testId item)) classifications) w
    = (w', Returned ()) →
  Forall2 (storesItem testId (store w'))
    (classificationsOf testId (store w')) classifications
  ∧ logicalTest (store w') = logicalTest (store w).
Proof.
  intros (w1 & [] & Hdel & Hcreate)%bind_Returned.
  apply mutate_Returned in Hdel. injection Hdel as Hdel.
  assert (logicalTest (store w') = logicalTest (store w1)) as Htests.
  { clear Hdel. revert w1 Hcreate.
    induction classifications as [|item items IH]; intros w1; cbn.
    - by intros [= <-].
    - intros (w2 & [] & Hhead & Hrest)%bind_Returned.
      rewrite (IH _ Hrest). apply mutate_Returned in Hhead.
      unfold createClassification in Hhead.
      destruct (createTranslations _ _ _); [|done]. by injection Hhead as <-. }
  apply forEach_create_Returned in Hcreate as (rows & Hrows & Hall & _).
  split; [|by rewrite Htests, <- Hdel].
  unfold classificationsOf at 1. rewrite Hrows, filter_app.
  fold (classificationsOf testId (store w1)).
  rewrite <- Hdel, classificationsOf_deleteManyByTest. cbn.
  replace (filter _ rows) with rows; [done|].
  clear Hrows. induction Hall as [|r c rows cs Hr _ IH]; [done|].
  rewrite filter_cons_True by apply Hr. by rewrite <- IH.
Qed.

Lemma storesItem_ranges testId db rows items :
  Forall2 (storesItem testId db) rows items →
  rowRange <$> rows = itemRange <$> items.
Proof.
  induction 1 as [|r c rows cs (_ & Hr & _) _ IH]; [done|].
  cbn. by rewrite Hr, IH.
Qed.

End UpsertClassificationsRuns.

Lemma sortBy_rowRange rows :
  rowRange <$> sortBy ScoreClassification.displayOrder rows
  = sortBy displayOrderOf (rowRange <$> rows).
Proof. by rewrite sortBy_fmap. Qed.

Lemma sortBy_itemRange items :
  itemRange <$> sortBy ScoreClassificationItemDto.displayOrder items
  = sortBy displayOrderOf (itemRange <$> items).
Proof. by rewrite sortBy_fmap. Qed.

Lemma invalid_not_validRanges sorted :
  someRangeInverted sorted ∨ someAdjacentOverlap sorted →
  ¬ validRanges (itemRange <$> sorted).
Proof.
  intros Hbad (_ & Hbounds & Hsep). destruct Hbad as [(c & Hc & Hinv)|Hover].
  - rewrite Forall_fmap, Forall_forall in Hbounds.
    specialize (Hbounds c Hc). unfold minScoreOf, maxScoreOf in Hbounds.
    cbn in Hbounds. lia.
  - destruct Hover as (i & prev & next & Hprev & Hnext & Hle).
    pose proof (Sorted_lookup _ _ i (itemRange prev) (itemRange next) Hsep) as H.
    rewrite !list_lookup_fmap, Hprev, Hnext in H.
    specialize (H eq_refl eq_refl). unfold minScoreOf, maxScoreOf in H.
    cbn in H. lia.
Qed.

(** C2.  Whatever [upsertClassifications] is called with, and whichever
    storage calls fail:
    - if the test exists and, once the items are sorted by displayOrder,
      some item has minScore > maxScore or some adjacent pair has
      next.minScore ≤ prev.maxScore, the call throws a
      [BadRequestException] and the store is exactly as before;
    - whenever the call throws, the store is exactly as before;
    - if the call returns, the classifications stored for the test are the
      input items, one row per item in input order, with their
      translations, and read by displayOrder they are ordered, each with
      minScore ≤ maxScore, each starting strictly above the end of the
      previous one. *)
Theorem upsertClassifications_rejects_or_replaces (testId : string)
    (classifications : list ScoreClassificationItemDto.t)
    (w w' : World Db) (outcome : Outcome (list ClassificationView.t)) :
  TestsService.upsertClassifications testId
    (UpsertClassificationsDto.mk classifications) w = (w', outcome) →
  let sorted := sortBy ScoreClassificationItemDto.displayOrder classifications in
  let stored := TestsService.classificationsOf testId (store w') in
  (is_Some (logicalTest (store w) !! testId) →
   someRangeInverted sorted ∨ someAdjacentOverlap sorted →
   (∃ msg, outcome = Thrown (BadRequestException msg)) ∧ store w' = store w)
  ∧ (∀ e, outcome = Thrown e → store w' = store w)
  ∧ (∀ views, outcome = Returned views →
       Forall2 (storesItem testId (store w')) stored classifications
       ∧ validRanges (rowRange <$> sortBy ScoreClassification.displayOrder stored)).
Proof.
  intros Hrun. cbn zeta.
  unfold TestsService.upsertClassifications in Hrun.
  cbn [UpsertClassificationsDto.classifications] in Hrun. cbv zeta in Hrun.
  step Hrun; apply query_run in Hstep as [-> Htest]; [|done].
  injection Htest as ->.
  destruct (logicalTest (store w) !! testId) as [test|] eqn:Htest.
  2:{ injection Hrun as <- <-. split_and!; [|done..]. by intros [? [=]]. }
  pose proof (validateClassificationRanges_spec classifications) as Hvalid.
  step Hrun.
  2:{ (* the ranges are rejected *)
      injection Hrun as <- <-.
      destruct (TestsService.validateClassificationRanges classifications)
        as [[]|e']; [done|].
      injection Hstep as <- <-. destruct Hvalid as [[msg ->] _].
      split_and!; [by eauto|done..]. }
  destruct (TestsService.validateClassificationRanges classifications)
    as [[]|e']; [|done].
  injection Hstep as <- _.
  assert (¬ (someRangeInverted
               (sortBy ScoreClassificationItemDto.displayOrder classifications)
             ∨ someAdjacentOverlap
                 (sortBy ScoreClassificationItemDto.displayOrder classifications)))
    as Hgood by (intros Hbad; by apply invalid_not_validRanges in Hbad).
  step Hrun;
    match type of Hstep with
    | TranslationsService.validateLanguageCodes ?cs ?w0 = _ =>
        destruct (validateLanguageCodes_run cs w0) as (o & Hcodes & _);
        rewrite Hcodes in Hstep; injection Hstep as <- _
    end.
  2:{ injection Hrun as <- <-. split_and!; [done..|]. done. }
  step Hrun.
  2:{ (* the transaction is rolled back *)
      injection Hrun as <- <-. apply transaction_Thrown in Hstep.
      split_and!; [done| |done]. intros _ _. exact Hstep. }
  apply transaction_Returned in Hstep as (w3 & Hbody & Hstore).
  destruct a1. apply replace_body_Returned in Hbody as [Hstored Htests].
  step Hrun; [|done]. injection Hstep as <- _.
  assert (store w' = store w3) as Hfinal.
  { rewrite <- Hstore.
    match type of Hrun with
    | TestsService.getClassifications ?t ?l ?w0 = _ =>
        pose proof (getClassifications_store t l w0) as Hs;
        rewrite Hrun in Hs; exact Hs
    end. }
  split_and!; [done| |].
  - intros e ->.
    match type of Hrun with
    | TestsService.getClassifications ?t ?l ?w0 = _ =>
        destruct (getClassifications_Returned t l w0) as [views Hviews]
    end.
    { cbn. rewrite Hstore, Htests. cbn. by rewrite Htest. }
    by rewrite Hrun in Hviews.
  - intros views _. rewrite Hfinal. split; [done|].
    rewrite sortBy_rowRange, (storesItem_ranges _ _ _ _ Hstored),
      <- sortBy_itemRange.
    done.
Qed.

(** ** Candidature transitions *)

(** Unfold the monad of a run and reduce the world around it. *)
Ltac run_monad :=
  cbv beta iota zeta delta
    [bind query now transaction mutate record throw ret forEach
     faults store calls clock tail fst snd].

(** Reduce table projections of updated stores. *)
Ltac db_simpl :=
  unfold updateCandidature, createCandidature, createJobApplication,
    createTransition;
  cbn [language logicalTest logicalTestTranslation logicalQuestionTranslation
       mcqPropositionTranslation scoreClassification
       scoreClassificationTranslation personalityTest user site department
       jobApplication candidature candidatureStateTransition
       with_logicalTestTranslation with_logicalQuestionTranslation
       with_mcqPropositionTranslation with_scoreClassification
       with_jobApplication with_candidature with_candidatureStateTransition
       updateCandidature createCandidature createJobApplication
       createTransition].

(** C4.  On a candidature in status [evaluated], with the storage calls
    going through, [archive] returns, sets the status to [archived],
    changes nothing else in the row, and appends exactly one transition-log
    entry, from [evaluated] to [archived]; a second [archive] on the
    resulting store is refused.  On a candidature in any other status
    ([archived] included) [archive] throws the [BadRequestException] by
    which the service reports a failed precondition, and the store, hence
    the candidature and its log, is unchanged. *)
Theorem archive_only_from_evaluated (id archivedBy : string) (w : World Db)
    (c : Candidature.t) :
  candidature (store w) !! id = Some c →
  (Candidature.status c = CandidatureStatus.evaluated → faults w = [] →
   ∃ w',
     CandidaturesService.archive id archivedBy w = (w', Returned (id, archivedRow c))
     ∧ store w'
       = with_candidature (<[id := archivedRow c]> (candidature (store w)))
           (with_candidatureStateTransition
              (candidatureStateTransition (store w)
               ++ [CandidatureStateTransition.mk id
                     (Some CandidatureStatus.evaluated) CandidatureStatus.archived
                     archivedBy (clock w) (Some "Archived")])
              (store w))
     ∧ ∃ w'' msg,
         CandidaturesService.archive id archivedBy w'
           = (w'', Thrown (BadRequestException msg))
         ∧ store w'' = store w')
  ∧ (Candidature.status c ≠ CandidatureStatus.evaluated →
     ∃ w' msg,
       CandidaturesService.archive id archivedBy w
         = (w', Thrown (BadRequestException msg))
       ∧ store w' = store w).
Proof.
  destruct w as [s fs cs t]. cbn [store faults clock]. intros Hc. split.
  - intros Hstatus ->.
    unfold CandidaturesService.archive, CandidaturesService.logTransition.
    run_monad. rewrite Hc, bool_decide_eq_false_2 by (by intros []).
    run_monad. db_simpl. rewrite Hc. run_monad. rewrite Hstatus.
    eexists. split_and!; [done..|].
    db_simpl. rewrite lookup_insert_eq. by eexists _, _.
  - intros Hstatus.
    unfold CandidaturesService.archive. run_monad.
    rewrite Hc. rewrite bool_decide_eq_true_2 by done. by eexists _, _.
Qed.

Section Create.
Import CandidaturesService.

Lemma candidatureOf_Some_intro jobApplicationId (table : gmap string Candidature.t) k c :
  table !! k = Some c →
  Candidature.jobApplicationId c = jobApplicationId →
  is_Some (candidatureOf jobApplicationId table).
Proof.
  intros Hk Hc. unfold candidatureOf.
  destruct (filter _ (map_to_list table)) as [|kv l] eqn:Hfilter; [|by eexists].
  assert ((k, c) ∈ filter (λ kv : string * Candidature.t,
                             Candidature.jobApplicationId kv.2 = jobApplicationId)
                      (map_to_list table)) as Hin.
  { apply list_elem_of_filter. split; [done|]. by apply elem_of_map_to_list. }
  rewrite Hfilter in Hin. by apply elem_of_nil in Hin.
Qed.

Lemma ifTruthy_false {A} x (th : string → A) el :
  truthy x = false → ifTruthy x th el = el.
Proof.
  unfold truthy, ifTruthy. destruct x as [s|]; [|done].
  by destruct (String.eqb s "").
Qed.

Lemma create_on_existing_candidature dto assignedBy s fs cs t ja k c :
  jobApplication s !! CreateCandidatureDto.jobApplicationId dto = Some ja →
  JobApplication.status ja = ApplicationStatus.approved →
  candidature s !! k = Some c →
  Candidature.jobApplicationId c = CreateCandidatureDto.jobApplicationId dto →
  ∃ w',
    create dto assignedBy (mkWorld s fs cs t)
      = (w', Thrown (ConflictException "Job application already has a candidature"))
    ∧ store w' = s.
Proof.
  intros Hja Happroved Hk Hc. unfold create. run_monad.
  rewrite Hja. cbn [fmap option_fmap option_map].
  rewrite bool_decide_eq_false_2 by (by rewrite Happroved; intros []).
  destruct (candidatureOf_Some_intro _ _ _ _ Hk Hc) as [kc ->].
  by eexists.
Qed.

Lemma create_pending_run dto assignedBy s cs t ja :
  jobApplication s !! CreateCandidatureDto.jobApplicationId dto = Some ja →
  JobApplication.status ja = ApplicationStatus.approved →
  candidatureOf (CreateCandidatureDto.jobApplicationId dto) (candidature s) = None →
  truthy (CreateCandidatureDto.assignedPsychologueId dto) = false →
  ∃ cs',
    create dto assignedBy (mkWorld s [] cs t)
    = (mkWorld
         (with_candidature
            (<[fresh (dom (candidature s)) := pendingRow dto]> (candidature s)) s)
         [] cs' t,
       Returned (fresh (dom (candidature s)), pendingRow dto)).
Proof.
  intros Hja Happroved Hnone Hpsy. unfold create. run_monad.
  rewrite Hja. cbn [fmap option_fmap option_map].
  rewrite bool_decide_eq_false_2 by (by rewrite Happroved; intros []).
  rewrite Hnone, ifTruthy_false by done. rewrite Hpsy.
  run_monad. db_simpl. run_monad. by eexists.
Qed.

End Create.

(** C5.  For a job application that exists:
    - if its status is not [approved], [create] throws a
      [BadRequestException] and the store is unchanged, whatever else is in
      the request;
    - if it is [approved], no candidature points at it, no psychologue is
      assigned in the request and the storage call goes through, [create]
      returns a candidature in status [pending] under a key that was not in
      use, the candidature table grows by exactly that row, nothing is
      logged, and any further [create] for the same job application throws a
      [ConflictException] and leaves the store as it is. *)
Theorem create_once_from_approved_application (dto : CreateCandidatureDto.t)
    (assignedBy : string) (w : World Db) (ja : JobApplication.t) :
  jobApplication (store w) !! CreateCandidatureDto.jobApplicationId dto = Some ja →
  (JobApplication.status ja ≠ ApplicationStatus.approved →
   ∃ w' msg,
     CandidaturesService.create dto assignedBy w
       = (w', Thrown (BadRequestException msg))
     ∧ store w' = store w)
  ∧ (JobApplication.status ja = ApplicationStatus.approved →
     candidatureOf (CreateCandidatureDto.jobApplicationId dto)
       (candidature (store w)) = None →
     truthy (CreateCandidatureDto.assignedPsychologueId dto) = false →
     faults w = [] →
     ∃ w' newId,
       CandidaturesService.create dto assignedBy w
         = (w', Returned (newId, pendingRow dto))
       ∧ candidature (store w) !! newId = None
       ∧ store w'
         = with_candidature (<[newId := pendingRow dto]> (candidature (store w)))
             (store w)
       ∧ ∀ dto' assignedBy' fs cs t,
           CreateCandidatureDto.jobApplicationId dto'
             = CreateCandidatureDto.jobApplicationId dto →
           ∃ w'' msg,
             CandidaturesService.create dto' assignedBy'
               (mkWorld (store w') fs cs t)
               = (w'', Thrown (ConflictException msg))
             ∧ store w'' = store w').
Proof.
  destruct w as [s fs cs t]. cbn [store faults]. intros Hja. split.
  - intros Hstatus. unfold CandidaturesService.create. run_monad.
    rewrite Hja. cbn [fmap option_fmap option_map].
    rewrite bool_decide_eq_true_2 by done. by eexists _, _.
  - intros Happroved Hnone Hpsy ->.
    destruct (create_pending_run dto assignedBy s cs t ja) as [cs1 Hrun]; [done..|].
    rewrite Hrun. eexists _, _. split_and!; [done| |done|].
    + apply not_elem_of_dom, is_fresh.
    + intros dto' assignedBy' fs' cs' t' Hsame. cbn [store].
      match goal with
      | |- context [mkWorld ?s' fs' cs' t'] =>
          destruct (create_on_existing_candidature dto' assignedBy' s' fs' cs' t'
                      ja (fresh (dom (candidature s))) (pendingRow dto))
            as (w'' & Hrun' & Hstore)
      end.
      * db_simpl. rewrite Hsame. exact Hja.
      * done.
      * db_simpl. apply lookup_insert_eq.
      * by rewrite Hsame.
      * by eexists _, _.
Qed.

(** ** Assigning tests *)

Section AssignTests.
Import CandidaturesService.

Lemma testsAssignedRow_idemp dto pid c :
  testsAssignedRow dto pid (testsAssignedRow dto pid c) = testsAssignedRow dto pid c.
Proof.
  unfold testsAssignedRow. cbn. f_equal.
  - by destruct pid.
  - by destruct (AssignTestsDto.optionalLogicalTestId dto).
  - by destruct (truthy (AssignTestsDto.examDate dto)).
Qed.

Lemma if_same {A} (b : bool) (x : A) : (if b then x else x) = x.
Proof. by destruct b. Qed.

Lemma with_transition_nil s :
  with_candidatureStateTransition (candidatureStateTransition s ++ []) s = s.
Proof. destruct s. unfold with_candidatureStateTransition. cbn. by rewrite (right_id_L [] (++)). Qed.

(** Forward: on a world without storage failures, accepted arguments
    commit [testsAssignedStore] and return the row. *)
Lemma assignTests_reliable id dto assignedBy s cs t c :
  assignTestsAccepts id dto s c →
  ∃ cs',
    assignTests id dto assignedBy (mkWorld s [] cs t)
    = (mkWorld (testsAssignedStore id dto assignedBy t c s) [] cs' t,
       Returned (id, testsAssignedRow dto (pickPersonalityTest dto s) c)).
Proof.
  intros (Hc & Hstatus & [lt Hlt] & Hopt).
  unfold assignTests, logTransition, testsAssignedStore, testsAssignedLog,
    pickPersonalityTest.
  unfold testsAssignedRow, ifTruthy in *.
  destruct (AssignTestsDto.optionalLogicalTestId dto) as [oid|];
    [destruct (String.eqb oid "")|].
  all: run_monad; rewrite Hc, bool_decide_eq_true_2 by done; cbn [negb].
  all: run_monad; rewrite Hlt; run_monad; rewrite ?if_same.
  2: destruct Hopt as [ot ->].
  all: repeat case_bool_decide; run_monad; db_simpl; rewrite ?Hc; run_monad;
    rewrite ?if_same, ?with_transition_nil; by eexists.
Qed.

(** Backward: whatever the failure schedule, a call that returns has
    passed the checks, returns the row and has committed
    [testsAssignedStore]. *)
Lemma assignTests_Returned id dto assignedBy (w w1 : World Db) r :
  assignTests id dto assignedBy w = (w1, Returned r) →
  ∃ c, assignTestsAccepts id dto (store w) c
       ∧ r = (id, testsAssignedRow dto (pickPersonalityTest dto (store w)) c)
       ∧ store w1 = testsAssignedStore id dto assignedBy (clock w) c (store w).
Proof.
  destruct w as [s fs cs t]. cbn [store clock].
  unfold assignTests, logTransition, assignTestsAccepts, testsAssignedStore,
    testsAssignedLog, pickPersonalityTest, testsAssignedRow, ifTruthy.
  run_monad. destruct (candidature s !! id) as [c|] eqn:Hc; [|done].
  case_bool_decide as Hstatus; cbn [negb]; [|done].
  destruct (logicalTest s !! AssignTestsDto.logicalTestId dto) as [lt|] eqn:Hlt;
    [|done].
  destruct (AssignTestsDto.optionalLogicalTestId dto) as [oid|];
    [destruct (String.eqb oid "");
     [|destruct (logicalTest s !! oid) as [ot|] eqn:Hot; [|done]]|].
  all: rewrite ?if_same; repeat case_bool_decide.
  all: destruct fs as [|[] [|[] [|[] fs]]]; try done.
  all: db_simpl; rewrite ?Hc; try done.
  all: intros [= <- <-]; exists c.
  all: rewrite ?if_same, ?bool_decide_eq_true_2 by done.
  all: rewrite ?bool_decide_eq_false_2 by (intros Hne; by apply Hne).
  all: rewrite ?with_transition_nil; db_simpl.
  all: split_and!; try done; by eexists.
Qed.

Lemma assignTests_Thrown id dto assignedBy (w w1 : World Db) e :
  assignTests id dto assignedBy w = (w1, Thrown e) → store w1 = store w.
Proof.
  destruct w as [s fs cs t]. cbn [store].
  unfold assignTests, logTransition, ifTruthy.
  run_monad. destruct (candidature s !! id) as [c|] eqn:Hc; [|by intros [= <- _]].
  case_bool_decide as Hstatus; cbn [negb]; [|by intros [= <- _]].
  destruct (logicalTest s !! AssignTestsDto.logicalTestId dto) as [lt|] eqn:Hlt;
    [|by intros [= <- _]].
  destruct (AssignTestsDto.optionalLogicalTestId dto) as [oid|];
    [destruct (String.eqb oid "");
     [|destruct (logicalTest s !! oid) as [ot|] eqn:Hot; [|by intros [= <- _]]]|].
  all: rewrite ?if_same; repeat case_bool_decide.
  all: destruct fs as [|[] [|[] [|[] fs]]]; try done.
  all: db_simpl; rewrite ?Hc; try done.
  all: by intros [= <- _].
Qed.

End AssignTests.

Lemma with_candidature_same s : with_candidature (candidature s) s = s.
Proof. by destruct s. Qed.

(** C6.  Whenever [assignTests] returns on a candidature, that candidature
    was [pending] or [assigned], it is [assigned] afterwards, and the log
    has grown by at most one entry, written exactly when the candidature was
    [pending].  Calling [assignTests] again with the same arguments on the
    store the first call left (at any later instant, the storage calls going
    through) returns the same candidature row and leaves the store, the log
    included, exactly as the first call left it. *)
Theorem assignTests_idempotent (id : string) (dto : AssignTestsDto.t)
    (assignedBy : string) (w w1 : World Db) (r : string * Candidature.t) :
  CandidaturesService.assignTests id dto assignedBy w = (w1, Returned r) →
  ∃ c entries,
    candidature (store w) !! id = Some c
    ∧ Candidature.status c
        ∈ [CandidatureStatus.pending; CandidatureStatus.assigned]
    ∧ Candidature.status r.2 = CandidatureStatus.assigned
    ∧ candidature (store w1) !! id = Some r.2
    ∧ candidatureStateTransition (store w1)
        = candidatureStateTransition (store w) ++ entries
    ∧ (length entries ≤ 1)%nat
    ∧ (entries ≠ [] ↔ Candidature.status c = CandidatureStatus.pending)
    ∧ ∀ cs t, ∃ w2,
        CandidaturesService.assignTests id dto assignedBy
          (mkWorld (store w1) [] cs t) = (w2, Returned r)
        ∧ store w2 = store w1.
Proof.
  intros Hrun.
  apply assignTests_Returned in Hrun as (c & Haccepts & -> & Hstore).
  pose proof Haccepts as (Hc & Hstatus & Htest & Hopt).
  exists c, (testsAssignedLog id assignedBy (clock w) c).
  rewrite Hstore. unfold testsAssignedStore at 1 2. db_simpl.
  split_and!; try done.
  - apply lookup_insert_eq.
  - unfold testsAssignedLog. case_bool_decide; cbn; lia.
  - unfold testsAssignedLog.
    apply list_elem_of_In in Hstatus. cbn in Hstatus.
    case_bool_decide as Hne; split; try done.
    + intros _. naive_solver.
    + intros Hp. congruence.
  - intros cs t.
    set (c' := testsAssignedRow dto (pickPersonalityTest dto (store w)) c).
    set (s1 := testsAssignedStore id dto assignedBy (clock w) c (store w)).
    destruct (assignTests_reliable id dto assignedBy s1 cs t c') as [cs' Hsecond].
    { unfold assignTestsAccepts, s1, testsAssignedStore. db_simpl.
      split_and!; [by rewrite lookup_insert_eq| |done..].
      cbn. apply list_elem_of_In. cbn. by right; left. }
    assert (pickPersonalityTest dto s1 = pickPersonalityTest dto (store w)) as Hpick
      by done.
    assert (testsAssignedStore id dto assignedBy t c' s1 = s1) as Hsame.
    { unfold testsAssignedStore at 1, testsAssignedLog.
      rewrite bool_decide_eq_false_2 by (intros Hne; by apply Hne).
      rewrite with_transition_nil, Hpick. fold c'.
      unfold c' at 1. rewrite testsAssignedRow_idemp. fold c'.
      rewrite <- (with_candidature_same s1) at 2. f_equal.
      unfold s1, testsAssignedStore. db_simpl. fold c'.
      by rewrite insert_insert_eq. }
    rewrite Hsame, Hpick in Hsecond. unfold c' in Hsecond at 1.
    rewrite testsAssignedRow_idemp in Hsecond.
    rewrite Hsecond. by eexists.
Qed.

(** ** Field updates *)

(** C10.  Whatever [update] is called with and whichever storage calls
    fail: the transition log is left as it was; a call that throws leaves
    the whole store as it was; a call that returns has rewritten the one
    candidature row, and the new row differs from the old one at most in
    dpNumber, examDate, the assigned psychologue and the assigner, so the
    status is the old status, also when a psychologue is assigned to a
    pending candidature. *)
Theorem update_keeps_status_and_log (id : string) (dto : UpdateCandidatureDto.t)
    (userId : string) (w w' : World Db) (outcome : Outcome (string * Candidature.t)) :
  CandidaturesService.update id dto userId w = (w', outcome) →
  candidatureStateTransition (store w') = candidatureStateTransition (store w)
  ∧ (∀ e, outcome = Thrown e → store w' = store w)
  ∧ (∀ r, outcome = Returned r →
       ∃ c, candidature (store w) !! id = Some c
            ∧ r = (id, updatedRow dto userId c)
            ∧ sameOutsideAssignment c r.2
            ∧ store w'
              = with_candidature
                  (<[id := updatedRow dto userId c]> (candidature (store w)))
                  (store w)).
Proof.
  destruct w as [s fs cs t]. cbn [store].
  unfold CandidaturesService.update, CandidaturesService.findPsychologue, ifTruthy.
  run_monad. destruct (candidature s !! id) as [c|] eqn:Hc.
  2:{ intros [= <- <-]. by split_and!. }
  destruct (UpdateCandidatureDto.assignedPsychologueId dto) as [pid|] eqn:Hpid;
    [destruct (String.eqb pid "") eqn:Hempty;
     [|destruct (user s !! pid) as [u|]; [case_bool_decide|]]|].
  all: run_monad; db_simpl; rewrite ?Hc.
  all: destruct fs as [|[] fs]; run_monad.
  all: intros [= <- <-]; db_simpl; split_and!; try done.
  all: intros r [= <-]; exists c; unfold updatedRow; rewrite ?Hpid.
  all: by split_and!.
Qed.

(** ** Creation with an immediate assignment *)

Lemma transitionsOf_fresh newId s :
  logRefersToCandidatures s → candidature s !! newId = None →
  transitionsOf newId s = [].
Proof.
  unfold logRefersToCandidatures, transitionsOf. intros Hfk Hnew.
  induction (candidatureStateTransition s) as [|tr l IH]; [done|].
  rewrite filter_cons_False.
  - apply IH. intros tr' Hin. apply Hfk. by right.
  - intros Heq. destruct (Hfk tr) as [c Hc]; [by left|]. congruence.
Qed.

Section CreateManual.
Import CandidaturesService.

Lemma createManual_assigned_run dto createdBy s cs t :
  createManualAccepts dto s →
  truthy (CreateManualCandidatureDto.assignedPsychologueId dto) = true →
  ∃ cs' jobApplications,
    let newId := fresh (dom (candidature s)) in
    let jaId := fresh (dom (jobApplication s)) in
    createManual dto createdBy (mkWorld s [] cs t)
    = (mkWorld
         (with_candidature
            (<[newId := manualAssignedRow dto createdBy jaId]> (candidature s))
            (with_jobApplication jobApplications s))
         [] cs' t,
       Returned (newId, manualAssignedRow dto createdBy jaId)).
Proof.
  intros ((cand & Hcand & Hrole) & [st Hsite] & [dp Hdep] & Hprev & Hpsy) Htruthy.
  unfold createManual, findPsychologue, manualAssignedRow. run_monad.
  rewrite Hcand. cbn [fmap option_fmap option_map].
  rewrite bool_decide_eq_false_2 by (rewrite Hrole; by intros []).
  run_monad. rewrite Hsite, Hdep. rewrite Htruthy.
  unfold ifTruthy, truthy in *.
  destruct (CreateManualCandidatureDto.assignedPsychologueId dto) as [pid|];
    [|done].
  destruct (String.eqb pid ""); [done|]. destruct Hpsy as (u & Hu & Hurole).
  destruct (CreateManualCandidatureDto.previousCandidatureId dto) as [prev|];
    [destruct (String.eqb prev ""); [|destruct Hprev as [pc Hpc]]|].
  all: run_monad; rewrite ?Hpc; run_monad; rewrite Hu.
  all: rewrite bool_decide_eq_false_2 by (rewrite Hurole; by intros []).
  all: run_monad; db_simpl; run_monad; db_simpl; cbn [negb].
  all: by eexists _, _.
Qed.

End CreateManual.

Section CreateAssigned.
Import CandidaturesService.

(** What [create] does with an accepted request under a given failure
    schedule, as far as the first two writes are concerned. *)
Lemma create_assigned_run dto assignedBy s fs cs t :
  createAssignedAccepts dto s →
  let newId := fresh (dom (candidature s)) in
  let inserted :=
    with_candidature (<[newId := assignedRow dto assignedBy]> (candidature s)) s in
  ∃ cs',
    create dto assignedBy (mkWorld s fs cs t)
    = match fs with
      | true :: fs' =>
          (mkWorld s fs' cs' t, Thrown (PrismaClientKnownRequestError "P1001"))
      | _ :: true :: fs' =>
          (mkWorld inserted fs' cs' t,
           Thrown (PrismaClientKnownRequestError "P1001"))
      | _ =>
          (mkWorld
             (with_candidatureStateTransition
                (candidatureStateTransition s
                 ++ [CandidatureStateTransition.mk newId
                       (Some CandidatureStatus.pending) CandidatureStatus.assigned
                       assignedBy t (Some "Initial assignment")])
                inserted)
             (tail (tail fs)) cs' t,
           Returned (newId, assignedRow dto assignedBy))
      end.
Proof.
  intros ((ja & Hja & Happroved) & Hnone & Htruthy & Hpsy).
  unfold create, findPsychologue, logTransition, assignedRow. run_monad.
  rewrite Hja. cbn [fmap option_fmap option_map].
  rewrite bool_decide_eq_false_2 by (by rewrite Happroved; intros []).
  rewrite Hnone, Htruthy. unfold ifTruthy, truthy in *.
  destruct (CreateCandidatureDto.assignedPsychologueId dto) as [pid|]; [|done].
  destruct (String.eqb pid ""); [done|]. destruct Hpsy as (u & Hu & Hurole).
  run_monad. rewrite Hu.
  rewrite bool_decide_eq_false_2 by (rewrite Hurole; by intros []).
  destruct fs as [|[] [|[] fs]]; run_monad; db_simpl; run_monad; db_simpl;
    by eexists.
Qed.

End CreateAssigned.

(** C9 (the code departs from it).  When the request names a psychologue
    and passes the reference checks, and the storage calls go through,
    [createManual] returns a new candidature that is already in status
    [assigned], with the psychologue and the assigner recorded, and leaves
    the transition log exactly as it was: in a store whose log refers to
    stored candidatures only, the new candidature has no log entry.  But
    of the assignment metadata it sets only these two fields: the
    assignment date of the new candidature is null.  [create], given an
    accepted request that names a psychologue, returns a candidature in
    status [assigned] too, appends the entry from [pending] to [assigned]
    for it, and leaves the assignment date null as well.
    [assignPsychologue], called by the same user with the same psychologue
    on any stored candidature, records the psychologue, the assigner and
    the assignment date, the time of the call. *)
Theorem createManual_assigned_without_assignment_date
    (dto : CreateManualCandidatureDto.t) (createdBy : string) (w : World Db) :
  faults w = [] →
  createManualAccepts dto (store w) →
  truthy (CreateManualCandidatureDto.assignedPsychologueId dto) = true →
  (∃ w' newId c,
     CandidaturesService.createManual dto createdBy w = (w', Returned (newId, c))
     ∧ candidature (store w) !! newId = None
     ∧ candidature (store w') !! newId = Some c
     ∧ Candidature.status c = CandidatureStatus.assigned
     ∧ Candidature.assignedPsychologueId c
         = CreateManualCandidatureDto.assignedPsychologueId dto
     ∧ Candidature.assignedBy c = Some createdBy
     ∧ Candidature.assignmentDate c = None
     ∧ candidatureStateTransition (store w') = candidatureStateTransition (store w)
     ∧ (logRefersToCandidatures (store w) → transitionsOf newId (store w') = []))
  ∧ (∀ dto2 assignedBy,
       createAssignedAccepts dto2 (store w) →
       ∃ w2 newId c,
         CandidaturesService.create dto2 assignedBy w = (w2, Returned (newId, c))
         ∧ candidature (store w2) !! newId = Some c
         ∧ Candidature.status c = CandidatureStatus.assigned
         ∧ Candidature.assignmentDate c = None
         ∧ candidatureStateTransition (store w2)
           = candidatureStateTransition (store w)
             ++ [CandidatureStateTransition.mk newId
                   (Some CandidatureStatus.pending) CandidatureStatus.assigned
                   assignedBy (clock w) (Some "Initial assignment")])
  ∧ (∀ psychologueId id c0,
       CreateManualCandidatureDto.assignedPsychologueId dto = Some psychologueId →
       candidature (store w) !! id = Some c0 →
       truthy (Some createdBy) = true →
       ∃ w3 c,
         CandidaturesService.assignPsychologue id
           (AssignPsychologueDto.mk psychologueId) createdBy w
           = (w3, Returned (id, c))
         ∧ candidature (store w3) !! id = Some c
         ∧ Candidature.assignedPsychologueId c = Some psychologueId
         ∧ Candidature.assignedBy c = Some createdBy
         ∧ Candidature.assignmentDate c = Some (clock w)).
Proof.
  destruct w as [s fs cs t]. cbn [store faults clock]. intros -> Haccepts Htruthy.
  split_and!.
  - destruct (createManual_assigned_run dto createdBy s cs t Haccepts Htruthy)
      as (cs' & jas & Hrun).
    cbn zeta in Hrun. rewrite Hrun. eexists _, _, _. split; [done|].
    assert (candidature s !! fresh (dom (candidature s)) = None) as Hfresh
      by apply not_elem_of_dom, is_fresh.
    db_simpl. split_and!; try done.
    + apply lookup_insert_eq.
    + intros Hfk. by apply (transitionsOf_fresh _ s).
  - intros dto2 assignedBy Haccepts2.
    destruct (create_assigned_run dto2 assignedBy s [] cs t Haccepts2) as [cs' Hrun].
    cbn zeta in Hrun. rewrite Hrun. eexists _, _, _. split; [done|].
    db_simpl. split_and!; try done. apply lookup_insert_eq.
  - intros pid id c0 Hpid Hc0 Hby.
    destruct Haccepts as (_ & _ & _ & _ & Hpsy).
    rewrite Hpid in Htruthy, Hpsy. unfold truthy, ifTruthy in Htruthy, Hpsy.
    destruct (String.eqb pid ""); [done|]. destruct Hpsy as (u & Hu & Hrole).
    unfold CandidaturesService.assignPsychologue,
      CandidaturesService.findPsychologue, CandidaturesService.logTransition.
    rewrite Hby. cbn [negb AssignPsychologueDto.psychologueId].
    run_monad. rewrite Hc0. run_monad. rewrite Hu.
    rewrite bool_decide_eq_false_2 by (rewrite Hrole; by intros []).
    run_monad.
    case_bool_decide; run_monad; db_simpl; rewrite ?Hc0; run_monad;
      eexists _, _; (split; [done|]); db_simpl;
      (split_and!; [apply lookup_insert_eq|done..]).
Qed.

(** ** Status changes and their log entries *)

Section Atomicity.
Import CandidaturesService.

Ltac paired_cases fs Hc :=
  destruct fs as [|[] [|[] [|[] fs]]]; run_monad; db_simpl; rewrite ?Hc;
  run_monad; db_simpl; try (by left).

Lemma archive_paired id archivedBy (w : World Db) :
  statusAndLogPaired id (store w) (store (archive id archivedBy w).1).
Proof.
  destruct w as [s fs cs t]. cbn [store]. unfold archive, logTransition.
  run_monad. destruct (candidature s !! id) as [c|] eqn:Hc; [|by left].
  case_bool_decide as Hstatus; [by left|].
  paired_cases fs Hc.
  all: right; eexists c, _; split_and!; [done..|right].
  all: cbn [Candidature.status]; rewrite Hstatus; split; [done|by eexists _, _, _].
Qed.

Lemma makeDecision_paired id dto decidedBy (w : World Db) :
  statusAndLogPaired id (store w) (store (makeDecision id dto decidedBy w).1).
Proof.
  destruct w as [s fs cs t]. cbn [store]. unfold makeDecision, logTransition.
  run_monad. destruct (candidature s !! id) as [c|] eqn:Hc; [|by left].
  case_bool_decide as Hstatus; cbn [negb]; [|by left].
  paired_cases fs Hc.
  all: right; eexists c, _; split_and!; [done..|right].
  all: cbn [Candidature.status]; split; [|by eexists _, _, _].
  all: apply list_elem_of_In in Hstatus; cbn in Hstatus.
  all: intros Heq; rewrite <- Heq in Hstatus; naive_solver.
Qed.

Lemma assignPsychologue_paired id dto assignedBy (w : World Db) :
  statusAndLogPaired id (store w) (store (assignPsychologue id dto assignedBy w).1).
Proof.
  destruct w as [s fs cs t]. cbn [store].
  unfold assignPsychologue, findPsychologue, logTransition.
  destruct (negb (truthy (Some assignedBy))); [by left|].
  run_monad. destruct (candidature s !! id) as [c|] eqn:Hc; [|by left].
  destruct (user s !! AssignPsychologueDto.psychologueId dto) as [u|]; [|by left].
  case_bool_decide; [by left|]. run_monad.
  case_bool_decide as Hstatus.
  - paired_cases fs Hc.
    all: right; eexists c, _; split_and!; [done..|right].
    all: cbn [Candidature.status]; rewrite Hstatus; split; [done|by eexists _, _, _].
  - paired_cases fs Hc.
    all: right; eexists c, _; split_and!; [done..|left].
    all: by rewrite with_transition_nil || done.
Qed.

Lemma assignTests_paired id dto assignedBy (w : World Db) :
  statusAndLogPaired id (store w) (store (assignTests id dto assignedBy w).1).
Proof.
  destruct (assignTests id dto assignedBy w) as [w1 [r|e]] eqn:Hrun; cbn [fst].
  - apply assignTests_Returned in Hrun as (c & (Hc & _) & _ & ->).
    right. eexists c, _. unfold testsAssignedStore, testsAssignedLog. db_simpl.
    split_and!; [done..|]. cbn [Candidature.status testsAssignedRow].
    case_bool_decide as Hne.
    + right. split; [done|]. by eexists _, _, _.
    + left. by rewrite (right_id_L [] (++)).
  - left. by eapply assignTests_Thrown.
Qed.

End Atomicity.

(** Name the row a concrete store holds under a concrete key. *)
Ltac stored_row :=
  lazymatch goal with
  | |- ∃ x, _ ∧ ?m !! ?k = Some x ∧ _ =>
      let v := eval vm_compute in (m !! k) in
      lazymatch v with Some ?x => exists x end
  | |- ∃ x, ?m !! ?k = Some x ∧ _ =>
      let v := eval vm_compute in (m !! k) in
      lazymatch v with Some ?x => exists x end
  end.

(** ** Creation from an application is not atomic *)

(** The four methods that change a status inside [$transaction] keep the
    status and its log entry together, whichever storage calls fail. *)
Lemma transactional_status_changes_paired (id : string) (w : World Db) :
  (∀ dto assignedBy,
     statusAndLogPaired id (store w)
       (store (CandidaturesService.assignPsychologue id dto assignedBy w).1))
  ∧ (∀ dto assignedBy,
       statusAndLogPaired id (store w)
         (store (CandidaturesService.assignTests id dto assignedBy w).1))
  ∧ (∀ dto decidedBy,
       statusAndLogPaired id (store w)
         (store (CandidaturesService.makeDecision id dto decidedBy w).1))
  ∧ (∀ archivedBy,
       statusAndLogPaired id (store w)
         (store (CandidaturesService.archive id archivedBy w).1)).
Proof.
  split_and!; intros.
  - apply assignPsychologue_paired.
  - apply assignTests_paired.
  - apply makeDecision_paired.
  - apply archive_paired.
Qed.

(** C1 (the code departs from it).  [create] inserts the candidature and
    then writes the log entry as two separate storage calls, outside any
    transaction.  With an approved job application, a valid psychologue in
    the request, and a failure schedule in which the first write goes
    through and the second fails, [create] throws, and the store it leaves
    holds the new candidature in status [assigned] while the log has no
    entry at all. *)
Theorem create_assignment_persists_without_log :
  let dto := CreateCandidatureDto.mk "ja-1" None (Some "psy-1") None in
  let w := mkWorld db_recruitment [false; true] [] noon in
  let w' := (CandidaturesService.create dto "admin-1" w).1 in
  createAssignedAccepts dto (store w)
  ∧ (CandidaturesService.create dto "admin-1" w).2
      = Thrown (PrismaClientKnownRequestError "P1001")
  ∧ ∃ newId c,
      candidature (store w) !! newId = None
      ∧ candidature (store w') !! newId = Some c
      ∧ Candidature.status c = CandidatureStatus.assigned
      ∧ candidatureStateTransition (store w') = []
      ∧ transitionsOf newId (store w') = [].
Proof.
  cbn zeta. split_and!.
  - unfold createAssignedAccepts, ifTruthy. split_and!; [|by vm_compute..|].
    + stored_row. split; by vm_compute.
    + cbn. stored_row. split; by vm_compute.
  - by vm_compute.
  - exists "0". stored_row. split_and!; by vm_compute.
Qed.

(** ** The properties on the worked store *)

(** C2 on the worked store, whose test "test-1" holds the ranges 0-20 and
    21-44: the set (1, 0-20), (2, 15-44) is rejected and nothing changes;
    the set (2, 21-50), (1, 0-20) replaces the stored one. *)
Lemma upsertClassifications_rejects_or_replaces_witness :
  let w := reliable db_recruitment noon in
  let overlapping := [item 1 0 20 "Faible"; item 2 15 44 "Bien"] in
  let valid := [item 2 21 50 "Bien"; item 1 0 20 "Faible"] in
  let rejected :=
    TestsService.upsertClassifications "test-1"
      (UpsertClassificationsDto.mk overlapping) w in
  let replaced :=
    TestsService.upsertClassifications "test-1"
      (UpsertClassificationsDto.mk valid) w in
  is_Some (logicalTest (store w) !! "test-1")
  ∧ someAdjacentOverlap
      (sortBy ScoreClassificationItemDto.displayOrder overlapping)
  ∧ (∃ msg, rejected.2 = Thrown (BadRequestException msg))
  ∧ store rejected.1 = store w
  ∧ (∃ views, replaced.2 = Returned views)
  ∧ Forall2 (storesItem "test-1" (store replaced.1))
      (TestsService.classificationsOf "test-1" (store replaced.1)) valid
  ∧ validRanges
      (rowRange <$> sortBy ScoreClassification.displayOrder
                      (TestsService.classificationsOf "test-1" (store replaced.1))).
Proof.
  cbn zeta.
  assert (is_Some (logicalTest (store (reliable db_recruitment noon)) !! "test-1"))
    as Htest by (vm_compute; by eexists).
  assert (someAdjacentOverlap
            (sortBy ScoreClassificationItemDto.displayOrder
               [item 1 0 20 "Faible"; item 2 15 44 "Bien"])) as Hoverlap.
  { exists 0%nat, (item 1 0 20 "Faible"), (item 2 15 44 "Bien").
    split_and!; by vm_compute. }
  destruct (upsertClassifications_rejects_or_replaces "test-1"
              [item 1 0 20 "Faible"; item 2 15 44 "Bien"]
              (reliable db_recruitment noon) _ _ (surjective_pairing _))
    as (Hreject & _ & _).
  destruct (Hreject Htest (or_intror Hoverlap)) as [Hmsg Hstore].
  destruct (upsertClassifications_rejects_or_replaces "test-1"
              [item 2 21 50 "Bien"; item 1 0 20 "Faible"]
              (reliable db_recruitment noon) _ _ (surjective_pairing _))
    as (_ & _ & Hreplace).
  assert (∃ views,
            (TestsService.upsertClassifications "test-1"
               (UpsertClassificationsDto.mk
                  [item 2 21 50 "Bien"; item 1 0 20 "Faible"])
               (reliable db_recruitment noon)).2 = Returned views) as [views Hviews]
    by (vm_compute; by eexists).
  destruct (Hreplace views Hviews) as [Hstored Hvalid].
  split_and!; [done..|by exists views|done|done].
Defined.

(** C4 on the worked store: the evaluated candidature is archived with
    its log entry, the pending one is refused. *)
Lemma archive_only_from_evaluated_witness :
  let w := reliable db_recruitment noon in
  candidature (store w) !! "cand-9" = Some row_evaluated
  ∧ Candidature.status row_evaluated = CandidatureStatus.evaluated
  ∧ (∃ w', CandidaturesService.archive "cand-9" "admin-1" w
           = (w', Returned ("cand-9", archivedRow row_evaluated))
           ∧ candidatureStateTransition (store w')
             = [CandidatureStateTransition.mk "cand-9"
                  (Some CandidatureStatus.evaluated) CandidatureStatus.archived
                  "admin-1" noon (Some "Archived")])
  ∧ candidature (store w) !! "cand-8" = Some row_pending
  ∧ Candidature.status row_pending ≠ CandidatureStatus.evaluated
  ∧ (∃ w' msg, CandidaturesService.archive "cand-8" "admin-1" w
               = (w', Thrown (BadRequestException msg))
               ∧ store w' = store w).
Proof.
  cbn zeta.
  assert (candidature (store (reliable db_recruitment noon)) !! "cand-9"
          = Some row_evaluated) as H9 by (by vm_compute).
  assert (candidature (store (reliable db_recruitment noon)) !! "cand-8"
          = Some row_pending) as H8 by (by vm_compute).
  destruct (archive_only_from_evaluated "cand-9" "admin-1"
              (reliable db_recruitment noon) row_evaluated H9) as [Harchive _].
  destruct (Harchive eq_refl eq_refl) as (w' & Hrun & Hstore & _).
  destruct (archive_only_from_evaluated "cand-8" "admin-1"
              (reliable db_recruitment noon) row_pending H8) as [_ Hrefuse].
  assert (Candidature.status row_pending ≠ CandidatureStatus.evaluated) as Hne
    by (by intros [=]).
  split_and!; [done|done| |done|done|by apply Hrefuse].
  exists w'. split; [done|]. by rewrite Hstore.
Defined.

(** C5 on the worked store: the approved application gets its pending
    candidature once, the pending application gets none. *)
Lemma create_once_from_approved_application_witness :
  let w := reliable db_recruitment noon in
  let dto := CreateCandidatureDto.mk "ja-1" (Some "DP-2026-001") None None in
  let dto2 := CreateCandidatureDto.mk "ja-2" None None None in
  jobApplication (store w) !! "ja-1" = Some application_approved
  ∧ candidatureOf "ja-1" (candidature (store w)) = None
  ∧ (∃ w' newId,
       CandidaturesService.create dto "admin-1" w = (w', Returned (newId, pendingRow dto))
       ∧ ∃ w'' msg,
           CandidaturesService.create dto "admin-1" (mkWorld (store w') [] [] noon)
           = (w'', Thrown (ConflictException msg)))
  ∧ jobApplication (store w) !! "ja-2" = Some application_pending
  ∧ (∃ w' msg, CandidaturesService.create dto2 "admin-1" w
               = (w', Thrown (BadRequestException msg))
               ∧ store w' = store w).
Proof.
  cbn zeta.
  assert (jobApplication (store (reliable db_recruitment noon)) !! "ja-1"
          = Some application_approved) as H1 by (by vm_compute).
  assert (jobApplication (store (reliable db_recruitment noon)) !! "ja-2"
          = Some application_pending) as H2 by (by vm_compute).
  assert (candidatureOf "ja-1" (candidature (store (reliable db_recruitment noon)))
          = None) as Hnone by (by vm_compute).
  destruct (create_once_from_approved_application
              (CreateCandidatureDto.mk "ja-1" (Some "DP-2026-001") None None)
              "admin-1" (reliable db_recruitment noon) application_approved H1)
    as [_ Hcreate].
  destruct (Hcreate eq_refl Hnone eq_refl eq_refl)
    as (w' & newId & Hrun & _ & _ & Hagain).
  destruct (Hagain (CreateCandidatureDto.mk "ja-1" (Some "DP-2026-001") None None)
              "admin-1" [] [] noon eq_refl) as (w'' & msg & Hconflict & _).
  destruct (create_once_from_approved_application
              (CreateCandidatureDto.mk "ja-2" None None None)
              "admin-1" (reliable db_recruitment noon) application_pending H2)
    as [Hrefuse _].
  split_and!; [done|done| |done|].
  - exists w', newId. split; [done|]. by exists w'', msg.
  - apply Hrefuse. by intros [=].
Defined.

(** C6 on the worked store: tests are assigned to the pending candidature,
    one entry is logged, and the same call a day later changes nothing. *)
Lemma assignTests_idempotent_witness :
  let w := reliable db_recruitment noon in
  let dto := AssignTestsDto.mk "test-1" None None (Some "2026-03-01T09:00:00Z") None in
  let first := CandidaturesService.assignTests "cand-8" dto "admin-1" w in
  let r := ("cand-8", testsAssignedRow dto (Some "pt-1") row_pending) in
  first = (first.1, Returned r)
  ∧ Candidature.status r.2 = CandidatureStatus.assigned
  ∧ length (candidatureStateTransition (store first.1)) = 1%nat
  ∧ ∃ w2, CandidaturesService.assignTests "cand-8" dto "admin-1"
            (mkWorld (store first.1) [] [] "2026-02-11T08:00:00Z")
          = (w2, Returned r)
          ∧ store w2 = store first.1.
Proof.
  cbn zeta.
  assert (CandidaturesService.assignTests "cand-8"
            (AssignTestsDto.mk "test-1" None None (Some "2026-03-01T09:00:00Z") None)
            "admin-1" (reliable db_recruitment noon)
          = ((CandidaturesService.assignTests "cand-8"
                (AssignTestsDto.mk "test-1" None None
                   (Some "2026-03-01T09:00:00Z") None)
                "admin-1" (reliable db_recruitment noon)).1,
             Returned ("cand-8",
                       testsAssignedRow
                         (AssignTestsDto.mk "test-1" None None
                            (Some "2026-03-01T09:00:00Z") None)
                         (Some "pt-1") row_pending))) as Hrun
    by (by vm_compute).
  destruct (assignTests_idempotent _ _ _ _ _ _ Hrun)
    as (c & entries & _ & _ & Hstatus & _ & _ & _ & _ & Hagain).
  split_and!; [done|done|by vm_compute|apply Hagain].
Defined.

(** C9 on the worked store: a manual candidature for the candidate,
    assigned to the psychologue on creation, has an empty log and no
    assignment date; the pending candidature given the same psychologue
    through [assignPsychologue] gets the date of the call. *)
Lemma createManual_assigned_without_assignment_date_witness :
  let w := reliable db_recruitment noon in
  let dto := CreateManualCandidatureDto.mk "user-1" "site-1" "dep-1"
               (Some "Operator") None (Some "psy-1") None in
  createManualAccepts dto (store w)
  ∧ (∃ w' newId c,
       CandidaturesService.createManual dto "admin-1" w = (w', Returned (newId, c))
       ∧ Candidature.status c = CandidatureStatus.assigned
       ∧ Candidature.assignedPsychologueId c = Some "psy-1"
       ∧ Candidature.assignedBy c = Some "admin-1"
       ∧ Candidature.assignmentDate c = None
       ∧ candidatureStateTransition (store w') = [])
  ∧ ∃ w3 c,
      CandidaturesService.assignPsychologue "cand-8"
        (AssignPsychologueDto.mk "psy-1") "admin-1" w
        = (w3, Returned ("cand-8", c))
      ∧ Candidature.assignmentDate c = Some noon.
Proof.
  cbn zeta.
  assert (createManualAccepts
            (CreateManualCandidatureDto.mk "user-1" "site-1" "dep-1"
               (Some "Operator") None (Some "psy-1") None)
            (store (reliable db_recruitment noon))) as Haccepts.
  { unfold createManualAccepts, ifTruthy. cbn. split_and!; [| | |done|].
    - stored_row. split; by vm_compute.
    - vm_compute. by eexists.
    - vm_compute. by eexists.
    - stored_row. split; by vm_compute. }
  destruct (createManual_assigned_without_assignment_date
              (CreateManualCandidatureDto.mk "user-1" "site-1" "dep-1"
                 (Some "Operator") None (Some "psy-1") None)
              "admin-1" (reliable db_recruitment noon) eq_refl Haccepts eq_refl)
    as ((w' & newId & c & Hrun & _ & _ & Hstatus & Hpsy & Hby & Hdate & Hlog & _)
        & _ & Hassign).
  destruct (Hassign "psy-1" "cand-8" row_pending eq_refl)
    as (w3 & c3 & Hrun3 & _ & _ & _ & Hdate3); [by vm_compute|done|].
  split_and!; [done| |].
  - exists w', newId, c. split_and!; [done..|]. by rewrite Hlog.
  - exists w3, c3. split; [exact Hrun3|exact Hdate3].
Defined.

(** C10 on the worked store: assigning the psychologue to the pending
    candidature through [update] keeps it pending and logs nothing. *)
Lemma update_keeps_status_and_log_witness :
  let w := reliable db_recruitment noon in
  let dto := UpdateCandidatureDto.mk None None (Some "psy-1") in
  let run := CandidaturesService.update "cand-8" dto "admin-1" w in
  run.2 = Returned ("cand-8", updatedRow dto "admin-1" row_pending)
  ∧ Candidature.assignedPsychologueId (updatedRow dto "admin-1" row_pending)
    = Some "psy-1"
  ∧ Candidature.status (updatedRow dto "admin-1" row_pending)
    = CandidatureStatus.pending
  ∧ candidatureStateTransition (store run.1)
    = candidatureStateTransition (store w).
Proof.
  cbn zeta.
  destruct (update_keeps_status_and_log "cand-8"
              (UpdateCandidatureDto.mk None None (Some "psy-1")) "admin-1"
              (reliable db_recruitment noon) _ _ (surjective_pairing _))
    as (Hlog & _ & _).
  split_and!; [by vm_compute|done|done|exact Hlog].
Defined.

(** * The rest of the services

    Properties of the methods around the ones above: the language
    registry, the upserts and batch lookups of translations, decisions and
    assignments, the lifecycle as a whole, the dashboard counts and the
    classification views. *)

(** ** Validation of language codes *)

Section ValidateLanguageCodes.
Import TranslationsService.

Lemma elem_of_newSet c seen codes :
  c ∈ newSet seen codes ↔ c ∈ codes ∧ c ∉ seen.
Proof.
  revert seen. induction codes as [|x codes IH]; intros seen; cbn.
  - split; [by intros ?%elem_of_nil|by intros [?%elem_of_nil _]].
  - case_bool_decide as Hx.
    + rewrite IH, elem_of_cons. split; [naive_solver|].
      intros [[->|Hin] Hseen]; by eauto.
    + rewrite !elem_of_cons, IH, not_elem_of_cons.
      destruct (decide (c = x)) as [->|Hne]; naive_solver.
Qed.

Lemma NoDup_newSet seen codes : NoDup (newSet seen codes).
Proof.
  revert seen. induction codes as [|x codes IH]; intros seen; cbn.
  - constructor.
  - case_bool_decide; [done|]. constructor; [|done].
    rewrite elem_of_newSet, not_elem_of_cons. naive_solver.
Qed.

Lemma active_codes_found (uniqueCodes : list string) db c :
  c ∈ uniqueCodes →
  c ∈ Language.code <$>
        filter (λ l, Language.code l ∈ uniqueCodes ∧ Language.isActive l = true)
          (language db)
  ↔ activeLanguage c db.
Proof.
  intros Hc. rewrite list_elem_of_fmap. unfold activeLanguage. split.
  - intros (l & -> & ((_ & Hactive) & Hin)%list_elem_of_filter). by exists l.
  - intros (l & Hin & <- & Hactive). exists l. split; [done|].
    by apply list_elem_of_filter.
Qed.

(** [validateLanguageCodes] makes exactly one call on the client, a
    [findMany] on the language registry for the distinct codes of its
    input, and writes nothing.  It returns exactly when every code names an
    active language; otherwise it throws a [BadRequestException] whose
    message lists, once each and in the order of their first appearance in
    the input, the codes that do not. *)
Theorem validateLanguageCodes_accepts_iff_all_active (codes : list string)
    (w : World Db) :
  let run := validateLanguageCodes codes w in
  store run.1 = store w
  ∧ faults run.1 = faults w
  ∧ calls run.1 = calls w ++ [mkCall "language" "findMany" (newSet [] codes)]
  ∧ length (callsOn "language" (calls run.1))
    = Datatypes.S (length (callsOn "language" (calls w)))
  ∧ (run.2 = Returned () ↔ ∀ c, c ∈ codes → activeLanguage c (store w))
  ∧ (run.2 ≠ Returned () →
     ∃ invalidCodes,
       run.2 = Thrown (BadRequestException
                         ("Invalid or inactive language codes: "
                          +:+ join ", " invalidCodes))
       ∧ NoDup invalidCodes
       ∧ invalidCodes `sublist_of` newSet [] codes
       ∧ ∀ c, c ∈ invalidCodes ↔ c ∈ codes ∧ ¬ activeLanguage c (store w)).
Proof.
  cbn zeta. unfold validateLanguageCodes, bind, query, throw, ret. cbn.
  set (uniqueCodes := newSet [] codes).
  set (languages := Language.code <$> filter _ (language (store w))).
  set (invalidCodes := filter (λ c, c ∉ languages) uniqueCodes).
  assert (∀ c, c ∈ codes → c ∈ languages ↔ activeLanguage c (store w))
    as Hfound.
  { intros c Hin. apply active_codes_found, elem_of_newSet.
    split; [done|apply not_elem_of_nil]. }
  assert (∀ c, c ∈ invalidCodes ↔ c ∈ codes ∧ ¬ activeLanguage c (store w))
    as Hinvalid.
  { intros c. unfold invalidCodes. rewrite list_elem_of_filter.
    unfold uniqueCodes at 1. rewrite elem_of_newSet. split.
    - intros (Hnot & Hin & _). split; [done|]. by rewrite <- Hfound.
    - intros (Hin & Hnot). split_and!; [|done|apply not_elem_of_nil].
      by rewrite Hfound. }
  assert (length (callsOn "language"
                    (calls w ++ [mkCall "language" "findMany" uniqueCodes]))
          = Datatypes.S (length (callsOn "language" (calls w)))) as Hcalls.
  { rewrite callsOn_app, callsOn_cons_same, callsOn_nil, length_app. cbn. lia. }
  case_bool_decide as Hlen; cbn; split_and!; try done.
  - split; [done|]. intros Hall. exfalso.
    destruct invalidCodes as [|c l] eqn:Heq; [cbn in Hlen; lia|].
    destruct (Hinvalid c) as [Hc _]. destruct Hc as [Hin Hnot]; [by left|].
    by apply Hnot, Hall.
  - intros _. exists invalidCodes. split_and!; [done| | |done].
    + apply NoDup_filter, NoDup_newSet.
    + apply sublist_filter.
  - split; [|done]. intros _ c Hin.
    apply Hfound; [done|].
    destruct (decide (c ∈ languages)) as [|Hnot]; [done|].
    exfalso. assert (c ∈ invalidCodes) as Hc.
    { apply Hinvalid. split; [done|]. by rewrite <- Hfound. }
    destruct invalidCodes; [by apply elem_of_nil in Hc|cbn in Hlen; lia].
Qed.

End ValidateLanguageCodes.

(** ** The language registry *)

Section Registry.
Import TranslationsService.

Lemma with_language_same s : with_language (language s) s = s.
Proof. by destruct s. Qed.

Lemma with_language_twice rows rows' s :
  with_language rows (with_language rows' s) = with_language rows s.
Proof. done. Qed.

Lemma find_code_Some code rows l :
  find (λ l, bool_decide (Language.code l = code)) rows = Some l →
  l ∈ rows ∧ Language.code l = code.
Proof.
  intros [Hin Hc]%find_some. apply bool_decide_eq_true in Hc.
  by rewrite list_elem_of_In.
Qed.

Lemma find_code_None code rows :
  find (λ l, bool_decide (Language.code l = code)) rows = None →
  code ∉ Language.code <$> rows.
Proof.
  intros Hnone (l & -> & Hin)%list_elem_of_fmap.
  apply list_elem_of_In in Hin.
  pose proof (find_none _ _ Hnone l Hin) as Hl. cbn in Hl.
  by rewrite bool_decide_eq_true_2 in Hl.
Qed.

Lemma unique_code_eq rows l1 l2 :
  NoDup (Language.code <$> rows) →
  l1 ∈ rows → l2 ∈ rows → Language.code l1 = Language.code l2 → l1 = l2.
Proof.
  induction rows as [|r rows IH]; cbn; [by intros _ ?%elem_of_nil|].
  intros [Hr Hrows]%NoDup_cons [->|H1]%elem_of_cons [->|H2]%elem_of_cons Hc;
    [done| | |by apply IH].
  - exfalso. apply Hr. rewrite Hc. by apply list_elem_of_fmap_2.
  - exfalso. apply Hr. rewrite <- Hc. by apply list_elem_of_fmap_2.
Qed.

Section Update.
Context (code : string) (f : Language.t → Language.t).
Hypothesis f_code : ∀ l, Language.code (f l) = Language.code l.

Lemma codes_updateLanguage rows :
  Language.code <$> updateLanguage code f rows = Language.code <$> rows.
Proof.
  unfold updateLanguage. rewrite <- list_fmap_compose.
  apply list_fmap_ext. intros i l _. cbn. by case_bool_decide.
Qed.

Lemma find_updateLanguage_same rows :
  find (λ l, bool_decide (Language.code l = code)) (updateLanguage code f rows)
  = f <$> find (λ l, bool_decide (Language.code l = code)) rows.
Proof.
  unfold updateLanguage. induction rows as [|r rows IH]; [done|]. cbn.
  destruct (decide (Language.code r = code)) as [Hr|Hr].
  - rewrite (bool_decide_eq_true_2 _ Hr).
    by rewrite bool_decide_eq_true_2 by by rewrite f_code.
  - rewrite (bool_decide_eq_false_2 _ Hr).
    by rewrite bool_decide_eq_false_2 by done.
Qed.

Lemma find_updateLanguage_other c rows :
  c ≠ code →
  find (λ l, bool_decide (Language.code l = c)) (updateLanguage code f rows)
  = find (λ l, bool_decide (Language.code l = c)) rows.
Proof.
  intros Hc. unfold updateLanguage. induction rows as [|r rows IH]; [done|]. cbn.
  destruct (decide (Language.code r = code)) as [Hr|Hr].
  - rewrite (bool_decide_eq_true_2 _ Hr).
    rewrite !bool_decide_eq_false_2 by (rewrite ?f_code; congruence). done.
  - rewrite (bool_decide_eq_false_2 _ Hr). by rewrite IH.
Qed.

Lemma find_default_updateLanguage rows :
  (∀ l, Language.isDefault (f l) = Language.isDefault l) →
  Language.code <$> find Language.isDefault (updateLanguage code f rows)
  = Language.code <$> find Language.isDefault rows.
Proof.
  intros f_default. unfold updateLanguage. induction rows as [|r rows IH]; [done|]. cbn.
  case_bool_decide; rewrite ?f_default; destruct (Language.isDefault r); cbn;
    by rewrite ?f_code.
Qed.

End Update.

Lemma find_default_app_non_default rows l :
  Language.isDefault l = false →
  find Language.isDefault (rows ++ [l]) = find Language.isDefault rows.
Proof.
  intros Hl. induction rows as [|r rows IH]; cbn; [by rewrite Hl|].
  by destruct (Language.isDefault r).
Qed.

Lemma activeLanguage_languageRow c db :
  uniqueLanguageCodes db →
  activeLanguage c db
  ↔ ∃ l, languageRow c db = Some l ∧ Language.isActive l = true.
Proof.
  intros Hunique. unfold activeLanguage, languageRow. split.
  - intros (l & Hin & Hc & Hactive).
    destruct (find _ (language db)) as [l'|] eqn:Hfind.
    + apply find_code_Some in Hfind as [Hin' Hc'].
      exists l'. split; [done|].
      assert (l' = l) as ->; [|done].
      apply (unique_code_eq (language db)); [done..|congruence].
    + apply find_code_None in Hfind. exfalso. apply Hfind.
      rewrite <- Hc. by apply list_elem_of_fmap_2.
  - intros (l & [Hin Hc]%find_code_Some & Hactive). by exists l.
Qed.

(** The registry's default language cannot be changed through
    [upsertLanguage] or [toggleLanguageActive]: whatever they are called
    with and whichever storage call fails, [getDefaultLanguageCode] answers
    afterwards what it answered before; the registry keeps one row per
    code; and if every language flagged default was active, that is still
    so. *)
Theorem registry_default_unchanged (w : World Db) :
  (∀ dto,
     let w' := (upsertLanguage dto w).1 in
     (getDefaultLanguageCode w').2 = (getDefaultLanguageCode w).2
     ∧ (uniqueLanguageCodes (store w) → uniqueLanguageCodes (store w'))
     ∧ (uniqueLanguageCodes (store w) → defaultLanguagesActive (store w) →
        defaultLanguagesActive (store w')))
  ∧ (∀ code,
       let w' := (toggleLanguageActive code w).1 in
       (getDefaultLanguageCode w').2 = (getDefaultLanguageCode w).2
       ∧ (uniqueLanguageCodes (store w) → uniqueLanguageCodes (store w'))
       ∧ (uniqueLanguageCodes (store w) → defaultLanguagesActive (store w) →
          defaultLanguagesActive (store w'))).
Proof.
  destruct w as [s fs cs t]. split.
  - intros dto. cbn zeta.
    unfold upsertLanguage, getDefaultLanguageCode, uniqueLanguageCodes,
      defaultLanguagesActive.
    run_monad.
    destruct fs as [|[] fs]; [|by split_and!|];
      (destruct (find _ (language s)) as [l|] eqn:Hfind; cbn;
       [apply find_code_Some in Hfind as [Hin Hcode]
       |apply find_code_None in Hfind]).
    all: split_and!.
    all: rewrite ?codes_updateLanguage by done; try done.
    all: try (f_equal;
              match goal with
              | |- context [find _ (updateLanguage ?c ?f ?rows)] =>
                  pose proof (find_default_updateLanguage c f (λ _, eq_refl)
                                rows (λ _, eq_refl)) as Hd;
                  destruct (find _ (updateLanguage c f rows)),
                    (find _ rows); cbn in Hd; congruence
              | |- _ => by rewrite find_default_app_non_default
              end).
    all: try (intros Hunique; rewrite fmap_app; apply NoDup_app;
              split_and!; [done| |apply NoDup_singleton];
              by intros c Hc ->%list_elem_of_singleton).
    all: intros Hunique Hactive d.
    all: unfold updateLanguage; rewrite ?list_elem_of_fmap, ?elem_of_app.
    all: try (intros (r & -> & Hr); case_bool_decide; cbn; by apply Hactive).
    all: intros [Hd| ->%list_elem_of_singleton]; [by apply Hactive|done].
  - intros code. cbn zeta.
    unfold toggleLanguageActive, getDefaultLanguageCode, uniqueLanguageCodes,
      defaultLanguagesActive.
    run_monad.
    destruct (find _ (language s)) as [l|] eqn:Hfind; [|by split_and!].
    destruct (Language.isDefault l) eqn:Hdefault; [by split_and!|].
    run_monad. rewrite Hfind.
    destruct fs as [|[] fs]; [|by split_and!|]; cbn.
    all: apply find_code_Some in Hfind as [Hin Hcode].
    all: split_and!.
    all: rewrite ?codes_updateLanguage by done; try done.
    all: try (f_equal;
              match goal with
              | |- context [find _ (updateLanguage ?c ?f ?rows)] =>
                  pose proof (find_default_updateLanguage c f (λ _, eq_refl)
                                rows (λ _, eq_refl)) as Hd;
                  destruct (find _ (updateLanguage c f rows)),
                    (find _ rows); cbn in Hd; congruence
              end).
    all: intros Hunique Hactive d.
    all: unfold updateLanguage; rewrite list_elem_of_fmap.
    all: intros (r & -> & Hr); case_bool_decide as Hrc; cbn; [|by apply Hactive].
    all: assert (r = l) as ->
           by (apply (unique_code_eq (language s)); [done..|congruence]).
    all: by rewrite Hdefault.
Qed.

End Registry.

Section RegistryEffects.
Import TranslationsService.

(** [toggleLanguageActive]: an unknown code is answered with a
    [NotFoundException] and a language flagged default with a
    [BadRequestException], both without a write.  For any other language of
    a registry with one row per code, when the storage call goes through,
    the method returns the row with the active flag inverted, which is the
    only change to the store: every other language keeps its row, the
    language is active afterwards exactly if it was not before, and a
    second call restores the store. *)
Theorem toggleLanguageActive_flips_non_default (code : string) (w : World Db) :
  (languageRow code (store w) = None →
   ∃ w' msg,
     toggleLanguageActive code w = (w', Thrown (NotFoundException msg))
     ∧ store w' = store w)
  ∧ (∀ l, languageRow code (store w) = Some l → Language.isDefault l = true →
       ∃ w' msg,
         toggleLanguageActive code w = (w', Thrown (BadRequestException msg))
         ∧ store w' = store w)
  ∧ (∀ l, languageRow code (store w) = Some l → Language.isDefault l = false →
       uniqueLanguageCodes (store w) → faults w = [] →
       let flipped :=
         Language.mk code (Language.name l) (negb (Language.isActive l)) false in
       ∃ w',
         toggleLanguageActive code w = (w', Returned flipped)
         ∧ store w' = with_language (language (store w')) (store w)
         ∧ languageRow code (store w') = Some flipped
         ∧ (∀ c, c ≠ code → languageRow c (store w') = languageRow c (store w))
         ∧ (activeLanguage code (store w') ↔ ¬ activeLanguage code (store w))
         ∧ store (toggleLanguageActive code w').1 = store w).
Proof.
  destruct w as [s fs cs t]. cbn [store faults]. unfold languageRow.
  split_and!.
  - intros Hfind. unfold toggleLanguageActive. run_monad. rewrite Hfind.
    by eexists _, _.
  - intros l Hfind Hdefault. unfold toggleLanguageActive. run_monad.
    rewrite Hfind, Hdefault. by eexists _, _.
  - intros l Hfind Hdefault Hunique ->. cbn zeta.
    pose proof Hfind as [Hin Hcode]%find_code_Some.
    set (flip := λ r, Language.mk (Language.code r) (Language.name r)
                        (negb (Language.isActive l)) (Language.isDefault r)).
    assert (find (λ l, bool_decide (Language.code l = code))
              (updateLanguage code flip (language s)) = Some (flip l)) as Hfind'.
    { by rewrite find_updateLanguage_same, Hfind. }
    assert (flip l = Language.mk code (Language.name l)
                       (negb (Language.isActive l)) false) as Hflip.
    { unfold flip. by rewrite Hcode, Hdefault. }
    assert (∃ cs',
              toggleLanguageActive code (mkWorld s [] cs t)
              = (mkWorld (with_language (updateLanguage code flip (language s)) s)
                   [] cs' t,
                 Returned (Language.mk code (Language.name l)
                             (negb (Language.isActive l)) false)))
      as [cs' Hrun].
    { unfold toggleLanguageActive. run_monad. rewrite Hfind, Hdefault.
      run_monad. rewrite Hfind, Hcode, Hdefault. by eexists. }
    eexists. split; [exact Hrun|]. cbn [store language with_language].
    split_and!.
    + done.
    + by rewrite Hfind', Hflip.
    + intros c Hc. by apply find_updateLanguage_other.
    + assert (uniqueLanguageCodes
                (with_language (updateLanguage code flip (language s)) s))
        as Hunique'.
      { unfold uniqueLanguageCodes. cbn. by rewrite codes_updateLanguage. }
      rewrite !activeLanguage_languageRow by done.
      unfold languageRow. cbn [language with_language].
      rewrite Hfind', Hfind, Hflip. split.
      * intros (l1 & [= <-] & Hactive) (l2 & [= <-] & Hactive').
        cbn in Hactive. by rewrite Hactive' in Hactive.
      * intros Hnot. eexists. split; [done|]. cbn.
        destruct (Language.isActive l) eqn:Ha; [|done].
        exfalso. apply Hnot. by eexists.
    + set (flipBack := λ r, Language.mk (Language.code r) (Language.name r)
                              (negb (negb (Language.isActive l)))
                              (Language.isDefault r)).
      assert (∃ cs'' r,
                toggleLanguageActive code
                  (mkWorld (with_language (updateLanguage code flip (language s)) s)
                     [] cs' t)
                = (mkWorld
                     (with_language
                        (updateLanguage code flipBack
                           (updateLanguage code flip (language s)))
                        (with_language (updateLanguage code flip (language s)) s))
                     [] cs'' t,
                   Returned r))
        as (cs'' & r & ->).
      { unfold toggleLanguageActive. run_monad. cbn [language with_language].
        rewrite Hfind', Hflip. cbn [Language.isDefault]. run_monad.
        cbn [language with_language]. rewrite Hfind'. by eexists _, _. }
      cbn [fst store]. unfold flipBack.
      rewrite with_language_twice.
      transitivity (with_language (language s) s); [|apply with_language_same].
      f_equal. unfold updateLanguage. rewrite <- list_fmap_compose.
      transitivity (id <$> language s); [|apply list_fmap_id].
      apply list_fmap_ext. intros i r' Hr%list_elem_of_lookup_2. cbn.
      destruct (decide (Language.code r' = code)) as [Hrc|Hrc].
      * rewrite (bool_decide_eq_true_2 _ Hrc). cbn.
        rewrite bool_decide_eq_true_2 by done.
        assert (r' = l) as ->
          by (apply (unique_code_eq (language s)); [done..|congruence]).
        rewrite negb_involutive. by destruct l.
      * rewrite (bool_decide_eq_false_2 _ Hrc).
        by rewrite bool_decide_eq_false_2.
Qed.

Lemma toggleLanguageActive_flips_non_default_witness :
  let w := reliable db_three_languages "2026-02-10T12:00:00Z" in
  let run := toggleLanguageActive "en" w in
  languageRow "en" (store w) = Some (Language.mk "en" "English" true false)
  ∧ uniqueLanguageCodes (store w)
  ∧ run.2 = Returned (Language.mk "en" "English" false false)
  ∧ ¬ activeLanguage "en" (store run.1)
  ∧ store (toggleLanguageActive "en" run.1).1 = store w
  ∧ (∃ msg, (toggleLanguageActive "fr" w).2 = Thrown (BadRequestException msg))
  ∧ (∃ msg, (toggleLanguageActive "it" w).2 = Thrown (NotFoundException msg)).
Proof.
  cbn zeta.
  pose proof (toggleLanguageActive_flips_non_default "en"
                (reliable db_three_languages "2026-02-10T12:00:00Z"))
    as (_ & _ & Hflip).
  assert (uniqueLanguageCodes db_three_languages) as Hunique.
  { unfold uniqueLanguageCodes. cbn. apply NoDup_ListNoDup.
    repeat constructor; cbn; intuition discriminate. }
  destruct (Hflip (Language.mk "en" "English" true false))
    as (w' & Hrun & _ & _ & _ & Hactive & Hback); [done..|].
  rewrite Hrun. cbn [fst snd]. split_and!; [done..| |done| |].
  - intros Ha. apply Hactive in Ha. apply Ha.
    exists (Language.mk "en" "English" true false).
    split_and!; [|done..]. cbn. set_solver.
  - by eexists.
  - by eexists.
Defined.

(** [upsertLanguage], when the storage call goes through: for a code the
    registry does not hold it appends an active, non-default language, so
    the code names an active language from then on; for a code it holds it
    rewrites the name only, so an inactive language stays inactive and no
    language changes its flags.  Every other table is left alone. *)
Theorem upsertLanguage_adds_or_renames (dto : UpsertLanguageDto.t) (w : World Db) :
  faults w = [] →
  let code := UpsertLanguageDto.code dto in
  let w' := (upsertLanguage dto w).1 in
  store w' = with_language (language (store w')) (store w)
  ∧ match languageRow code (store w) with
    | None =>
        let l := Language.mk code (UpsertLanguageDto.name dto) true false in
        (upsertLanguage dto w).2 = Returned l
        ∧ language (store w') = language (store w) ++ [l]
        ∧ ∀ c, activeLanguage c (store w')
               ↔ c = code ∨ activeLanguage c (store w)
    | Some old =>
        let l := Language.mk code (UpsertLanguageDto.name dto)
                   (Language.isActive old) (Language.isDefault old) in
        (upsertLanguage dto w).2 = Returned l
        ∧ languageRow code (store w') = Some l
        ∧ (∀ c, c ≠ code → languageRow c (store w') = languageRow c (store w))
        ∧ ∀ c, activeLanguage c (store w') ↔ activeLanguage c (store w)
    end.
Proof.
  destruct w as [s fs cs t]. cbn [store faults]. intros ->. cbn zeta.
  unfold languageRow, upsertLanguage. run_monad.
  destruct (find _ (language s)) as [old|] eqn:Hfind; cbn -[find].
  - pose proof Hfind as [Hin Hcode]%find_code_Some.
    set (rename := λ l, Language.mk (Language.code l) (UpsertLanguageDto.name dto)
                          (Language.isActive l) (Language.isDefault l)).
    split_and!; [done|by rewrite Hcode| | |].
    + rewrite find_updateLanguage_same, Hfind by done. unfold rename. cbn.
      by rewrite Hcode.
    + intros c Hc. by apply find_updateLanguage_other.
    + intros c. unfold activeLanguage, updateLanguage. cbn [language].
      setoid_rewrite list_elem_of_fmap. split.
      * intros (l & (r & -> & Hr) & Hc & Hactive). exists r.
        by case_bool_decide.
      * intros (r & Hr & Hc & Hactive).
        exists (if bool_decide (Language.code r = UpsertLanguageDto.code dto)
                then rename r else r).
        split; [by exists r|]. by case_bool_decide.
  - split_and!; [done..|].
    intros c. unfold activeLanguage. setoid_rewrite elem_of_app.
    setoid_rewrite list_elem_of_singleton. split.
    + intros (l & [Hl| ->] & Hc & Hactive); [right; by exists l|by left].
    + intros [->|(l & Hl & Hc & Hactive)]; [|exists l; by eauto].
      eexists. split; [by right|done].
Qed.

Lemma upsertLanguage_adds_or_renames_witness :
  let w := reliable db_three_languages "2026-02-10T12:00:00Z" in
  let added := upsertLanguage (UpsertLanguageDto.mk "it" "Italiano") w in
  let renamed := upsertLanguage (UpsertLanguageDto.mk "de" "German") w in
  faults w = []
  ∧ added.2 = Returned (Language.mk "it" "Italiano" true false)
  ∧ activeLanguage "it" (store added.1)
  ∧ renamed.2 = Returned (Language.mk "de" "German" false false)
  ∧ ¬ activeLanguage "de" (store renamed.1).
Proof.
  cbn zeta.
  pose proof (upsertLanguage_adds_or_renames (UpsertLanguageDto.mk "it" "Italiano")
                (reliable db_three_languages "2026-02-10T12:00:00Z") eq_refl)
    as [_ Hadd].
  pose proof (upsertLanguage_adds_or_renames (UpsertLanguageDto.mk "de" "German")
                (reliable db_three_languages "2026-02-10T12:00:00Z") eq_refl)
    as [_ Hrename].
  cbn in Hadd, Hrename.
  destruct Hadd as (Hit & _ & Hactive).
  destruct Hrename as (Hde & _ & _ & Hinactive).
  split_and!; [done|exact Hit| |exact Hde|].
  - apply Hactive. by left.
  - rewrite Hinactive. intros (l & Hl & Hc & Ha). cbn in Hl.
    set_solver.
Defined.

End RegistryEffects.

(** ** Upserting the translations of a test *)

Section UpsertTestTranslations.
Import TranslationsService.

Lemma validateLanguageCodes_Returned codes (w : World Db) :
  (∀ c, c ∈ codes → activeLanguage c (store w)) →
  validateLanguageCodes codes w
  = (record (mkCall "language" "findMany" (newSet [] codes)) w, Returned ()).
Proof.
  intros Hall. unfold validateLanguageCodes, bind, query, throw, ret. cbn.
  rewrite bool_decide_eq_false_2; [done|].
  match goal with
  | |- ¬ (0 < length ?xs)%nat => destruct xs as [|c l] eqn:Hfilter; [cbn; lia|]
  end.
  exfalso.
  assert (c ∈ c :: l) as Hc by by left. rewrite <- Hfilter in Hc.
  apply list_elem_of_filter in Hc as [Hnot Hin]. apply Hnot.
  apply active_codes_found; [done|]. apply Hall.
  by apply elem_of_newSet in Hin as [Hin _].
Qed.

Lemma validateLanguageCodes_Thrown codes (w : World Db) c :
  c ∈ codes → ¬ activeLanguage c (store w) →
  ∃ msg,
    validateLanguageCodes codes w
    = (record (mkCall "language" "findMany" (newSet [] codes)) w,
       Thrown (BadRequestException msg)).
Proof.
  intros Hin Hnot. unfold validateLanguageCodes, bind, query, throw, ret. cbn.
  rewrite bool_decide_eq_true_2; [by eexists|].
  match goal with
  | |- (0 < length ?xs)%nat => assert (c ∈ xs) as Hc
  end.
  { apply list_elem_of_filter.
    assert (c ∈ newSet [] codes) as Hset
      by (apply elem_of_newSet; split; [done|apply not_elem_of_nil]).
    split; [|done]. by rewrite active_codes_found. }
  destruct (filter _ _); [by apply elem_of_nil in Hc|cbn; lia].
Qed.

Lemma resolveLanguageCode_active c (w : World Db) :
  activeLanguage c (store w) →
  (resolveLanguageCode c w).2 = Returned c
  ∧ store (resolveLanguageCode c w).1 = store w.
Proof.
  intros Hactive. unfold resolveLanguageCode, bind, query, ret. cbn.
  destruct (find _ (language (store w))) eqn:Hfind; [done|].
  by apply find_active_None in Hfind.
Qed.

Lemma mutate_reliable {S A} c (f : S → Outcome (A * S)) s s' a cs t0 :
  f s = Returned (a, s') →
  mutate c f (mkWorld s [] cs t0) = (mkWorld s' [] (cs ++ [c]) t0, Returned a).
Proof. intros Hf. unfold mutate, record. cbn. by rewrite Hf. Qed.

Lemma upsertTestTranslation_row testId t db :
  keyedByColumns LogicalTestTranslation.testId LogicalTestTranslation.languageCode
    (logicalTestTranslation db) →
  upsertTestTranslation testId t db
  = Returned (upsertedTestTranslation testId (logicalTestTranslation db) t,
              with_logicalTestTranslation
                (<[(testId, LogicalTestTranslationDto.languageCode t)
                   := upsertedTestTranslation testId (logicalTestTranslation db) t]>
                   (logicalTestTranslation db)) db).
Proof.
  intros Hkeyed. unfold upsertTestTranslation, upsertedTestTranslation.
  destruct (logicalTestTranslation db !! _) as [old|] eqn:Hold; cbn.
  - apply Hkeyed in Hold. injection Hold as <- <-. done.
  - by destruct (LogicalTestTranslationDto.description t).
Qed.

Lemma keyedByColumns_upsert testId t table :
  keyedByColumns LogicalTestTranslation.testId LogicalTestTranslation.languageCode
    table →
  keyedByColumns LogicalTestTranslation.testId LogicalTestTranslation.languageCode
    (<[(testId, LogicalTestTranslationDto.languageCode t)
       := upsertedTestTranslation testId table t]> table).
Proof.
  intros Hkeyed key row. destruct (decide (key = (testId, LogicalTestTranslationDto.languageCode t))) as [->|Hne].
  - rewrite lookup_insert_eq. by intros [= <-].
  - rewrite lookup_insert_ne by done. apply Hkeyed.
Qed.

Lemma mapM_upsert_reliable testId ts s cs t0 :
  keyedByColumns LogicalTestTranslation.testId LogicalTestTranslation.languageCode
    (logicalTestTranslation s) →
  ∃ cs',
    mapM (λ t, mutate (mkCall "logicalTestTranslation" "upsert"
                         [testId; LogicalTestTranslationDto.languageCode t])
                 (upsertTestTranslation testId t)) ts
      (mkWorld s [] cs t0)
    = (mkWorld
         (with_logicalTestTranslation
            (upsertAll testId ts (logicalTestTranslation s)) s)
         [] cs' t0,
       Returned (upsertRows testId ts (logicalTestTranslation s))).
Proof.
  revert s cs. induction ts as [|t ts IH]; intros s cs Hkeyed.
  - exists cs. cbn. unfold ret. by destruct s.
  - cbn [mapM]. unfold bind at 1. cbv beta.
    erewrite mutate_reliable by by apply upsertTestTranslation_row.
    unfold bind at 1. cbv beta.
    match goal with
    | |- context [mapM _ ts (mkWorld ?s1 [] ?cs1 t0)] =>
        destruct (IH s1 cs1) as (cs' & Hrun)
    end.
    { cbn. by apply keyedByColumns_upsert. }
    rewrite Hrun. by eexists.
Qed.

Lemma upsertRows_fmap testId ts table :
  NoDup (LogicalTestTranslationDto.languageCode <$> ts) →
  upsertRows testId ts table = upsertedTestTranslation testId table <$> ts.
Proof.
  revert table. induction ts as [|x ts IH]; intros table Hnodup; [done|].
  apply NoDup_cons in Hnodup as [Hx Hnodup]. cbn. f_equal.
  rewrite IH by done.
  apply list_fmap_ext. intros i t Ht%list_elem_of_lookup_2.
  unfold upsertedTestTranslation. rewrite lookup_insert_ne; [done|].
  intros [= Heq]. apply Hx. rewrite Heq. by apply list_elem_of_fmap_2.
Qed.

Lemma upsertAll_lookup testId ts table :
  NoDup (LogicalTestTranslationDto.languageCode <$> ts) →
  (∀ t, t ∈ ts →
     upsertAll testId ts table !! (testId, LogicalTestTranslationDto.languageCode t)
     = Some (upsertedTestTranslation testId table t))
  ∧ (∀ key,
       key ∉ (λ t, (testId, LogicalTestTranslationDto.languageCode t)) <$> ts →
       upsertAll testId ts table !! key = table !! key).
Proof.
  revert table. induction ts as [|x ts IH]; intros table Hnodup.
  - split; [by intros t ?%elem_of_nil|done].
  - apply NoDup_cons in Hnodup as [Hx Hnodup].
    change (upsertAll testId (x :: ts) table)
      with (upsertAll testId ts
              (<[(testId, LogicalTestTranslationDto.languageCode x)
                 := upsertedTestTranslation testId table x]> table)).
    match goal with
    | |- context [upsertAll testId ts ?table1] =>
        destruct (IH table1 Hnodup) as [IHin IHout]
    end.
    split.
    + intros t [->|Hin]%elem_of_cons.
      * rewrite IHout; [by rewrite lookup_insert_eq|].
        intros (t' & [= Heq] & Hin')%list_elem_of_fmap. apply Hx.
        rewrite Heq. by apply list_elem_of_fmap_2.
      * rewrite IHin by done. f_equal. unfold upsertedTestTranslation.
        rewrite lookup_insert_ne; [done|].
        intros [= Heq]. apply Hx. rewrite Heq. by apply list_elem_of_fmap_2.
    + intros key [Hkey Hrest]%not_elem_of_cons.
      rewrite IHout by done. by rewrite lookup_insert_ne.
Qed.

Lemma mutate_cases {S A} c (f : S → Outcome (A * S)) (w w' : World S) o :
  mutate c f w = (w', o) →
  ((∃ e, o = Thrown e) ∧ store w' = store w)
  ∨ ∃ a, o = Returned a ∧ f (store w) = Returned (a, store w').
Proof.
  unfold mutate, record. cbn.
  destruct (faults w) as [|[] fs]; cbn.
  2:{ intros [= <- <-]. left. by eauto. }
  all: destruct (f (store w)) as [[a s']|e]; intros [= <- <-]; by eauto.
Qed.

Lemma mapM_upsert_store testId ts (w w1 : World Db) o :
  mapM (λ t, mutate (mkCall "logicalTestTranslation" "upsert"
                       [testId; LogicalTestTranslationDto.languageCode t])
               (upsertTestTranslation testId t)) ts w = (w1, o) →
  store w1 = with_logicalTestTranslation (logicalTestTranslation (store w1)) (store w)
  ∧ ∀ rows, o = Returned rows → length rows = length ts.
Proof.
  revert w w1 o. induction ts as [|t ts IH]; intros w w1 o.
  - cbn. unfold ret. intros [= <- <-]. split; [by destruct (store w)|].
    by intros rows [= <-].
  - cbn [mapM]. unfold bind at 1. cbv beta.
    match goal with
    | |- context [mutate ?c ?f w] =>
        destruct (mutate c f w) as [w2 o2] eqn:Hfirst;
        apply mutate_cases in Hfirst as [[[e ->] Hstore]|(row & -> & Hrow)]
    end.
    { intros [= <- <-]. rewrite Hstore. split; [by destruct (store w)|done]. }
    unfold bind at 1. cbv beta.
    match goal with
    | |- context [mapM ?f ts w2] =>
        destruct (mapM f ts w2) as [w3 [rows|e]] eqn:Hrest;
        apply IH in Hrest as [Hstore Hlen]
    end.
    all: unfold upsertTestTranslation in Hrow; injection Hrow as _ Hrow.
    all: unfold ret; intros [= <- <-]; rewrite Hstore, <- Hrow.
    all: split; [done|try done].
    intros rows' [= <-]. cbn. f_equal. by apply Hlen.
Qed.

(** [upsertTestTranslations] writes all the rows of a batch or none, and
    nothing but the table of test translations: whatever it is called with
    and whichever storage call fails, it either returns one row per input
    or throws and leaves the store as it was; and it refuses, with a
    [BadRequestException], a batch that names a language that is not
    active. *)
Theorem upsertTestTranslations_all_or_nothing (testId : string)
    (translations : list LogicalTestTranslationDto.t) (w : World Db) :
  let run := upsertTestTranslations testId translations w in
  store run.1
    = with_logicalTestTranslation (logicalTestTranslation (store run.1)) (store w)
  ∧ ((∃ rows, run.2 = Returned rows ∧ length rows = length translations)
     ∨ ((∃ e, run.2 = Thrown e) ∧ store run.1 = store w))
  ∧ ((∃ t, t ∈ translations
           ∧ ¬ activeLanguage (LogicalTestTranslationDto.languageCode t) (store w)) →
     ∃ msg, run.2 = Thrown (BadRequestException msg)).
Proof.
  cbn zeta.
  assert (∀ s : Db, s = with_logicalTestTranslation (logicalTestTranslation s) s)
    as Hsame by by intros [].
  destruct (upsertTestTranslations testId translations w) as [w' o] eqn:Hrun.
  cbn [fst snd]. unfold upsertTestTranslations in Hrun.
  destruct (validateLanguageCodes_run
              (LogicalTestTranslationDto.languageCode <$> translations) w)
    as (o1 & Hcodes & Ho).
  unfold bind in Hrun at 1. cbv beta in Hrun. rewrite Hcodes in Hrun.
  destruct Ho as [->|[msg ->]].
  - assert (store w'
            = with_logicalTestTranslation (logicalTestTranslation (store w'))
                (store w)
            ∧ ((∃ rows, o = Returned rows ∧ length rows = length translations)
               ∨ (∃ e, o = Thrown e) ∧ store w' = store w)) as [Hstore Hcases].
    { destruct o as [rows|e].
      - apply transaction_Returned in Hrun as (w2 & Hbody & ->).
        apply mapM_upsert_store in Hbody as [Hstore Hlen]. cbn in Hstore.
        split; [done|]. left. by eauto.
      - apply transaction_Thrown in Hrun. cbn in Hrun. rewrite Hrun.
        split; [apply Hsame|by eauto]. }
    split_and!; [done..|].
    intros (t & Hin & Hnot).
    destruct (validateLanguageCodes_Thrown
                (LogicalTestTranslationDto.languageCode <$> translations) w
                (LogicalTestTranslationDto.languageCode t))
      as [msg Hthrown]; [by apply list_elem_of_fmap_2|done|].
    rewrite Hthrown in Hcodes. by injection Hcodes.
  - injection Hrun as <- <-.
    split_and!; [apply Hsame|right|]; by eauto.
Qed.

(** Round trip.  In a table keyed by its own columns, when the storage
    calls go through, a batch whose languages are all active and pairwise
    distinct is stored row by row: each input ends up under the key
    (testId, its language) with its name and instructions and with its
    description, or with the description of the row it replaces when it has
    none; rows under other keys are untouched; and [getTestTranslation],
    asked for one of these languages afterwards, answers with the row that
    was just stored. *)
Theorem upsertTestTranslations_round_trip (testId : string)
    (translations : list LogicalTestTranslationDto.t) (w : World Db) :
  faults w = [] →
  keyedByColumns LogicalTestTranslation.testId LogicalTestTranslation.languageCode
    (logicalTestTranslation (store w)) →
  (∀ t, t ∈ translations →
        activeLanguage (LogicalTestTranslationDto.languageCode t) (store w)) →
  NoDup (LogicalTestTranslationDto.languageCode <$> translations) →
  let table := logicalTestTranslation (store w) in
  ∃ w',
    upsertTestTranslations testId translations w
      = (w', Returned (upsertedTestTranslation testId table <$> translations))
    ∧ (∀ t, t ∈ translations →
         logicalTestTranslation (store w')
           !! (testId, LogicalTestTranslationDto.languageCode t)
         = Some (upsertedTestTranslation testId table t)
         ∧ (getTestTranslation testId
              (LogicalTestTranslationDto.languageCode t) w').2
           = Returned (Some (upsertedTestTranslation testId table t)))
    ∧ (∀ key,
         key ∉ (λ t, (testId, LogicalTestTranslationDto.languageCode t))
                 <$> translations →
         logicalTestTranslation (store w') !! key = table !! key).
Proof.
  destruct w as [s fs cs t0]. cbn [store faults].
  intros -> Hkeyed Hactive Hnodup. cbn zeta.
  unfold upsertTestTranslations. unfold bind at 1. cbv beta.
  rewrite validateLanguageCodes_Returned.
  2:{ intros c (t & -> & Hin)%list_elem_of_fmap. by apply Hactive. }
  unfold record. cbn [store faults calls clock].
  match goal with
  | |- context [transaction _ (mkWorld s [] ?cs1 t0)] =>
      destruct (mapM_upsert_reliable testId translations s cs1 t0 Hkeyed)
        as [cs' Hbody]
  end.
  unfold transaction. rewrite Hbody. cbn [faults store calls clock tail].
  rewrite upsertRows_fmap by done.
  destruct (upsertAll_lookup testId translations (logicalTestTranslation s) Hnodup)
    as [Hin Hout].
  eexists. split; [done|]. cbn [store logicalTestTranslation with_logicalTestTranslation].
  split; [|done].
  intros t Ht. split; [by apply Hin|].
  unfold getTestTranslation. unfold bind at 1. cbv beta.
  match goal with
  | |- context [resolveLanguageCode ?c ?w0] =>
      destruct (resolveLanguageCode_run c w0) as (lang & cs2 & Hrun & _);
      destruct (resolveLanguageCode_active c w0) as [Hlang _];
        [by apply Hactive|];
      rewrite Hrun in Hlang |- *; cbn [snd] in Hlang; injection Hlang as ->
  end.
  unfold bind, query. cbn. by rewrite Hin.
Qed.

Lemma upsertTestTranslations_round_trip_witness :
  let w := reliable db_french_and_english "2026-02-10T12:00:00Z" in
  let french :=
    LogicalTestTranslationDto.mk "fr" "Test D-70 (v2)" (Some "Dominos")
      "Completez la suite" in
  let english :=
    LogicalTestTranslationDto.mk "en" "D-70 Test (v2)" None
      "Complete the sequence" in
  let run := upsertTestTranslations "test-1" [french; english] w in
  faults w = []
  ∧ run.2
    = Returned
        [LogicalTestTranslation.mk "test-1" "fr" "Test D-70 (v2)" (Some "Dominos")
           "Completez la suite";
         LogicalTestTranslation.mk "test-1" "en" "D-70 Test (v2)" None
           "Complete the sequence"]
  ∧ (getTestTranslation "test-1" "en" run.1).2
    = Returned (Some (LogicalTestTranslation.mk "test-1" "en" "D-70 Test (v2)"
                        None "Complete the sequence")).
Proof.
  cbn zeta.
  destruct (upsertTestTranslations_round_trip "test-1"
              [LogicalTestTranslationDto.mk "fr" "Test D-70 (v2)" (Some "Dominos")
                 "Completez la suite";
               LogicalTestTranslationDto.mk "en" "D-70 Test (v2)" None
                 "Complete the sequence"]
              (reliable db_french_and_english "2026-02-10T12:00:00Z"))
    as (w' & Hrun & Hstored & _).
  - done.
  - intros key row. cbn.
    by intros [[<- <-]|[_ [<- <-]%lookup_singleton_Some]]%lookup_insert_Some.
  - intros t [->| ->%list_elem_of_singleton]%elem_of_cons.
    + exists (Language.mk "fr" "Francais" true true).
      split; [cbn; set_solver|done].
    + exists (Language.mk "en" "English" true false).
      split; [cbn; set_solver|done].
  - cbn. apply NoDup_ListNoDup. repeat constructor; cbn; intuition discriminate.
  - rewrite Hrun. cbn [fst snd]. split_and!; [done|done|].
    destruct (Hstored (LogicalTestTranslationDto.mk "en" "D-70 Test (v2)" None
                         "Complete the sequence")) as [_ Hget]; [set_solver|].
    exact Hget.
Defined.


End UpsertTestTranslations.

(** ** Batch lookups *)

Section Batch.
Context {T : Type} (parentId languageCode : T → string).
Context (table : gmap (string * string) T).
Hypothesis keyed : keyedByColumns parentId languageCode table.

Lemma elem_of_findManyByParents ids lang row :
  row ∈ findManyByParents ids lang table
  ↔ parentId row ∈ ids ∧ languageCode row = lang
    ∧ table !! (parentId row, lang) = Some row.
Proof.
  unfold findManyByParents. rewrite list_elem_of_fmap. split.
  - intros ([key row'] & -> & [[Hid Hlang] Hin%elem_of_map_to_list]%list_elem_of_filter).
    cbn in *. pose proof (keyed _ _ Hin) as ->. cbn in *. by subst.
  - intros (Hid & Hlang & Hrow). exists ((parentId row, lang), row).
    split; [done|]. apply list_elem_of_filter. split; [done|].
    by apply elem_of_map_to_list.
Qed.

Lemma NoDup_findManyByParents ids lang :
  NoDup (parentId <$> findManyByParents ids lang table).
Proof.
  unfold findManyByParents. rewrite <- list_fmap_compose.
  apply NoDup_fmap_2_strong.
  - intros [k1 r1] [k2 r2]
      [[_ Hl1] Hin1%elem_of_map_to_list]%list_elem_of_filter
      [[_ Hl2] Hin2%elem_of_map_to_list]%list_elem_of_filter Heq.
    cbn in *. pose proof (keyed _ _ Hin1) as ->. pose proof (keyed _ _ Hin2) as ->.
    cbn in *. assert (r1 = r2) as ->; [|done].
    rewrite Heq, Hl1, <- Hl2 in Hin1. congruence.
  - apply NoDup_filter, NoDup_map_to_list.
Qed.

Lemma fill_cons lang t ts start :
  fillTranslationMap parentId languageCode lang (t :: ts) start
  = fillTranslationMap parentId languageCode lang ts
      (if negb (bool_decide (is_Some (start !! parentId t)))
          || bool_decide (languageCode t = lang)
       then <[parentId t := t]> start else start).
Proof. done. Qed.

Lemma fill_app lang ts1 ts2 start :
  fillTranslationMap parentId languageCode lang (ts1 ++ ts2) start = fillTranslationMap parentId languageCode lang ts2 (fillTranslationMap parentId languageCode lang ts1 start).
Proof. apply foldl_app. Qed.

Lemma fill_lookup_notin lang ts start id :
  id ∉ parentId <$> ts → fillTranslationMap parentId languageCode lang ts start !! id = start !! id.
Proof.
  revert start. induction ts as [|t ts IH]; intros start; [done|].
  rewrite fmap_cons, fill_cons. intros [Hne Hnotin]%not_elem_of_cons.
  rewrite IH by done.
  destruct (_ || _); [by rewrite lookup_insert_ne|done].
Qed.

Lemma fill_lookup_in lang ts start t :
  NoDup (parentId <$> ts) → t ∈ ts →
  start !! parentId t = None ∨ languageCode t = lang →
  fillTranslationMap parentId languageCode lang ts start !! parentId t = Some t.
Proof.
  revert start. induction ts as [|x ts IH]; intros start;
    [by intros _ ?%elem_of_nil|].
  rewrite fmap_cons, fill_cons.
  intros [Hx Hnodup]%NoDup_cons [->|Hin]%elem_of_cons Hfree.
  - rewrite fill_lookup_notin by done.
    destruct Hfree as [Hnone|Hlang].
    + rewrite Hnone. rewrite bool_decide_eq_false_2 by apply is_Some_None.
      cbn. by rewrite lookup_insert_eq.
    + rewrite (bool_decide_eq_true_2 _ Hlang), orb_true_r.
      by rewrite lookup_insert_eq.
  - assert (parentId x ≠ parentId t) as Hne.
    { intros Heq. apply Hx. rewrite Heq. by apply list_elem_of_fmap_2. }
    apply IH; [done..|].
    destruct Hfree as [Hnone|Hlang]; [left|by right].
    destruct (_ || _); [by rewrite lookup_insert_ne|done].
Qed.

(** What the batch getters compute from the two lookups: for every
    requested parent the row in the resolved language, failing that the row
    in [DEFAULT_LANGUAGE_CODE]; nothing for a parent that was not
    requested. *)
Lemma toTranslationMap_lookup ids lang id :
  let translations := findManyByParents ids lang table in
  let foundIds := parentId <$> translations in
  let missingIds := filter (λ id, id ∉ foundIds) ids in
  toTranslationMap parentId languageCode lang
    (if bool_decide (0 < length missingIds)%nat
        && bool_decide (lang ≠ DEFAULT_LANGUAGE_CODE)
     then translations
          ++ findManyByParents missingIds DEFAULT_LANGUAGE_CODE table
     else translations) !! id
  = if decide (id ∈ ids) then
      match table !! (id, lang) with
      | Some row => Some row
      | None =>
          if decide (lang ≠ DEFAULT_LANGUAGE_CODE)
          then table !! (id, DEFAULT_LANGUAGE_CODE)
          else None
      end
    else None.
Proof.
  cbn zeta.
  set (translations := findManyByParents ids lang table).
  set (missingIds := filter (λ id, id ∉ parentId <$> translations) ids).
  set (fallback := findManyByParents missingIds DEFAULT_LANGUAGE_CODE table).
  assert (∀ row, table !! (id, lang) = Some row → parentId row = id) as Hid.
  { intros row Hrow. by pose proof (keyed _ _ Hrow) as [= -> _]. }
  assert (∀ row, table !! (id, DEFAULT_LANGUAGE_CODE) = Some row
                 → parentId row = id) as Hid'.
  { intros row Hrow. by pose proof (keyed _ _ Hrow) as [= -> _]. }
  assert (id ∈ parentId <$> translations
          ↔ id ∈ ids ∧ is_Some (table !! (id, lang))) as Hfound.
  { rewrite list_elem_of_fmap. split.
    - intros (row & -> & (Hin & _ & Hrow)%elem_of_findManyByParents). by eauto.
    - intros [Hin [row Hrow]]. exists row. split; [by rewrite Hid|].
      apply elem_of_findManyByParents. rewrite (Hid row Hrow).
      split_and!; [done| |done]. by pose proof (keyed _ _ Hrow) as [= _ ->]. }
  assert (id ∈ missingIds ↔ id ∈ ids ∧ table !! (id, lang) = None) as Hmissing.
  { unfold missingIds. rewrite list_elem_of_filter, Hfound. split.
    - intros [Hnot Hin]. split; [done|]. apply eq_None_not_Some.
      intros Hsome. by apply Hnot.
    - intros [Hin Hnone]. split; [|done]. intros [_ Hsome].
      rewrite Hnone in Hsome. by apply is_Some_None in Hsome. }
  assert (toTranslationMap parentId languageCode lang translations !! id
          = if decide (id ∈ ids) then table !! (id, lang) else None) as Hfirst.
  { change (toTranslationMap parentId languageCode lang translations)
      with (fillTranslationMap parentId languageCode lang translations ∅).
    destruct (table !! (id, lang)) as [row|] eqn:Hrow.
    - case_decide as Hin.
      + rewrite <- (Hid row eq_refl). apply fill_lookup_in.
        * apply NoDup_findManyByParents.
        * apply elem_of_findManyByParents. rewrite (Hid row eq_refl).
          split_and!; [done| |done]. by pose proof (keyed _ _ Hrow) as [= _ ->].
        * right. by pose proof (keyed _ _ Hrow) as [= _ ->].
      + rewrite fill_lookup_notin; [done|]. rewrite Hfound. naive_solver.
    - rewrite fill_lookup_notin; [by case_decide|].
      rewrite Hfound. intros [_ [? ?]]. congruence. }
  destruct (bool_decide (0 < length missingIds)%nat
            && bool_decide (lang ≠ DEFAULT_LANGUAGE_CODE)) eqn:Hcond.
  - apply andb_true_iff in Hcond as [_ Hlang%bool_decide_eq_true].
    change (toTranslationMap parentId languageCode lang (translations ++ fallback))
      with (fillTranslationMap parentId languageCode lang (translations ++ fallback) ∅).
    rewrite fill_app.
    change (fillTranslationMap parentId languageCode lang translations ∅)
      with (toTranslationMap parentId languageCode lang translations).
    rewrite (decide_True _ _ Hlang).
    destruct (decide (id ∈ ids)) as [Hin|Hin].
    + destruct (table !! (id, lang)) as [row|] eqn:Hrow.
      * rewrite fill_lookup_notin; [done|].
        intros (r & -> & (Hm & _)%elem_of_findManyByParents)%list_elem_of_fmap.
        apply Hmissing in Hm as [_ Hm]. congruence.
      * destruct (table !! (id, DEFAULT_LANGUAGE_CODE)) as [row|] eqn:Hdefault.
        -- rewrite <- (Hid' row eq_refl). apply fill_lookup_in.
           ++ apply NoDup_findManyByParents.
           ++ apply elem_of_findManyByParents. rewrite (Hid' row eq_refl).
              split_and!; [by apply Hmissing| |done].
              by pose proof (keyed _ _ Hdefault) as [= _ ->].
           ++ left. by rewrite (Hid' row eq_refl).
        -- rewrite fill_lookup_notin; [done|].
           intros (r & -> & (_ & _ & Hr)%elem_of_findManyByParents)%list_elem_of_fmap.
           congruence.
    + rewrite fill_lookup_notin; [done|].
      intros (r & -> & (Hm & _)%elem_of_findManyByParents)%list_elem_of_fmap.
      apply Hmissing in Hm as [Hm _]. done.
  - rewrite Hfirst. destruct (decide (id ∈ ids)) as [Hin|Hin]; [|done].
    destruct (table !! (id, lang)) as [row|] eqn:Hrow; [done|].
    destruct (decide (lang ≠ DEFAULT_LANGUAGE_CODE)) as [Hlang|Hlang]; [|done].
    apply andb_false_iff in Hcond as [Hlen|Hne].
    + apply bool_decide_eq_false in Hlen.
      assert (id ∈ missingIds) as Hm by by apply Hmissing.
      destruct missingIds; [by apply elem_of_nil in Hm|cbn in Hlen; lia].
    + by apply bool_decide_eq_false in Hne.
Qed.

End Batch.

(** Every row of a concrete table sits under its own key. *)
Ltac keyed_by_columns :=
  let Hrow := fresh "Hrow" in
  intros ? ? Hrow; cbn in Hrow;
  repeat lazymatch type of Hrow with
    | <[_ := _]> _ !! _ = Some _ =>
        apply lookup_insert_Some in Hrow as [[<- <-]|[_ Hrow]]; [done|]
    end;
  by apply lookup_singleton_Some in Hrow as [<- <-].

(** Settle a decidable closed proposition by evaluation. *)
Ltac by_decide :=
  lazymatch goal with
  | |- ?P => apply (bool_decide_unpack P); vm_compute; exact I
  end.

Section BatchGetters.
Import TranslationsService.

Lemma getQuestionTranslationsBatch_run questionIds requestedLang (w : World Db) :
  ∃ lang cs cs',
    resolveLanguageCode requestedLang w
      = (mkWorld (store w) (faults w) (calls w ++ cs) (clock w), Returned lang)
    ∧ Forall (λ c, model c = "language") cs
    ∧ (length cs' ≤ 2)%nat
    ∧ getQuestionTranslationsBatch questionIds requestedLang w
      = (mkWorld (store w) (faults w) ((calls w ++ cs) ++ cs') (clock w),
         Returned
           (let table := logicalQuestionTranslation (store w) in
            let translations := findManyByParents questionIds lang table in
            let foundIds := LogicalQuestionTranslation.questionId <$> translations in
            let missingIds := filter (λ id, id ∉ foundIds) questionIds in
            toTranslationMap LogicalQuestionTranslation.questionId
              LogicalQuestionTranslation.languageCode lang
              (if bool_decide (0 < length missingIds)%nat
                  && bool_decide (lang ≠ DEFAULT_LANGUAGE_CODE)
               then translations
                    ++ findManyByParents missingIds DEFAULT_LANGUAGE_CODE table
               else translations))).
Proof.
  destruct (resolveLanguageCode_run requestedLang w) as (lang & cs & Hrun & Hcs).
  exists lang, cs. unfold getQuestionTranslationsBatch.
  unfold bind at 1. cbv beta. rewrite Hrun.
  unfold bind, query, ret, record. cbn.
  destruct (_ && _); cbn; [eexists [_; _]|eexists [_]];
    (split_and!; [done|done|cbn; lia|]); [|done].
  by rewrite <- !(assoc_L (++)).
Qed.

Lemma getPropositionTranslationsBatch_run propositionIds requestedLang (w : World Db) :
  ∃ lang cs cs',
    resolveLanguageCode requestedLang w
      = (mkWorld (store w) (faults w) (calls w ++ cs) (clock w), Returned lang)
    ∧ Forall (λ c, model c = "language") cs
    ∧ (length cs' ≤ 2)%nat
    ∧ getPropositionTranslationsBatch propositionIds requestedLang w
      = (mkWorld (store w) (faults w) ((calls w ++ cs) ++ cs') (clock w),
         Returned
           (let table := mcqPropositionTranslation (store w) in
            let translations := findManyByParents propositionIds lang table in
            let foundIds := McqPropositionTranslation.propositionId <$> translations in
            let missingIds := filter (λ id, id ∉ foundIds) propositionIds in
            toTranslationMap McqPropositionTranslation.propositionId
              McqPropositionTranslation.languageCode lang
              (if bool_decide (0 < length missingIds)%nat
                  && bool_decide (lang ≠ DEFAULT_LANGUAGE_CODE)
               then translations
                    ++ findManyByParents missingIds DEFAULT_LANGUAGE_CODE table
               else translations))).
Proof.
  destruct (resolveLanguageCode_run requestedLang w) as (lang & cs & Hrun & Hcs).
  exists lang, cs. unfold getPropositionTranslationsBatch.
  unfold bind at 1. cbv beta. rewrite Hrun.
  unfold bind, query, ret, record. cbn.
  destruct (_ && _); cbn; [eexists [_; _]|eexists [_]];
    (split_and!; [done|done|cbn; lia|]); [|done].
  by rewrite <- !(assoc_L (++)).
Qed.

(** The batch getter for questions answers, for every requested question,
    what [getQuestionTranslation] answers for that question alone, and has
    no entry for a question that was not requested.  It writes nothing and
    makes at most two reads of the translation table, however many
    questions are asked for. *)
Theorem getQuestionTranslationsBatch_agrees_with_single
    (questionIds : list string) (requestedLang : string) (w : World Db) :
  keyedByColumns LogicalQuestionTranslation.questionId
    LogicalQuestionTranslation.languageCode
    (logicalQuestionTranslation (store w)) →
  let run := getQuestionTranslationsBatch questionIds requestedLang w in
  ∃ translationMap,
    run.2 = Returned translationMap
    ∧ store run.1 = store w
    ∧ (∀ id, id ∈ questionIds →
         (getQuestionTranslation id requestedLang w).2
         = Returned (translationMap !! id))
    ∧ (∀ id, id ∉ questionIds → translationMap !! id = None)
    ∧ (length (callsOn "logicalQuestionTranslation" (calls run.1))
       ≤ length (callsOn "logicalQuestionTranslation" (calls w)) + 2)%nat.
Proof.
  intros Hkeyed. cbn zeta.
  destruct (getQuestionTranslationsBatch_run questionIds requestedLang w)
    as (lang & cs & cs' & Hlang & Hcs & Hlen & ->).
  cbn [fst snd store calls]. eexists. split; [done|]. split; [done|].
  split_and!.
  - intros id Hin. cbn zeta.
    rewrite (toTranslationMap_lookup _ _ _ Hkeyed), (decide_True _ _ Hin).
    unfold getQuestionTranslation. unfold bind at 1. cbv beta. rewrite Hlang.
    unfold bind, query, ret. cbn.
    destruct (logicalQuestionTranslation (store w) !! (id, lang)); [done|].
    destruct (decide (lang ≠ DEFAULT_LANGUAGE_CODE)) as [Hne|Hne].
    + by rewrite (bool_decide_eq_true_2 _ Hne).
    + by rewrite (bool_decide_eq_false_2 _ Hne).
  - intros id Hin. cbn zeta.
    by rewrite (toTranslationMap_lookup _ _ _ Hkeyed), (decide_False _ _ Hin).
  - rewrite !callsOn_app, (callsOn_other _ cs) by done.
    rewrite (right_id_L [] (++)), length_app.
    unfold callsOn at 2. pose proof (length_filter (λ c, model c = "logicalQuestionTranslation") cs').
    lia.
Qed.

(** The same for the propositions of a multiple-choice question. *)
Theorem getPropositionTranslationsBatch_agrees_with_single
    (propositionIds : list string) (requestedLang : string) (w : World Db) :
  keyedByColumns McqPropositionTranslation.propositionId
    McqPropositionTranslation.languageCode
    (mcqPropositionTranslation (store w)) →
  let run := getPropositionTranslationsBatch propositionIds requestedLang w in
  ∃ translationMap,
    run.2 = Returned translationMap
    ∧ store run.1 = store w
    ∧ (∀ id, id ∈ propositionIds →
         (getPropositionTranslation id requestedLang w).2
         = Returned (translationMap !! id))
    ∧ (∀ id, id ∉ propositionIds → translationMap !! id = None)
    ∧ (length (callsOn "mcqPropositionTranslation" (calls run.1))
       ≤ length (callsOn "mcqPropositionTranslation" (calls w)) + 2)%nat.
Proof.
  intros Hkeyed. cbn zeta.
  destruct (getPropositionTranslationsBatch_run propositionIds requestedLang w)
    as (lang & cs & cs' & Hlang & Hcs & Hlen & ->).
  cbn [fst snd store calls]. eexists. split; [done|]. split; [done|].
  split_and!.
  - intros id Hin. cbn zeta.
    rewrite (toTranslationMap_lookup _ _ _ Hkeyed), (decide_True _ _ Hin).
    unfold getPropositionTranslation. unfold bind at 1. cbv beta. rewrite Hlang.
    unfold bind, query, ret. cbn.
    destruct (mcqPropositionTranslation (store w) !! (id, lang)); [done|].
    destruct (decide (lang ≠ DEFAULT_LANGUAGE_CODE)) as [Hne|Hne].
    + by rewrite (bool_decide_eq_true_2 _ Hne).
    + by rewrite (bool_decide_eq_false_2 _ Hne).
  - intros id Hin. cbn zeta.
    by rewrite (toTranslationMap_lookup _ _ _ Hkeyed), (decide_False _ _ Hin).
  - rewrite !callsOn_app, (callsOn_other _ cs) by done.
    rewrite (right_id_L [] (++)), length_app.
    unfold callsOn at 2. pose proof (length_filter (λ c, model c = "mcqPropositionTranslation") cs').
    lia.
Qed.

Lemma getQuestionTranslationsBatch_agrees_with_single_witness :
  let w := reliable db_questions "2026-02-10T12:00:00Z" in
  keyedByColumns LogicalQuestionTranslation.questionId
    LogicalQuestionTranslation.languageCode
    (logicalQuestionTranslation (store w))
  ∧ ∃ translationMap,
      (getQuestionTranslationsBatch ["q-1"; "q-2"; "q-3"] "en" w).2
        = Returned translationMap
      ∧ (getQuestionTranslation "q-2" "en" w).2
        = Returned (translationMap !! "q-2")
      ∧ translationMap !! "q-4" = None.
Proof.
  cbn zeta.
  assert (keyedByColumns LogicalQuestionTranslation.questionId
            LogicalQuestionTranslation.languageCode
            (logicalQuestionTranslation
               (store (reliable db_questions "2026-02-10T12:00:00Z"))))
    as Hkeyed by keyed_by_columns.
  split; [done|].
  destruct (getQuestionTranslationsBatch_agrees_with_single
              ["q-1"; "q-2"; "q-3"] "en"
              (reliable db_questions "2026-02-10T12:00:00Z") Hkeyed)
    as (translationMap & Hrun & _ & Hin & Hout & _).
  exists translationMap. split_and!; [done| |].
  - apply Hin. by_decide.
  - apply Hout. by_decide.
Defined.

Lemma getPropositionTranslationsBatch_agrees_with_single_witness :
  let w := reliable db_propositions "2026-02-10T12:00:00Z" in
  keyedByColumns McqPropositionTranslation.propositionId
    McqPropositionTranslation.languageCode
    (mcqPropositionTranslation (store w))
  ∧ ∃ translationMap,
      (getPropositionTranslationsBatch ["p-1"; "p-2"] "en" w).2
        = Returned translationMap
      ∧ (getPropositionTranslation "p-2" "en" w).2
        = Returned (translationMap !! "p-2")
      ∧ translationMap !! "p-3" = None.
Proof.
  cbn zeta.
  assert (keyedByColumns McqPropositionTranslation.propositionId
            McqPropositionTranslation.languageCode
            (mcqPropositionTranslation
               (store (reliable db_propositions "2026-02-10T12:00:00Z"))))
    as Hkeyed by keyed_by_columns.
  split; [done|].
  destruct (getPropositionTranslationsBatch_agrees_with_single
              ["p-1"; "p-2"] "en"
              (reliable db_propositions "2026-02-10T12:00:00Z") Hkeyed)
    as (translationMap & Hrun & _ & Hin & Hout & _).
  exists translationMap. split_and!; [done| |].
  - apply Hin. by_decide.
  - apply Hout. by_decide.
Defined.

End BatchGetters.

(** ** Decisions and assignments *)

Section Decisions.
Import CandidaturesService.

(** [makeDecision] is accepted from [completed] and from [in_review] only.
    There, when the storage calls go through, it records the decision, its
    date and its author, moves the candidature to [evaluated] and appends
    exactly one log entry, from the old status to [evaluated], whose reason
    names the decision; a further decision on the resulting candidature is
    refused, whoever asks and whatever the decision.  From any other status
    it throws a [BadRequestException] and changes nothing. *)
Theorem makeDecision_only_from_completed_or_in_review (id : string)
    (dto : MakeDecisionDto.t) (decidedBy : string) (w : World Db)
    (c : Candidature.t) :
  candidature (store w) !! id = Some c →
  (Candidature.status c ∈ [CandidatureStatus.completed; CandidatureStatus.in_review] →
   faults w = [] →
   ∃ w',
     makeDecision id dto decidedBy w
       = (w', Returned (id, decidedRow dto decidedBy (clock w) c))
     ∧ store w'
       = rewritten id (decidedRow dto decidedBy (clock w) c)
           [CandidatureStateTransition.mk id (Some (Candidature.status c))
              CandidatureStatus.evaluated decidedBy (clock w)
              (Some (decisionReason dto))]
           (store w)
     ∧ ∀ dto' decidedBy' fs cs t,
         ∃ w'' msg,
           makeDecision id dto' decidedBy' (mkWorld (store w') fs cs t)
             = (w'', Thrown (BadRequestException msg))
           ∧ store w'' = store w')
  ∧ (Candidature.status c ∉ [CandidatureStatus.completed; CandidatureStatus.in_review] →
     ∃ w' msg,
       makeDecision id dto decidedBy w = (w', Thrown (BadRequestException msg))
       ∧ store w' = store w).
Proof.
  destruct w as [s fs cs t]. cbn [store faults clock]. intros Hc. split.
  - intros Hstatus ->.
    unfold makeDecision, logTransition. run_monad.
    rewrite Hc, bool_decide_eq_true_2 by done. cbn [negb].
    run_monad. db_simpl. rewrite Hc. run_monad.
    eexists. split_and!; [done..|].
    intros dto' decidedBy' fs' cs' t'. run_monad. unfold rewritten. db_simpl.
    rewrite lookup_insert_eq. cbn [Candidature.status decidedRow].
    rewrite bool_decide_eq_false_2; [by eexists _, _|].
    by intros [?|[?|?%elem_of_nil]%elem_of_cons]%elem_of_cons.
  - intros Hstatus. unfold makeDecision. run_monad.
    rewrite Hc, bool_decide_eq_false_2 by done. by eexists _, _.
Qed.

Lemma makeDecision_only_from_completed_or_in_review_witness :
  let completed := withStatus CandidatureStatus.completed row_evaluated in
  let s := with_candidature (<["cand-7" := completed]> (candidature db_recruitment))
             db_recruitment in
  let dto := MakeDecisionDto.mk DecisionType.defavorable (Some "Too slow") None in
  let decided := makeDecision "cand-7" dto "psy-1" (reliable s noon) in
  candidature s !! "cand-7" = Some completed
  ∧ (∃ c, decided.2 = Returned ("cand-7", c)
          ∧ Candidature.status c = CandidatureStatus.evaluated
          ∧ Candidature.decision c = Some DecisionType.defavorable)
  ∧ candidatureStateTransition (store decided.1)
    = [CandidatureStateTransition.mk "cand-7" (Some CandidatureStatus.completed)
         CandidatureStatus.evaluated "psy-1" noon
         (Some "Decision: defavorable - Too slow")]
  ∧ (∃ msg, (makeDecision "cand-8" dto "psy-1" (reliable s noon)).2
            = Thrown (BadRequestException msg)).
Proof.
  cbn zeta.
  set (completed := withStatus CandidatureStatus.completed row_evaluated).
  set (s := with_candidature (<["cand-7" := completed]> (candidature db_recruitment))
              db_recruitment).
  set (dto := MakeDecisionDto.mk DecisionType.defavorable (Some "Too slow") None).
  assert (candidature s !! "cand-7" = Some completed) as Hc by by vm_compute.
  assert (candidature s !! "cand-8" = Some row_pending) as Hc' by by vm_compute.
  destruct (makeDecision_only_from_completed_or_in_review "cand-7" dto "psy-1"
              (reliable s noon) completed Hc) as [Haccepted _].
  destruct (makeDecision_only_from_completed_or_in_review "cand-8" dto "psy-1"
              (reliable s noon) row_pending Hc') as [_ Hrefused].
  destruct Haccepted as (w' & Hrun & Hstore & _); [by_decide|done|].
  destruct Hrefused as (w'' & msg & Hrun' & _); [by_decide|].
  rewrite Hrun, Hrun'. cbn [fst snd]. split_and!; [done| | |by eexists].
  - by eexists.
  - by rewrite Hstore.
Defined.

(** [assignPsychologue] looks at the status only to decide whether to move
    on: a [pending] candidature becomes [assigned] and gets the one log
    entry for it; a candidature in any other status, a closed one included,
    is given the psychologue, the assigner and the assignment date all the
    same, keeps its status and gets no log entry.  A psychologue id that
    does not name a user with the psychologue role is refused with a
    [BadRequestException] before anything is written. *)
Theorem assignPsychologue_moves_only_pending (id : string)
    (dto : AssignPsychologueDto.t) (assignedBy : string) (w : World Db)
    (c : Candidature.t) :
  candidature (store w) !! id = Some c →
  truthy (Some assignedBy) = true →
  (∀ u, user (store w) !! AssignPsychologueDto.psychologueId dto = Some u →
        User.role u = UserRole.psychologue → faults w = [] →
        ∃ w',
          assignPsychologue id dto assignedBy w
            = (w', Returned (id, psychologueAssignedRow dto assignedBy (clock w) c))
          ∧ store w'
            = rewritten id (psychologueAssignedRow dto assignedBy (clock w) c)
                (psychologueAssignedLog id assignedBy (clock w) u c) (store w))
  ∧ ((∀ u, user (store w) !! AssignPsychologueDto.psychologueId dto = Some u →
           User.role u ≠ UserRole.psychologue) →
     ∃ w',
       assignPsychologue id dto assignedBy w
         = (w', Thrown (BadRequestException "Invalid psychologue ID"))
       ∧ store w' = store w).
Proof.
  destruct w as [s fs cs t]. cbn [store faults clock]. intros Hc Hby. split.
  - intros u Hu Hrole ->.
    unfold assignPsychologue, findPsychologue, logTransition.
    rewrite Hby. cbn [negb]. run_monad. rewrite Hc. run_monad. rewrite Hu.
    rewrite bool_decide_eq_false_2 by (rewrite Hrole; by intros []).
    run_monad. unfold psychologueAssignedRow, psychologueAssignedLog, rewritten.
    case_bool_decide as Hstatus.
    + run_monad. db_simpl. rewrite Hc. run_monad. rewrite Hstatus.
      by eexists.
    + run_monad. db_simpl. rewrite Hc. run_monad. eexists. split; [done|].
      cbn [store]. by rewrite (right_id_L [] (++)).
  - intros Hnot. unfold assignPsychologue, findPsychologue.
    rewrite Hby. cbn [negb]. run_monad. rewrite Hc. run_monad.
    destruct (user s !! AssignPsychologueDto.psychologueId dto) as [u|] eqn:Hu.
    + rewrite bool_decide_eq_true_2 by by apply Hnot. by eexists.
    + by eexists.
Qed.

End Decisions.

Section UpdateStatus.
Import CandidaturesService.

(** [updateStatus] has no guard: for a stored candidature and any target
    status, an earlier one or the current one included, it rewrites the
    status and appends one log entry from the old status to the target,
    when the storage calls go through; and whichever of them fails, both
    are persisted or neither.  For an unknown id it throws a
    [NotFoundException] and changes nothing. *)
Theorem updateStatus_moves_anywhere_and_logs (id : string)
    (newStatus : CandidatureStatus.t) (userId : string) (reason : option string)
    (w : World Db) :
  let run := updateStatus id newStatus userId reason w in
  match candidature (store w) !! id with
  | None =>
      run.2 = Thrown (NotFoundException "Candidature not found")
      ∧ store run.1 = store w
  | Some c =>
      let moved :=
        rewritten id (withStatus newStatus c)
          [CandidatureStateTransition.mk id (Some (Candidature.status c))
             newStatus userId (clock w) reason]
          (store w) in
      (faults w = [] →
       run.2 = Returned (id, withStatus newStatus c) ∧ store run.1 = moved)
      ∧ ((∃ e, run.2 = Thrown e) ∧ store run.1 = store w
         ∨ run.2 = Returned (id, withStatus newStatus c) ∧ store run.1 = moved)
  end.
Proof.
  destruct w as [s fs cs t]. cbn zeta. cbn [store faults clock].
  unfold updateStatus. run_monad.
  destruct (candidature s !! id) as [c|] eqn:Hc; [|done].
  unfold rewritten, withStatus.
  destruct fs as [|[] [|[] [|[] fs]]]; run_monad; db_simpl; rewrite ?Hc;
    run_monad; db_simpl.
  all: split; [try done; by intros _|].
  all: first [right; by split | left; split; [by eexists|done]].
Qed.

Lemma updateStatus_moves_anywhere_and_logs_witness :
  let w := reliable db_recruitment noon in
  let run := updateStatus "cand-9" CandidatureStatus.pending "admin-1" None w in
  candidature (store w) !! "cand-9" = Some row_evaluated
  ∧ run.2 = Returned ("cand-9", withStatus CandidatureStatus.pending row_evaluated)
  ∧ candidatureStateTransition (store run.1)
    = [CandidatureStateTransition.mk "cand-9" (Some CandidatureStatus.evaluated)
         CandidatureStatus.pending "admin-1" noon None].
Proof.
  cbn zeta.
  pose proof (updateStatus_moves_anywhere_and_logs "cand-9"
                CandidatureStatus.pending "admin-1" None
                (reliable db_recruitment noon)) as Hrun.
  cbn zeta in Hrun.
  assert (candidature (store (reliable db_recruitment noon)) !! "cand-9"
          = Some row_evaluated) as Hc by by vm_compute.
  rewrite Hc in Hrun. destruct Hrun as [Hrun _].
  destruct (Hrun eq_refl) as [Hreturned Hstore].
  split_and!; [done..|]. by rewrite Hstore.
Defined.

End UpdateStatus.

(** ** The lifecycle under the guarded methods *)

Section Lifecycle.
Import CandidaturesService.

Lemma forwardOnlyTables_refl cands log : forwardOnlyTables cands log cands log.
Proof.
  split; [by eauto|]. exists []. by rewrite (right_id_L [] (++)).
Qed.

Lemma forwardOnlyTables_trans cands1 log1 cands2 log2 cands3 log3 :
  forwardOnlyTables cands1 log1 cands2 log2 →
  forwardOnlyTables cands2 log2 cands3 log3 →
  forwardOnlyTables cands1 log1 cands3 log3.
Proof.
  intros [Hrows12 (e12 & -> & He12)] [Hrows23 (e23 & -> & He23)]. split.
  - intros id c Hc.
    destruct (Hrows12 id c Hc) as (c2 & Hc2 & Hja2 & Hrank2).
    destruct (Hrows23 id c2 Hc2) as (c3 & Hc3 & Hja3 & Hrank3).
    exists c3. split_and!; [done|congruence|lia].
  - exists (e12 ++ e23). split; [by rewrite (assoc_L (++))|].
    by apply Forall_app.
Qed.

Lemma forwardOnlyTables_fresh cands log row entries :
  Forall forwardEntry entries →
  forwardOnlyTables cands log (<[fresh (dom cands) := row]> cands) (log ++ entries).
Proof.
  intros Hentries. split; [|by eauto].
  intros id c Hc. exists c. split_and!; [|done..].
  rewrite lookup_insert_ne; [done|]. intros <-.
  assert (cands !! fresh (dom cands) = None) as Hfresh
    by apply not_elem_of_dom, is_fresh.
  congruence.
Qed.

Lemma forwardOnlyTables_fresh_quiet cands log row :
  forwardOnlyTables cands log (<[fresh (dom cands) := row]> cands) log.
Proof.
  rewrite <- (right_id_L [] (++) log) at 2. by apply forwardOnlyTables_fresh.
Qed.

Lemma forwardOnlyTables_rewrite cands log id c c' entries :
  cands !! id = Some c →
  Candidature.jobApplicationId c' = Candidature.jobApplicationId c →
  (rank (Candidature.status c) ≤ rank (Candidature.status c'))%nat →
  Forall forwardEntry entries →
  forwardOnlyTables cands log (<[id := c']> cands) (log ++ entries).
Proof.
  intros Hc Hja Hrank Hentries. split; [|by eauto].
  intros id0 c0 Hc0. destruct (decide (id0 = id)) as [->|Hne].
  - exists c'. rewrite lookup_insert_eq. split; [done|]. by simplify_eq.
  - exists c0. by rewrite lookup_insert_ne.
Qed.

Lemma forwardOnlyTables_rewrite_quiet cands log id c c' :
  cands !! id = Some c →
  Candidature.jobApplicationId c' = Candidature.jobApplicationId c →
  (rank (Candidature.status c) ≤ rank (Candidature.status c'))%nat →
  forwardOnlyTables cands log (<[id := c']> cands) log.
Proof.
  intros. rewrite <- (right_id_L [] (++) log) at 2.
  by eapply forwardOnlyTables_rewrite.
Qed.

Lemma forwardEntry_intro id from to by_ at_ reason :
  (rank from < rank to)%nat →
  Forall forwardEntry [CandidatureStateTransition.mk id (Some from) to by_ at_ reason].
Proof. intros Hrank. repeat constructor. by exists from. Qed.

(** Settle [forwardOnly] between a store and the store a run left. *)
Ltac forward_only :=
  unfold forwardOnly; db_simpl;
  first
    [ apply forwardOnlyTables_refl
    | apply forwardOnlyTables_fresh_quiet
    | apply forwardOnlyTables_fresh; apply forwardEntry_intro; cbn; lia
    | eapply forwardOnlyTables_rewrite_quiet; [eassumption|done|cbn; lia]
    | eapply forwardOnlyTables_rewrite;
      [eassumption|done|cbn; lia|apply forwardEntry_intro; cbn; lia] ].

Lemma archive_forwardOnly id archivedBy (w : World Db) :
  forwardOnly (store w) (store (archive id archivedBy w).1).
Proof.
  destruct w as [s fs cs t]. cbn [store]. unfold archive, logTransition.
  run_monad. destruct (candidature s !! id) as [c|] eqn:Hc; [|forward_only].
  case_bool_decide as Hstatus; [forward_only|].
  destruct fs as [|[] [|[] [|[] fs]]]; run_monad; db_simpl; rewrite ?Hc;
    run_monad; try forward_only.
  all: unfold forwardOnly; db_simpl; eapply forwardOnlyTables_rewrite;
    [eassumption|done|rewrite Hstatus; cbn; lia
    |apply forwardEntry_intro; rewrite Hstatus; cbn; lia].
Qed.

Lemma makeDecision_forwardOnly id dto decidedBy (w : World Db) :
  forwardOnly (store w) (store (makeDecision id dto decidedBy w).1).
Proof.
  destruct w as [s fs cs t]. cbn [store]. unfold makeDecision, logTransition.
  run_monad. destruct (candidature s !! id) as [c|] eqn:Hc; [|forward_only].
  case_bool_decide as Hstatus; cbn [negb]; [|forward_only].
  assert (rank (Candidature.status c) < 5)%nat as Hrank.
  { apply elem_of_cons in Hstatus as [->|Hstatus]; [cbn; lia|].
    apply list_elem_of_singleton in Hstatus as ->. cbn. lia. }
  destruct fs as [|[] [|[] [|[] fs]]]; run_monad; db_simpl; rewrite ?Hc;
    run_monad; try forward_only.
  all: unfold forwardOnly; db_simpl; eapply forwardOnlyTables_rewrite;
    [eassumption|done|cbn; lia|apply forwardEntry_intro; cbn; lia].
Qed.

Lemma assignPsychologue_forwardOnly id dto assignedBy (w : World Db) :
  forwardOnly (store w) (store (assignPsychologue id dto assignedBy w).1).
Proof.
  destruct w as [s fs cs t]. cbn [store].
  unfold assignPsychologue, findPsychologue, logTransition.
  destruct (negb (truthy (Some assignedBy))); [forward_only|].
  run_monad. destruct (candidature s !! id) as [c|] eqn:Hc; [|forward_only].
  destruct (user s !! AssignPsychologueDto.psychologueId dto) as [u|];
    [|forward_only].
  case_bool_decide; [forward_only|]. run_monad.
  case_bool_decide as Hstatus.
  - destruct fs as [|[] [|[] [|[] fs]]]; run_monad; db_simpl; rewrite ?Hc;
      run_monad; try forward_only.
    all: unfold forwardOnly; db_simpl; eapply forwardOnlyTables_rewrite;
      [eassumption|done|rewrite Hstatus; cbn; lia
      |apply forwardEntry_intro; rewrite Hstatus; cbn; lia].
  - destruct fs as [|[] [|[] [|[] fs]]]; run_monad; db_simpl; rewrite ?Hc;
      run_monad; forward_only.
Qed.

Lemma assignTests_forwardOnly id dto assignedBy (w : World Db) :
  forwardOnly (store w) (store (assignTests id dto assignedBy w).1).
Proof.
  destruct (assignTests id dto assignedBy w) as [w1 [r|e]] eqn:Hrun; cbn [fst].
  - apply assignTests_Returned in Hrun as (c & (Hc & Hstatus & _) & _ & ->).
    unfold testsAssignedStore, testsAssignedLog, forwardOnly. db_simpl.
    assert (rank (Candidature.status c) ≤ 1)%nat as Hrank.
    { apply elem_of_cons in Hstatus as [->|Hstatus]; [cbn; lia|].
      apply list_elem_of_singleton in Hstatus as ->. cbn. lia. }
    eapply forwardOnlyTables_rewrite; [done|done|cbn; lia|].
    case_bool_decide as Hne; [|constructor].
    apply forwardEntry_intro. cbn.
    destruct (Candidature.status c); cbn in *; try lia. done.
  - apply assignTests_Thrown in Hrun as ->. apply forwardOnlyTables_refl.
Qed.

Lemma update_forwardOnly id dto userId (w : World Db) :
  forwardOnly (store w) (store (update id dto userId w).1).
Proof.
  destruct w as [s fs cs t]. cbn [store].
  unfold update, findPsychologue, ifTruthy.
  run_monad. destruct (candidature s !! id) as [c|] eqn:Hc; [|forward_only].
  destruct (UpdateCandidatureDto.assignedPsychologueId dto) as [pid|];
    [destruct (String.eqb pid "");
     [|destruct (user s !! pid) as [u|]; [case_bool_decide|]]|].
  all: run_monad; db_simpl; rewrite ?Hc.
  all: destruct fs as [|[] fs]; run_monad; forward_only.
Qed.

Lemma create_forwardOnly dto assignedBy (w : World Db) :
  forwardOnly (store w) (store (create dto assignedBy w).1).
Proof.
  destruct w as [s fs cs t]. cbn [store].
  unfold create, findPsychologue, logTransition, ifTruthy, truthy.
  run_monad.
  destruct (jobApplication s !! CreateCandidatureDto.jobApplicationId dto)
    as [ja|]; cbn [fmap option_fmap option_map]; [|forward_only].
  case_bool_decide; [forward_only|].
  destruct (candidatureOf _ _); [forward_only|].
  destruct (CreateCandidatureDto.assignedPsychologueId dto) as [pid|];
    [destruct (String.eqb pid "");
     [|destruct (user s !! pid) as [u|]; [case_bool_decide|]]|].
  all: cbn [negb]; run_monad; try forward_only.
  all: destruct fs as [|[] [|[] fs]]; run_monad; db_simpl; run_monad;
    forward_only.
Qed.

Lemma createManual_forwardOnly dto createdBy (w : World Db) :
  forwardOnly (store w) (store (createManual dto createdBy w).1).
Proof.
  destruct w as [s fs cs t]. cbn [store].
  unfold createManual, findPsychologue, ifTruthy, truthy.
  run_monad.
  destruct (user s !! CreateManualCandidatureDto.candidateId dto) as [u|];
    cbn [fmap option_fmap option_map]; [|forward_only].
  case_bool_decide; [forward_only|]. run_monad.
  destruct (site s !! _); [|forward_only].
  destruct (department s !! _); [|forward_only].
  destruct (CreateManualCandidatureDto.previousCandidatureId dto) as [prev|];
    [destruct (String.eqb prev "");
     [|run_monad; destruct (candidature s !! prev); [|forward_only]]|].
  all: destruct (CreateManualCandidatureDto.assignedPsychologueId dto) as [pid|];
    [destruct (String.eqb pid "");
     [|run_monad; destruct (user s !! pid) as [p|];
       [case_bool_decide|]]|].
  all: cbn [negb]; run_monad; try forward_only.
  all: destruct fs as [|[] [|[] [|[] fs]]]; run_monad; db_simpl; run_monad;
    forward_only.
Qed.

Lemma serve_forwardOnly r (w : World Db) :
  forwardOnly (store w) (store (serve r w).1).
Proof.
  destruct r; cbn [serve].
  - apply create_forwardOnly.
  - apply createManual_forwardOnly.
  - apply update_forwardOnly.
  - apply assignPsychologue_forwardOnly.
  - apply assignTests_forwardOnly.
  - apply makeDecision_forwardOnly.
  - apply archive_forwardOnly.
Qed.

End Lifecycle.

(** However the guarded methods of the service are called, in whatever
    order, with whatever arguments and whichever storage calls fail along
    the way: no candidature is ever removed or moved to another job
    application, no status ever moves backwards, so an archived
    candidature stays archived, and the transition log only grows, by
    entries that record a move to a later status. *)
Theorem guarded_methods_only_move_forward (rs : list Request) (w : World Db) :
  let s := store w in
  let s' := store (serveAll rs w) in
  forwardOnly s s'
  ∧ (∀ id c, candidature s !! id = Some c →
       Candidature.status c = CandidatureStatus.archived →
       ∃ c', candidature s' !! id = Some c'
             ∧ Candidature.status c' = CandidatureStatus.archived)
  ∧ candidatureStateTransition s `prefix_of` candidatureStateTransition s'.
Proof.
  cbn zeta.
  assert (forwardOnly (store w) (store (serveAll rs w))) as Hforward.
  { revert w. induction rs as [|r rs IH]; intros w.
    - apply forwardOnlyTables_refl.
    - cbn [serveAll foldl]. eapply forwardOnlyTables_trans; [|apply IH].
      apply serve_forwardOnly. }
  split_and!; [done| |].
  - intros id c Hc Hstatus.
    destruct Hforward as [Hrows _].
    destruct (Hrows id c Hc) as (c' & Hc' & _ & Hrank).
    exists c'. split; [done|]. rewrite Hstatus in Hrank.
    destruct (Candidature.status c'); cbn in Hrank; try lia. done.
  - destruct Hforward as [_ (entries & -> & _)]. by eexists.
Qed.

(** ** Dashboard counts *)

Section Dashboard.
Import CandidaturesService.

Lemma transformCounts_snoc raw st n :
  let counts := transformCounts raw in
  let counts' := transformCounts (raw ++ [(st, n)]) in
  DashboardCounts.total counts' = (DashboardCounts.total counts + n)%nat
  ∧ ∀ st', countFor counts' st' = if decide (st' = st) then n
                                   else countFor counts st'.
Proof.
  cbn zeta. unfold transformCounts. rewrite foldl_app. cbn [foldl fst snd].
  split; [by destruct st|]. intros st'. by destruct st, st'.
Qed.

Lemma transformCounts_fields raw :
  NoDup raw.*1 →
  let counts := transformCounts raw in
  DashboardCounts.total counts = sum_list raw.*2
  ∧ (∀ st n, (st, n) ∈ raw → countFor counts st = n)
  ∧ (∀ st, st ∉ raw.*1 → countFor counts st = 0%nat).
Proof.
  cbn zeta. induction raw as [|[st n] raw IH] using rev_ind.
  - intros _. split_and!; [done| |by intros []].
    by intros st n ?%elem_of_nil.
  - rewrite !fmap_app. cbn [fmap list_fmap fst snd].
    intros [Hraw [Hst _]]%NoDup_app.
    destruct (IH Hraw) as (IHtotal & IHin & IHout).
    destruct (transformCounts_snoc raw st n) as [-> Hfields].
    rewrite sum_list_with_app. cbn. split_and!; [lia| |].
    + intros st' n' [Hin|[= -> ->]%list_elem_of_singleton]%elem_of_app;
        rewrite Hfields; [|by rewrite decide_True].
      rewrite decide_False; [by apply IHin|].
      intros Heq. apply (Hst st); [|by left].
      rewrite <- Heq. by apply (list_elem_of_fmap_2 fst _ (st', n')).
    + intros st' [Hnotin Hne%not_elem_of_cons]%not_elem_of_app.
      rewrite Hfields, decide_False by naive_solver. by apply IHout.
Qed.

Lemma length_by_status (rows : list Candidature.t) :
  length rows
  = (countInStatus CandidatureStatus.pending rows
     + countInStatus CandidatureStatus.assigned rows
     + countInStatus CandidatureStatus.in_progress rows
     + countInStatus CandidatureStatus.completed rows
     + countInStatus CandidatureStatus.in_review rows
     + countInStatus CandidatureStatus.evaluated rows
     + countInStatus CandidatureStatus.archived rows)%nat.
Proof.
  unfold countInStatus. induction rows as [|c rows IH]; [done|].
  rewrite !filter_cons. cbn [length]. rewrite IH.
  destruct (Candidature.status c);
    repeat case_decide; cbn [length]; first [congruence | lia].
Qed.

Lemma sum_by_status (raw : list (CandidatureStatus.t * nat)) :
  NoDup raw.*1 →
  let counts := transformCounts raw in
  sum_list raw.*2
  = (DashboardCounts.pending counts + DashboardCounts.assigned counts
     + DashboardCounts.inProgress counts + DashboardCounts.completed counts
     + DashboardCounts.inReview counts + DashboardCounts.evaluated counts
     + DashboardCounts.archived counts)%nat.
Proof.
  cbn zeta. induction raw as [|[st n] raw IH] using rev_ind; [done|].
  rewrite !fmap_app. cbn [fmap list_fmap fst snd].
  intros [Hraw [Hst _]]%NoDup_app.
  destruct (transformCounts_fields raw Hraw) as (_ & _ & Hout).
  destruct (transformCounts_snoc raw st n) as [_ Hfields].
  assert (countFor (transformCounts raw) st = 0%nat) as Hzero.
  { apply Hout. intros Hin. apply (Hst st); [done|by left]. }
  rewrite sum_list_with_app, (IH Hraw). cbn [sum_list_with sum_list].
  pose proof (Hfields CandidatureStatus.pending) as H1.
  pose proof (Hfields CandidatureStatus.assigned) as H2.
  pose proof (Hfields CandidatureStatus.in_progress) as H3.
  pose proof (Hfields CandidatureStatus.completed) as H4.
  pose proof (Hfields CandidatureStatus.in_review) as H5.
  pose proof (Hfields CandidatureStatus.evaluated) as H6.
  pose proof (Hfields CandidatureStatus.archived) as H7.
  cbn [countFor] in H1, H2, H3, H4, H5, H6, H7.
  rewrite H1, H2, H3, H4, H5, H6, H7.
  destruct st; cbn [countFor] in Hzero; rewrite Hzero;
    repeat case_decide; first [congruence | unfold id; lia].
Qed.

(** On the groups that [groupBy] answers with for a set of candidatures,
    whatever their order, [transformCounts] gives for every status the
    number of candidatures in it (zero for a status that has no group) and
    as total the number of candidatures, which is the sum of the seven
    per-status counts. *)
Theorem transformCounts_counts_by_status (rows : list Candidature.t)
    (raw : list (CandidatureStatus.t * nat)) :
  groupedByStatus rows raw →
  let counts := transformCounts raw in
  (∀ st, countFor counts st = countInStatus st rows)
  ∧ DashboardCounts.total counts = length rows
  ∧ DashboardCounts.total counts
    = (DashboardCounts.pending counts + DashboardCounts.assigned counts
       + DashboardCounts.inProgress counts + DashboardCounts.completed counts
       + DashboardCounts.inReview counts + DashboardCounts.evaluated counts
       + DashboardCounts.archived counts)%nat.
Proof.
  intros [Hnodup Hgroups]. cbn zeta.
  destruct (transformCounts_fields raw Hnodup) as (Htotal & Hin & Hout).
  assert (∀ st, countFor (transformCounts raw) st = countInStatus st rows)
    as Hfields.
  { intros st. destruct (decide (st ∈ raw.*1)) as [Hst|Hst].
    - apply list_elem_of_fmap in Hst as ([st' n] & -> & Hst). cbn.
      rewrite (Hin _ _ Hst). by apply Hgroups in Hst as [-> _].
    - rewrite (Hout _ Hst).
      destruct (countInStatus st rows) as [|n] eqn:Hcount; [done|].
      exfalso. apply Hst.
      apply (list_elem_of_fmap_2 fst _ (st, Datatypes.S n)).
      apply Hgroups. split; [done|lia]. }
  assert (DashboardCounts.total (transformCounts raw)
          = (DashboardCounts.pending (transformCounts raw)
             + DashboardCounts.assigned (transformCounts raw)
             + DashboardCounts.inProgress (transformCounts raw)
             + DashboardCounts.completed (transformCounts raw)
             + DashboardCounts.inReview (transformCounts raw)
             + DashboardCounts.evaluated (transformCounts raw)
             + DashboardCounts.archived (transformCounts raw))%nat) as Hsum.
  { rewrite Htotal. by apply sum_by_status. }
  split_and!; [done| |done].
  rewrite Hsum, length_by_status.
  pose proof (Hfields CandidatureStatus.pending) as H1.
  pose proof (Hfields CandidatureStatus.assigned) as H2.
  pose proof (Hfields CandidatureStatus.in_progress) as H3.
  pose proof (Hfields CandidatureStatus.completed) as H4.
  pose proof (Hfields CandidatureStatus.in_review) as H5.
  pose proof (Hfields CandidatureStatus.evaluated) as H6.
  pose proof (Hfields CandidatureStatus.archived) as H7.
  cbn [countFor] in H1, H2, H3, H4, H5, H6, H7. lia.
Qed.

Lemma transformCounts_counts_by_status_witness :
  let rows := [row_pending; row_evaluated; row_pending] in
  let raw := [(CandidatureStatus.evaluated, 1%nat); (CandidatureStatus.pending, 2%nat)] in
  groupedByStatus rows raw
  ∧ DashboardCounts.pending (transformCounts raw) = 2%nat
  ∧ DashboardCounts.archived (transformCounts raw) = 0%nat
  ∧ DashboardCounts.total (transformCounts raw) = 3%nat.
Proof.
  cbn zeta.
  assert (groupedByStatus [row_pending; row_evaluated; row_pending]
            [(CandidatureStatus.evaluated, 1%nat); (CandidatureStatus.pending, 2%nat)])
    as Hgrouped.
  { split.
    - cbn. apply NoDup_ListNoDup. repeat constructor; cbn; intuition discriminate.
    - intros st n. rewrite elem_of_cons, list_elem_of_singleton. split.
      + intros [[= -> ->]|[= -> ->]]; (split; [by vm_compute|lia]).
      + intros [-> Hpos]. destruct st; vm_compute in Hpos |- *;
          first [lia | by left | by right]. }
  destruct (transformCounts_counts_by_status _ _ Hgrouped) as (Hfields & Htotal & _).
  split_and!; [done| | |done].
  - exact (Hfields CandidatureStatus.pending).
  - exact (Hfields CandidatureStatus.archived).
Defined.

End Dashboard.

(** ** Accepted score ranges are disjoint *)

Section Disjoint.
Import ScoreClassificationItemDto TestsService.

Lemma strictlyBelow_Transitive : Transitive strictlyBelow.
Proof. intros p q n (? & ? & ?) (? & ? & ?). unfold strictlyBelow. lia. Qed.

Lemma StronglySorted_lookup_lt {A} (R : A → A → Prop) l i j x y :
  StronglySorted R l → (i < j)%nat → l !! i = Some x → l !! j = Some y → R x y.
Proof.
  intros Hsorted. revert i j. induction Hsorted as [|z l Hl IH Hall].
  - by intros.
  - intros [|i] [|j] Hlt; try lia; cbn.
    + intros [= ->] Hy. rewrite Forall_forall in Hall. apply Hall.
      by eapply list_elem_of_lookup_2.
    + apply IH. lia.
Qed.

Lemma validRanges_StronglySorted l :
  validRanges l → StronglySorted strictlyBelow l.
Proof.
  intros (_ & Hbounds & Hadjacent).
  apply Sorted.Sorted_StronglySorted; [apply strictlyBelow_Transitive|].
  revert Hbounds. induction Hadjacent as [|p l Hl IH Hhd]; intros Hbounds;
    [constructor|].
  apply Forall_cons_1 in Hbounds as [Hp Hbounds].
  constructor; [by apply IH|].
  destruct Hhd as [|n l' Hpn]; constructor.
  apply Forall_cons_1 in Hbounds as [Hn _]. by split_and!.
Qed.

(** A set of classifications that [validateClassificationRanges] accepts
    assigns every score to at most one classification, wherever the two
    items stand in the input, and its score ranges follow the display
    order: an item with a smaller display order ends below the start of an
    item with a larger one. *)
Theorem validateClassificationRanges_accepts_disjoint
    (classifications : list ScoreClassificationItemDto.t) :
  validateClassificationRanges classifications = Returned () →
  ∀ i j a b,
    classifications !! i = Some a → classifications !! j = Some b → i ≠ j →
    (∀ score, inRange score a → ¬ inRange score b)
    ∧ ((displayOrder a < displayOrder b)%Z → (maxScore a < minScore b)%Z).
Proof.
  intros Haccepted i j a b Ha Hb Hne.
  pose proof (validateClassificationRanges_spec classifications) as Hspec.
  rewrite Haccepted in Hspec.
  pose proof (validRanges_StronglySorted _ Hspec) as Hstrong.
  destruct Hspec as (Horder & _ & _).
  assert (StronglySorted (λ p n, displayOrderOf p ≤ displayOrderOf n)%Z
            (itemRange <$> sortBy displayOrder classifications)) as Horder'.
  { apply Sorted.Sorted_StronglySorted; [|done]. intros x y z. lia. }
  pose proof (sortBy_Permutation displayOrder classifications) as Hperm.
  symmetry in Hperm. apply Permutation_inj in Hperm as (_ & f & Hinj & Hf).
  rewrite Hf in Ha, Hb.
  assert (f i ≠ f j) as Hne' by (intros Heq; by apply Hne, Hinj).
  assert (∀ k c, sortBy displayOrder classifications !! k = Some c →
                 (itemRange <$> sortBy displayOrder classifications) !! k
                 = Some (itemRange c)) as Hrange.
  { intros k c Hk. by rewrite list_lookup_fmap, Hk. }
  apply Hrange in Ha, Hb.
  destruct (decide (f i < f j)%nat) as [Hlt|Hge].
  - pose proof (StronglySorted_lookup_lt _ _ _ _ _ _ Hstrong Hlt Ha Hb)
      as (Hba & Hbb & Hab).
    unfold inRange, minScoreOf, maxScoreOf in *. cbn in *. split; [lia|done].
  - assert (f j < f i)%nat as Hlt by lia.
    pose proof (StronglySorted_lookup_lt _ _ _ _ _ _ Hstrong Hlt Hb Ha)
      as (Hbb & Hba & Hab).
    pose proof (StronglySorted_lookup_lt _ _ _ _ _ _ Horder' Hlt Hb Ha) as Hord.
    unfold inRange, minScoreOf, maxScoreOf, displayOrderOf in *. cbn in *.
    split; lia.
Qed.

Lemma validateClassificationRanges_accepts_disjoint_witness :
  let classifications := [item 2 21 50 "Bien"; item 1 0 20 "Faible"] in
  validateClassificationRanges classifications = Returned ()
  ∧ ∀ score, inRange score (item 2 21 50 "Bien")
             → ¬ inRange score (item 1 0 20 "Faible").
Proof.
  cbn zeta.
  assert (validateClassificationRanges
            [item 2 21 50 "Bien"; item 1 0 20 "Faible"] = Returned ())
    as Haccepted by by vm_compute.
  split; [done|].
  by destruct (validateClassificationRanges_accepts_disjoint _ Haccepted
                 0%nat 1%nat (item 2 21 50 "Bien") (item 1 0 20 "Faible")).
Defined.

End Disjoint.

(** ** Classification views *)

Section ClassificationViews.
Import TestsService.

Local Arguments TranslationsService.resolveLanguageCode : simpl never.

Lemma elem_of_translationsOf classificationId db t :
  keyedByColumns ScoreClassificationTranslation.classificationId
    ScoreClassificationTranslation.languageCode
    (scoreClassificationTranslation db) →
  t ∈ translationsOf classificationId db
  ↔ scoreClassificationTranslation db
      !! (classificationId, ScoreClassificationTranslation.languageCode t)
    = Some t.
Proof.
  intros Hkeyed. unfold translationsOf. rewrite list_elem_of_fmap. split.
  - intros ([key t'] & -> & [Hid Hin%elem_of_map_to_list]%list_elem_of_filter).
    cbn in *. pose proof (Hkeyed _ _ Hin) as ->. cbn in *. by subst.
  - intros Hrow. pose proof (Hkeyed _ _ Hrow) as [= Hid].
    exists ((classificationId, ScoreClassificationTranslation.languageCode t), t).
    split; [done|]. apply list_elem_of_filter. split; [done|].
    by apply elem_of_map_to_list.
Qed.

Lemma find_translationsOf classificationId db l :
  keyedByColumns ScoreClassificationTranslation.classificationId
    ScoreClassificationTranslation.languageCode
    (scoreClassificationTranslation db) →
  find (λ t, bool_decide (ScoreClassificationTranslation.languageCode t = l))
    (translationsOf classificationId db)
  = scoreClassificationTranslation db !! (classificationId, l).
Proof.
  intros Hkeyed.
  destruct (find _ (translationsOf classificationId db)) as [t|] eqn:Hfind.
  - apply find_some in Hfind as [Hin Hl]. apply bool_decide_eq_true in Hl.
    apply list_elem_of_In, elem_of_translationsOf in Hin; [|done].
    by rewrite <- Hl.
  - destruct (scoreClassificationTranslation db !! (classificationId, l))
      as [t|] eqn:Hrow; [|done].
    pose proof (Hkeyed _ _ Hrow) as [= Hid Hl].
    assert (t ∈ translationsOf classificationId db) as Hin.
    { apply elem_of_translationsOf; [done|]. by rewrite <- Hl. }
    apply list_elem_of_In in Hin.
    pose proof (find_none _ _ Hfind t Hin) as Hno. cbn in Hno.
    by rewrite bool_decide_eq_true_2 in Hno.
Qed.

Lemma translationsOf_nil classificationId db :
  keyedByColumns ScoreClassificationTranslation.classificationId
    ScoreClassificationTranslation.languageCode
    (scoreClassificationTranslation db) →
  translationsOf classificationId db = []
  ↔ ∀ l, scoreClassificationTranslation db !! (classificationId, l) = None.
Proof.
  intros Hkeyed. split.
  - intros Hnil l.
    destruct (scoreClassificationTranslation db !! (classificationId, l))
      as [t|] eqn:Hrow; [|done].
    pose proof (Hkeyed _ _ Hrow) as [= Hid Hl].
    assert (t ∈ translationsOf classificationId db) as Hin.
    { apply elem_of_translationsOf; [done|]. by rewrite <- Hl. }
    rewrite Hnil in Hin. by apply elem_of_nil in Hin.
  - intros Hnone.
    destruct (translationsOf classificationId db) as [|t ts] eqn:Hts; [done|].
    assert (t ∈ translationsOf classificationId db) as Hin
      by (rewrite Hts; by left).
    apply elem_of_translationsOf in Hin; [|done]. by rewrite Hnone in Hin.
Qed.

Lemma resolveLanguageCode_store_only lang (w w' : World Db) :
  store w = store w' →
  (TranslationsService.resolveLanguageCode lang w).2
  = (TranslationsService.resolveLanguageCode lang w').2.
Proof.
  intros Hstore.
  unfold TranslationsService.resolveLanguageCode,
    TranslationsService.getDefaultLanguageCode, bind, query, ret, record.
  cbn [store fst snd]. rewrite Hstore.
  by destruct (find _ (language (store w'))).
Qed.

Lemma getClassifications_run testId lang (w : World Db) :
  ∃ resolved,
    (TranslationsService.resolveLanguageCode lang w).2 = Returned resolved
    ∧ (getClassifications testId lang w).2
      = match logicalTest (store w) !! testId with
        | None => Thrown (NotFoundException
                            ("Test with ID " +:+ dquote +:+ testId +:+ dquote
                             +:+ " not found"))
        | Some _ =>
            Returned
              ((λ ct : ScoreClassification.t * list ScoreClassificationTranslation.t,
                  let translation := pickTranslation resolved ct.2 in
                  ClassificationView.mk
                    (ScoreClassification.id ct.1)
                    (ScoreClassification.displayOrder ct.1)
                    (ScoreClassification.minScore ct.1)
                    (ScoreClassification.maxScore ct.1)
                    (ScoreClassification.colorCode ct.1)
                    (ScoreClassificationTranslation.label <$> translation)
                    (translation ≫= ScoreClassificationTranslation.description))
               <$> ((λ c, (c, translationsOf (ScoreClassification.id c) (store w)))
                    <$> sortBy ScoreClassification.displayOrder
                          (classificationsOf testId (store w))))
        end.
Proof.
  destruct (resolveLanguageCode_run lang w) as (resolved & cs & Hrun & _).
  exists resolved. split; [by rewrite Hrun|].
  unfold getClassifications, bind, query, throw, ret. cbn.
  destruct (logicalTest (store w) !! testId); [|done].
  match goal with
  | |- context [TranslationsService.resolveLanguageCode lang ?w0] =>
      pose proof (resolveLanguageCode_store_only lang w0 w eq_refl) as Hsame;
      destruct (TranslationsService.resolveLanguageCode lang w0) as [w1 o]
  end.
  cbn [snd] in Hsame. rewrite Hrun in Hsame. cbn [snd] in Hsame. by subst o.
Qed.

(** [getClassifications] answers a missing test with a
    [NotFoundException].  For a stored test it never writes, and returns
    one entry per classification of the test, by non-decreasing display
    order, with the range and colour of the row.  The label is the one in
    the resolved language if the classification has it, otherwise the
    French one if it has that, otherwise the label of some other
    translation: it is null only for a classification without any
    translation. *)
Theorem getClassifications_labels (testId lang : string) (w : World Db) :
  keyedByColumns ScoreClassificationTranslation.classificationId
    ScoreClassificationTranslation.languageCode
    (scoreClassificationTranslation (store w)) →
  let run := getClassifications testId lang w in
  let table := scoreClassificationTranslation (store w) in
  store run.1 = store w
  ∧ (logicalTest (store w) !! testId = None →
     ∃ msg, run.2 = Thrown (NotFoundException msg))
  ∧ (is_Some (logicalTest (store w) !! testId) →
     ∃ views resolved,
       run.2 = Returned views
       ∧ (TranslationsService.resolveLanguageCode lang w).2 = Returned resolved
       ∧ Sorted (λ a b, ClassificationView.displayOrder a
                        ≤ ClassificationView.displayOrder b)%Z views
       ∧ Forall2
           (λ view row,
              ClassificationView.id view = ScoreClassification.id row
              ∧ ClassificationView.displayOrder view
                = ScoreClassification.displayOrder row
              ∧ ClassificationView.minScore view = ScoreClassification.minScore row
              ∧ ClassificationView.maxScore view = ScoreClassification.maxScore row
              ∧ ClassificationView.colorCode view
                = ScoreClassification.colorCode row)
           views
           (sortBy ScoreClassification.displayOrder
              (classificationsOf testId (store w)))
       ∧ ∀ view, view ∈ views →
           let translation l := table !! (ClassificationView.id view, l) in
           (∀ t, translation resolved = Some t →
                 ClassificationView.label view
                 = Some (ScoreClassificationTranslation.label t))
           ∧ (translation resolved = None →
              ∀ t, translation "fr" = Some t →
                   ClassificationView.label view
                   = Some (ScoreClassificationTranslation.label t))
           ∧ (ClassificationView.label view = None ↔ ∀ l, translation l = None)).
Proof.
  intros Hkeyed. cbn zeta. split; [apply getClassifications_store|].
  destruct (getClassifications_run testId lang w) as (resolved & Hlang & ->).
  split; [intros ->; by eexists|]. intros [test ->].
  eexists _, resolved. split; [done|]. split; [done|].
  set (rows := sortBy ScoreClassification.displayOrder
                 (classificationsOf testId (store w))).
  rewrite <- list_fmap_compose. split_and!.
  - apply Sorted_fmap with (R1 := λ a b, (ScoreClassification.displayOrder a
                                          ≤ ScoreClassification.displayOrder b)%Z);
      [done|apply (sortBy_Sorted ScoreClassification.displayOrder)].
  - apply Forall2_fmap_l, Forall_Forall2_diag, Forall_forall. by intros.
  - intros view (row & -> & Hrow)%list_elem_of_fmap. cbn.
    unfold pickTranslation.
    rewrite !find_translationsOf by done.
    destruct (scoreClassificationTranslation (store w)
                !! (ScoreClassification.id row, resolved)) as [t|] eqn:Hresolved.
    { split_and!; [by intros ? [= <-]|done|]. split; [done|].
      intros Hnone. by rewrite Hnone in Hresolved. }
    destruct (scoreClassificationTranslation (store w)
                !! (ScoreClassification.id row, "fr")) as [t|] eqn:Hfr.
    { split_and!; [done|by intros _ ? [= <-]|]. split; [done|].
      intros Hnone. by rewrite Hnone in Hfr. }
    split_and!; [done..|].
    rewrite <- translationsOf_nil by done.
    destruct (translationsOf (ScoreClassification.id row) (store w)); cbn;
      split; done.
Qed.

Lemma getClassifications_labels_witness :
  let w := reliable db_recruitment noon in
  keyedByColumns ScoreClassificationTranslation.classificationId
    ScoreClassificationTranslation.languageCode
    (scoreClassificationTranslation (store w))
  ∧ is_Some (logicalTest (store w) !! "test-1")
  ∧ ∃ views,
      (getClassifications "test-1" "en" w).2 = Returned views
      ∧ ClassificationView.label <$> views = [Some "Faible"; Some "Bien"].
Proof.
  cbn zeta.
  assert (keyedByColumns ScoreClassificationTranslation.classificationId
            ScoreClassificationTranslation.languageCode
            (scoreClassificationTranslation (store (reliable db_recruitment noon))))
    as Hkeyed by keyed_by_columns.
  assert (is_Some (logicalTest (store (reliable db_recruitment noon)) !! "test-1"))
    as Htest by (by eexists).
  destruct (getClassifications_labels "test-1" "en" (reliable db_recruitment noon)
              Hkeyed) as (_ & _ & Hviews).
  destruct (Hviews Htest) as (views & resolved & Hrun & _).
  split_and!; [done..|]. exists views. split; [done|].
  assert ((getClassifications "test-1" "en" (reliable db_recruitment noon)).2
          = Returned
              [ClassificationView.mk "cls-1" 1 0 20 None (Some "Faible") None;
               ClassificationView.mk "cls-2" 2 21 44 None (Some "Bien") None])
    as Hcomputed by by vm_compute.
  rewrite Hrun in Hcomputed. by injection Hcomputed as ->.
Defined.

End ClassificationViews.

(** ** Manual creation, and more runs on the worked stores *)

Section CreateManualAtomic.
Import CandidaturesService.

(** [createManual] inserts the job application and the candidature
    together or not at all: whatever it is called with and whichever
    storage call fails, it either throws and leaves the store as it was,
    or returns the new candidature, and then the store has grown by
    exactly an approved job application for the candidate and a
    candidature that points at it, both under keys that were free. *)
Theorem createManual_all_or_nothing (dto : CreateManualCandidatureDto.t)
    (createdBy : string) (w : World Db) :
  let run := createManual dto createdBy w in
  let jaId := fresh (dom (jobApplication (store w))) in
  let newId := fresh (dom (candidature (store w))) in
  ((∃ e, run.2 = Thrown e) ∧ store run.1 = store w)
  ∨ ∃ ja c,
      run.2 = Returned (newId, c)
      ∧ jobApplication (store w) !! jaId = None
      ∧ candidature (store w) !! newId = None
      ∧ Candidature.jobApplicationId c = jaId
      ∧ JobApplication.status ja = ApplicationStatus.approved
      ∧ JobApplication.candidateId ja = CreateManualCandidatureDto.candidateId dto
      ∧ store run.1
        = with_candidature (<[newId := c]> (candidature (store w)))
            (with_jobApplication (<[jaId := ja]> (jobApplication (store w)))
               (store w)).
Proof.
  destruct w as [s fs cs t]. cbn zeta. cbn [store].
  assert (jobApplication s !! fresh (dom (jobApplication s)) = None) as Hja
    by apply not_elem_of_dom, is_fresh.
  assert (candidature s !! fresh (dom (candidature s)) = None) as Hnew
    by apply not_elem_of_dom, is_fresh.
  unfold createManual, findPsychologue, ifTruthy, truthy.
  run_monad.
  destruct (user s !! CreateManualCandidatureDto.candidateId dto) as [u|];
    cbn [fmap option_fmap option_map]; [|left; by eauto].
  case_bool_decide; [left; by eauto|]. run_monad.
  destruct (site s !! _); [|left; by eauto].
  destruct (department s !! _); [|left; by eauto].
  destruct (CreateManualCandidatureDto.previousCandidatureId dto) as [prev|];
    [destruct (String.eqb prev "");
     [|run_monad; destruct (candidature s !! prev); [|left; by eauto]]|].
  all: destruct (CreateManualCandidatureDto.assignedPsychologueId dto) as [pid|];
    [destruct (String.eqb pid "");
     [|run_monad; destruct (user s !! pid) as [p|];
       [case_bool_decide|]]|].
  all: cbn [negb]; run_monad; try (left; by eauto).
  all: destruct fs as [|[] [|[] [|[] fs]]]; run_monad; db_simpl; run_monad;
    try (left; by eauto).
  all: right; eexists _, _; (split_and!; try done); reflexivity.
Qed.

End CreateManualAtomic.

Section Witnesses.
Import CandidaturesService TranslationsService.

Lemma assignPsychologue_moves_only_pending_witness :
  let w := reliable db_recruitment noon in
  let dto := AssignPsychologueDto.mk "psy-1" in
  let pending := assignPsychologue "cand-8" dto "admin-1" w in
  candidature (store w) !! "cand-8" = Some row_pending
  ∧ truthy (Some "admin-1") = true
  ∧ pending.2
    = Returned ("cand-8", psychologueAssignedRow dto "admin-1" noon row_pending)
  ∧ candidatureStateTransition (store pending.1)
    = [CandidatureStateTransition.mk "cand-8" (Some CandidatureStatus.pending)
         CandidatureStatus.assigned "admin-1" noon (Some "Assigned to Sami Gharbi")]
  ∧ (∃ msg, (assignPsychologue "cand-8" (AssignPsychologueDto.mk "user-1")
               "admin-1" w).2 = Thrown (BadRequestException msg)).
Proof.
  cbn zeta.
  assert (candidature (store (reliable db_recruitment noon)) !! "cand-8"
          = Some row_pending) as Hc by by vm_compute.
  destruct (assignPsychologue_moves_only_pending "cand-8"
              (AssignPsychologueDto.mk "psy-1") "admin-1"
              (reliable db_recruitment noon) row_pending Hc eq_refl)
    as [Haccepted _].
  destruct (Haccepted (User.mk "psy@example.org" "Sami" "Gharbi" UserRole.psychologue))
    as (w' & Hrun & Hstore); [by vm_compute|done|done|].
  rewrite Hrun. cbn [fst snd]. split_and!; [done..| |].
  - by rewrite Hstore.
  - eexists. by vm_compute.
Defined.

Lemma deleteTestTranslation_default_guarded_witness :
  let w := reliable db_french_and_english "2026-02-10T12:00:00Z" in
  let run := deleteTestTranslation "test-1" "fr" w in
  (getDefaultLanguageCode w).2 = Returned "fr"
  ∧ (∃ row, run = (run.1, Returned row))
  ∧ (1 ≤ countByParent "test-1" (logicalTestTranslation (store run.1)))%nat.
Proof.
  cbn zeta.
  set (w := reliable db_french_and_english "2026-02-10T12:00:00Z").
  assert ((getDefaultLanguageCode w).2 = Returned "fr") as Hdefault
    by by vm_compute.
  assert (deleteTestTranslation "test-1" "fr" w
          = ((deleteTestTranslation "test-1" "fr" w).1,
             Returned (LogicalTestTranslation.mk "test-1" "fr" "Test D-70" None
                         "Completez les dominos"))) as Hrun
    by by vm_compute.
  split_and!; [done|by eexists|].
  exact (deleteTestTranslation_default_guarded "test-1" "fr" w _ _ Hdefault Hrun).
Defined.

Lemma deleteTestTranslation_last_default_refused_witness :
  let w := reliable db_english_default "2026-02-10T12:00:00Z" in
  (getDefaultLanguageCode w).2 = Returned "en"
  ∧ (countByParent "test-1" (logicalTestTranslation (store w)) ≤ 1)%nat
  ∧ ∃ w' msg,
      deleteTestTranslation "test-1" "en" w = (w', Thrown (BadRequestException msg))
      ∧ store w' = store w.
Proof.
  cbn zeta.
  set (w := reliable db_english_default "2026-02-10T12:00:00Z").
  assert ((getDefaultLanguageCode w).2 = Returned "en") as Hdefault
    by by vm_compute.
  assert (countByParent "test-1" (logicalTestTranslation (store w)) ≤ 1)%nat
    as Hcount by (vm_compute; lia).
  split_and!; [done..|].
  exact (deleteTestTranslation_last_default_refused "test-1" "en" w Hdefault Hcount).
Defined.

Lemma deleteQuestionTranslation_default_guarded_witness :
  let w := reliable db_questions "2026-02-10T12:00:00Z" in
  let run := deleteQuestionTranslation "q-1" "fr" w in
  (getDefaultLanguageCode w).2 = Returned "fr"
  ∧ (∃ row, run = (run.1, Returned row))
  ∧ (1 ≤ countByParent "q-1" (logicalQuestionTranslation (store run.1)))%nat.
Proof.
  cbn zeta.
  set (w := reliable db_questions "2026-02-10T12:00:00Z").
  assert ((getDefaultLanguageCode w).2 = Returned "fr") as Hdefault
    by by vm_compute.
  assert (deleteQuestionTranslation "q-1" "fr" w
          = ((deleteQuestionTranslation "q-1" "fr" w).1,
             Returned (LogicalQuestionTranslation.mk "q-1" "fr" None
                         "Completez le domino" []))) as Hrun
    by by vm_compute.
  split_and!; [done|by eexists|].
  exact (deleteQuestionTranslation_default_guarded "q-1" "fr" w _ _ Hdefault Hrun).
Defined.

End Witnesses.
